(** * Usage analytics of claude-deck: a shallow embedding and its properties

    The development follows the backend services
    [app/services/pricing_service.py], [app/services/usage_service.py] and
    [app/services/session_service.py], with the tables of
    [app/models/database.py] that the two caches use.

    Conventions of the embedding.
    - Python [int] is [Z]; Python [float] is modelled by exact rationals [Q]
      (no rounding error); [Optional[T]] is [option T]. Durations reach the
      floats as whole microseconds, so the comparisons of the code with five
      hours come out as in exact arithmetic.
    - A [dict] is an association list in insertion order, which is the order
      Python iterates it in.
    - A [datetime] is a wall-clock reading in microseconds together with an
      optional UTC offset; comparing or subtracting a naive and an aware
      value raises [TypeError], as in Python. The range limits of
      [datetime] (years 1 to 9999) are not modelled.
    - Code that can raise runs in the error monad [result]. *)

From Stdlib Require Import ZArith QArith Qround Lia List Bool Ascii String.
From Stdlib Require Import Permutation DecimalString Lqa Sorted.
From Stdlib Require Import OrderedTypeEx.
Import ListNotations.

Open Scope Z_scope.

(* ===================================================================== *)
(** ** Python run-time support *)
(* ===================================================================== *)

Module Py.

(** The exceptions the modelled code can meet. *)
Inductive exn : Type :=
| TypeError
| ValueError
| ZeroDivisionError
| OSError
| MultipleResultsFound.

Inductive result (A : Type) : Type :=
| Ok (a : A)
| Raise (e : exn).
Arguments Ok {A} a.
Arguments Raise {A} e.

Definition bind {A B} (r : result A) (k : A -> result B) : result B :=
  match r with
  | Ok a => k a
  | Raise e => Raise e
  end.

(** [for x in xs: acc = body(acc, x)] where the body may raise. *)
Fixpoint foldM {A S} (body : S -> A -> result S) (xs : list A) (acc : S)
  : result S :=
  match xs with
  | [] => Ok acc
  | x :: xs' => bind (body acc x) (foldM body xs')
  end.

(** [[f(x) for x in xs]] where [f] may raise. *)
Fixpoint mapM {A B} (f : A -> result B) (xs : list A) : result (list B) :=
  match xs with
  | [] => Ok []
  | x :: xs' =>
      bind (f x) (fun y => bind (mapM f xs') (fun ys => Ok (y :: ys)))
  end.

(** [[x for x in xs if p(x)]] where the test may raise. *)
Fixpoint filterM {A} (p : A -> result bool) (xs : list A)
  : result (list A) :=
  match xs with
  | [] => Ok []
  | x :: xs' =>
      bind (p x) (fun b =>
      bind (filterM p xs') (fun ys => Ok (if b then x :: ys else ys)))
  end.

(** [sum(...)] over ints and over floats: a left fold from [0]. *)
Definition sum_int (l : list Z) : Z := fold_left Z.add l 0.
Definition sum_float (l : list Q) : Q := fold_left Qplus l (0 : Q).

(** [int(x)] truncates toward zero. *)
Definition int_of_float (x : Q) : Z := Z.quot (Qnum x) (Zpos (Qden x)).

(** [round(x, 2)]: nearest multiple of 1/100, ties to even. *)
Definition round_half_even (x : Q) : Z :=
  let f := Qfloor x in
  let r := (x - inject_Z f)%Q in
  match Qcompare r (1 # 2) with
  | Lt => f
  | Gt => f + 1
  | Eq => if Z.even f then f else f + 1
  end.
Definition round2 (x : Q) : Q := (inject_Z (round_half_even (x * 100)) / 100)%Q.

(** [a / b] on floats raises on a zero divisor. *)
Definition truediv (a b : Q) : result Q :=
  if Qeq_bool b 0 then Raise ZeroDivisionError else Ok (a / b)%Q.

(** *** Strings *)

(** [s.lower()], on ASCII letters. *)
Definition lower_ascii (c : ascii) : ascii :=
  let n := nat_of_ascii c in
  if (Nat.leb 65 n && Nat.leb n 90)%bool then ascii_of_nat (n + 32) else c.

Fixpoint lower (s : string) : string :=
  match s with
  | EmptyString => EmptyString
  | String c s' => String (lower_ascii c) (lower s')
  end.

Definition startswith (s p : string) : bool := String.prefix p s.

(** [s[n:]] *)
Fixpoint drop (n : nat) (s : string) : string :=
  match n, s with
  | O, _ => s
  | S n', String _ s' => drop n' s'
  | S _, EmptyString => EmptyString
  end.

(** [sub in s] *)
Fixpoint contains (sub s : string) : bool :=
  String.prefix sub s ||
  match s with
  | EmptyString => false
  | String _ s' => contains sub s'
  end.

(** *** Dictionaries with string keys, in insertion order *)

Definition dict (V : Type) : Type := list (string * V).

Fixpoint get {V} (d : dict V) (k : string) : option V :=
  match d with
  | [] => None
  | (k', v) :: d' => if String.eqb k' k then Some v else get d' k
  end.

Definition keys {V} (d : dict V) : list string := map fst d.

(** [d[k] = f(d[k])] on a [defaultdict] whose factory yields [dflt]:
    an existing key keeps its place, a new key goes last. *)
Fixpoint update {V} (dflt : V) (f : V -> V) (d : dict V) (k : string)
  : dict V :=
  match d with
  | [] => [(k, f dflt)]
  | (k', v) :: d' =>
      if String.eqb k' k then (k', f v) :: d'
      else (k', v) :: update dflt f d' k
  end.

(** *** Sorting

    [sorted] and [list.sort] are stable; with [reverse=True] elements that
    compare equal still keep their original order. *)

Fixpoint insert_desc {A} (leb : A -> A -> bool) (x : A) (l : list A)
  : list A :=
  match l with
  | [] => [x]
  | y :: l' => if leb y x then x :: l else y :: insert_desc leb x l'
  end.

Definition sorted_desc {A} (leb : A -> A -> bool) (l : list A) : list A :=
  fold_right (insert_desc leb) [] l.

Fixpoint insert_asc {A} (leb : A -> A -> bool) (x : A) (l : list A)
  : list A :=
  match l with
  | [] => [x]
  | y :: l' => if leb x y then x :: l else y :: insert_asc leb x l'
  end.

Definition sorted_asc {A} (leb : A -> A -> bool) (l : list A) : list A :=
  fold_right (insert_asc leb) [] l.

(** [l[:n]], also for a negative [n]. *)
Definition slice_to {A} (l : list A) (n : Z) : list A :=
  if n <? 0 then firstn (Z.to_nat (Z.max 0 (Z.of_nat (List.length l) + n))) l
  else firstn (Z.to_nat n) l.

(** [sep.join(parts)] *)
Fixpoint join (sep : string) (parts : list string) : string :=
  match parts with
  | [] => EmptyString
  | [p] => p
  | p :: ps => (p ++ sep ++ join sep ps)%string
  end.

(** [l[a:b]], also for negative indices. *)
Definition clamp_index (len i : Z) : Z :=
  if i <? 0 then Z.max 0 (len + i) else Z.min len i.

Definition slice {A} (l : list A) (a b : Z) : list A :=
  let len := Z.of_nat (List.length l) in
  let a' := clamp_index len a in
  let b' := clamp_index len b in
  firstn (Z.to_nat (b' - a')) (skipn (Z.to_nat a') l).

End Py.

Import Py.

Notation "x <- c1 ;; c2" := (Py.bind c1 (fun x => c2))
  (at level 61, c1 at next level, right associativity).

(* ===================================================================== *)
(** ** pricing_service.py *)
(* ===================================================================== *)

Module PricingService.

(** Default token threshold for tiered pricing (200k tokens). *)
Definition TIERED_THRESHOLD : Z := 200000.

Definition pricing : Type := dict Q.

Definition tiered_rates (i o cc cr i2 o2 cc2 cr2 : Q) : pricing :=
  [ ("input", i / 1000000); ("output", o / 1000000);
    ("cache_creation", cc / 1000000); ("cache_read", cr / 1000000);
    ("input_above_200k", i2 / 1000000); ("output_above_200k", o2 / 1000000);
    ("cache_creation_above_200k", cc2 / 1000000);
    ("cache_read_above_200k", cr2 / 1000000) ]%string%Q.

Definition flat_rates (i o cc cr : Q) : pricing :=
  [ ("input", i / 1000000); ("output", o / 1000000);
    ("cache_creation", cc / 1000000); ("cache_read", cr / 1000000)
  ]%string%Q.

(** Model pricing data (costs per token). *)
Definition MODEL_PRICING : dict pricing :=
  [ ("claude-sonnet-4-20250514",
      tiered_rates 3.00 15.00 3.75 0.30 6.00 22.50 7.50 0.60);
    ("claude-opus-4-20250514",
      tiered_rates 15.00 75.00 18.75 1.50 30.00 112.50 37.50 3.00);
    ("claude-opus-4-5-20251101",
      tiered_rates 15.00 75.00 18.75 1.50 30.00 112.50 37.50 3.00);
    ("claude-3-5-sonnet-20241022", flat_rates 3.00 15.00 3.75 0.30);
    ("claude-3-5-sonnet-20240620", flat_rates 3.00 15.00 3.75 0.30);
    ("claude-3-5-haiku-20241022", flat_rates 0.80 4.00 1.00 0.08);
    ("claude-3-opus-20240229", flat_rates 15.00 75.00 18.75 1.50);
    ("claude-3-sonnet-20240229", flat_rates 3.00 15.00 3.75 0.30);
    ("claude-3-haiku-20240307", flat_rates 0.25 1.25 0.30 0.03)
  ]%string%Q.

(** Provider prefixes for model name matching. *)
Definition PROVIDER_PREFIXES : list string :=
  [ "anthropic/"; "claude-"; "claude-3-"; "claude-3-5-" ]%string.

Definition normalize_model_name (model_name : string) : string :=
  fold_left
    (fun normalized prefix =>
       if startswith normalized prefix
       then drop (String.length prefix) normalized
       else normalized)
    PROVIDER_PREFIXES (lower model_name).

(** [next(v for (k, v) in table if p(k))], or [None]. *)
Fixpoint first_match {V} (p : string -> bool) (table : dict V) : option V :=
  match table with
  | [] => None
  | (k, v) :: t => if p k then Some v else first_match p t
  end.

Fixpoint first_some {A B} (f : A -> option B) (l : list A) : option B :=
  match l with
  | [] => None
  | x :: l' => match f x with Some y => Some y | None => first_some f l' end
  end.

Definition get_model_pricing (model_name : string) : option pricing :=
  (* direct match *)
  match get MODEL_PRICING model_name with
  | Some p => Some p
  | None =>
  (* with provider prefixes *)
  match first_some (fun prefix => get MODEL_PRICING (prefix ++ model_name))
                   PROVIDER_PREFIXES with
  | Some p => Some p
  | None =>
  (* normalized matching *)
  let normalized := normalize_model_name model_name in
  match first_match
          (fun key => String.eqb (normalize_model_name key) normalized)
          MODEL_PRICING with
  | Some p => Some p
  | None =>
  (* fuzzy match *)
  first_match
    (fun key => contains key model_name || contains model_name key)
    MODEL_PRICING
  end end end.

Definition calculate_tiered_cost
  (total_tokens : Z) (base_price tiered_price : option Q) (threshold : Z)
  : Q :=
  if total_tokens <=? 0 then 0%Q
  else
    (* [total_tokens > threshold and tiered_price is not None] *)
    match (if total_tokens >? threshold then tiered_price else None) with
    | Some tp =>
        let tokens_below := Z.min total_tokens threshold in
        let tokens_above := Z.max 0 (total_tokens - threshold) in
        let tiered_cost := (inject_Z tokens_above * tp)%Q in
        match base_price with
        | Some bp => (tiered_cost + inject_Z tokens_below * bp)%Q
        | None => tiered_cost
        end
    | None =>
        match base_price with
        | Some bp => (inject_Z total_tokens * bp)%Q
        | None => 0%Q
        end
    end.

Definition calculate_cost
  (input_tokens output_tokens cache_creation_tokens cache_read_tokens : Z)
  (model : option string) : Q :=
  match model with
  | None => 0%Q
  | Some m =>
      match get_model_pricing m with
      | None => 0%Q
      | Some pricing =>
          let input_cost :=
            calculate_tiered_cost input_tokens
              (get pricing "input") (get pricing "input_above_200k")
              TIERED_THRESHOLD in
          let output_cost :=
            calculate_tiered_cost output_tokens
              (get pricing "output") (get pricing "output_above_200k")
              TIERED_THRESHOLD in
          let cache_creation_cost :=
            calculate_tiered_cost cache_creation_tokens
              (get pricing "cache_creation")
              (get pricing "cache_creation_above_200k")
              TIERED_THRESHOLD in
          let cache_read_cost :=
            calculate_tiered_cost cache_read_tokens
              (get pricing "cache_read")
              (get pricing "cache_read_above_200k")
              TIERED_THRESHOLD in
          (input_cost + output_cost + cache_creation_cost + cache_read_cost)%Q
      end
  end.

(** Get list of supported model names. *)
Definition get_supported_models : list string := keys MODEL_PRICING.

End PricingService.

(* ===================================================================== *)
(** ** The [datetime] library, as far as the services use it *)
(* ===================================================================== *)

Module DateTime.

(** A [timedelta] is a number of microseconds. *)
Definition timedelta : Type := Z.

Definition US_PER_SECOND : Z := 1000000.
Definition US_PER_MINUTE : Z := 60 * US_PER_SECOND.
Definition US_PER_HOUR : Z := 60 * US_PER_MINUTE.
Definition US_PER_DAY : Z := 24 * US_PER_HOUR.

Definition hours (h : Z) : timedelta := h * US_PER_HOUR.
Definition minutes (m : Z) : timedelta := m * US_PER_MINUTE.
Definition days (d : Z) : timedelta := d * US_PER_DAY.

(** [td.total_seconds()] *)
Definition total_seconds (td : timedelta) : Q :=
  (inject_Z td / inject_Z US_PER_SECOND)%Q.

(** [wall] counts the microseconds from 1970-01-01T00:00:00 to the
    reading of the date and time fields; [utcoffset] is [None] for a naive
    value and the offset of its zone, in microseconds, for an aware one. *)
Record datetime : Type := mkDatetime {
  wall : Z;
  utcoffset : option timedelta
}.

Definition naive (w : Z) : datetime := mkDatetime w None.
Definition aware (w : Z) (off : timedelta) : datetime :=
  mkDatetime w (Some off).

Definition is_aware (d : datetime) : bool :=
  match utcoffset d with Some _ => true | None => false end.

(** The instant on the UTC time line two values of one kind are compared
    by: the reading itself for naive values. *)
Definition instant (d : datetime) : Z :=
  match utcoffset d with
  | Some off => wall d - off
  | None => wall d
  end.

Definition same_kind (a b : datetime) : bool :=
  Bool.eqb (is_aware a) (is_aware b).

(** [a - b] *)
Definition sub (a b : datetime) : result timedelta :=
  if same_kind a b then Ok (instant a - instant b) else Raise TypeError.

(** [a < b], [a >= b], [a > b] *)
Definition lt (a b : datetime) : result bool :=
  if same_kind a b then Ok (instant a <? instant b) else Raise TypeError.
Definition ge (a b : datetime) : result bool :=
  if same_kind a b then Ok (instant a >=? instant b) else Raise TypeError.
Definition gt (a b : datetime) : result bool :=
  if same_kind a b then Ok (instant a >? instant b) else Raise TypeError.

(** [d + td] *)
Definition add (d : datetime) (td : timedelta) : datetime :=
  mkDatetime (wall d + td) (utcoffset d).

(** [d.replace(minute=0, second=0, microsecond=0)] *)
Definition floor_hour (d : datetime) : datetime :=
  mkDatetime (wall d - wall d mod US_PER_HOUR) (utcoffset d).

(** *** The proleptic Gregorian calendar *)

(** Day number (from 1970-01-01) to year, month, day. *)
Definition civil_from_days (z0 : Z) : Z * Z * Z :=
  let z := z0 + 719468 in
  let era := z / 146097 in
  let doe := z - era * 146097 in
  let yoe := (doe - doe / 1460 + doe / 36524 - doe / 146096) / 365 in
  let y := yoe + era * 400 in
  let doy := doe - (365 * yoe + yoe / 4 - yoe / 100) in
  let mp := (5 * doy + 2) / 153 in
  let d := doy - (153 * mp + 2) / 5 + 1 in
  let m := if mp <? 10 then mp + 3 else mp - 9 in
  (if m <=? 2 then y + 1 else y, m, d).

Definition days_from_civil (y0 m d : Z) : Z :=
  let y := if m <=? 2 then y0 - 1 else y0 in
  let era := y / 400 in
  let yoe := y - era * 400 in
  let doy := (153 * (if m >? 2 then m - 3 else m + 9) + 2) / 5 + d - 1 in
  let doe := yoe * 365 + yoe / 4 - yoe / 100 + doy in
  era * 146097 + doe - 719468.

Definition year (d : datetime) : Z :=
  let '(y, _, _) := civil_from_days (wall d / US_PER_DAY) in y.
Definition month (d : datetime) : Z :=
  let '(_, m, _) := civil_from_days (wall d / US_PER_DAY) in m.
Definition day (d : datetime) : Z :=
  let '(_, _, dd) := civil_from_days (wall d / US_PER_DAY) in dd.

(** *** Formatting *)

Definition digit (n : Z) : ascii :=
  ascii_of_nat (48 + Z.to_nat (n mod 10)).

(** The [k] low decimal digits of [n]. *)
Fixpoint zero_padded (k : nat) (n : Z) : string :=
  match k with
  | O => EmptyString
  | S k' => (zero_padded k' (n / 10)%Z ++ String (digit n) EmptyString)%string
  end.

(** [d.strftime("%Y-%m")] (years of four digits) *)
Definition strftime_Ym (d : datetime) : string :=
  (zero_padded 4 (year d) ++ "-" ++ zero_padded 2 (month d))%string.

(** [d.strftime("%Y-%m-%d")] (years of four digits) *)
Definition strftime_Ymd (d : datetime) : string :=
  (strftime_Ym d ++ "-" ++ zero_padded 2 (day d))%string.

(** The [+HH:MM] suffix of an aware value (offsets of whole minutes). *)
Definition format_offset (off : timedelta) : string :=
  let a := Z.abs off / US_PER_MINUTE in
  ((if (off <? 0)%Z then "-" else "+")
     ++ zero_padded 2 (a / 60)%Z ++ ":" ++ zero_padded 2 (a mod 60)%Z)%string.

(** [d.isoformat()] *)
Definition isoformat (d : datetime) : string :=
  let t := wall d mod US_PER_DAY in
  let us := t mod US_PER_SECOND in
  (strftime_Ymd d ++ "T"
     ++ zero_padded 2 (t / US_PER_HOUR)%Z ++ ":"
     ++ zero_padded 2 (t / US_PER_MINUTE mod 60)%Z ++ ":"
     ++ zero_padded 2 (t / US_PER_SECOND mod 60)%Z
     ++ (if (us =? 0)%Z then "" else "." ++ zero_padded 6 us)
     ++ match utcoffset d with
        | Some off => format_offset off
        | None => ""
        end)%string.

(** *** Parsing *)

Definition digit_value (c : ascii) : option Z :=
  let n := nat_of_ascii c in
  if (Nat.leb 48 n && Nat.leb n 57)%bool then Some (Z.of_nat (n - 48))
  else None.

(** The value of a non-empty string of decimal digits. *)
Fixpoint number_from (acc : Z) (s : string) : option Z :=
  match s with
  | EmptyString => Some acc
  | String c s' =>
      match digit_value c with
      | Some v => number_from (10 * acc + v) s'
      | None => None
      end
  end.

Definition number (s : string) : option Z :=
  match s with
  | EmptyString => None
  | _ => number_from 0 s
  end.

(** [s.split(sep)] for a one-character separator. *)
Fixpoint split_on (sep : ascii) (s : string) : list string :=
  match s with
  | EmptyString => [EmptyString]
  | String c s' =>
      if Ascii.eqb c sep then EmptyString :: split_on sep s'
      else match split_on sep s' with
           | [] => [String c EmptyString]
           | p :: ps => String c p :: ps
           end
  end.

Definition is_leap (y : Z) : bool :=
  ((y mod 4 =? 0) && negb (y mod 100 =? 0) || (y mod 400 =? 0))%bool.

Definition days_in_month (y m : Z) : Z :=
  if m =? 2 then (if is_leap y then 29 else 28)
  else if (m =? 4) || (m =? 6) || (m =? 9) || (m =? 11) then 30
  else 31.

(** [datetime(y, m, d)]: midnight of a calendar day, naive. *)
Definition of_date (y m d : Z) : result datetime :=
  if ((1 <=? y) && (y <=? 9999) && (1 <=? m) && (m <=? 12)
      && (1 <=? d) && (d <=? days_in_month y m))%bool
  then Ok (naive (days_from_civil y m d * US_PER_DAY))
  else Raise ValueError.

(** [datetime.strptime(s, "%Y-%m-%d")]: a year of four digits, a month
    and a day of one or two digits; the result is naive. *)
Definition strptime_Ymd (s : string) : result datetime :=
  match split_on "-"%char s with
  | [ys; ms; ds] =>
      if ((String.length ys =? 4)%nat && (String.length ms <=? 2)%nat
          && (String.length ds <=? 2)%nat)%bool
      then match number ys, number ms, number ds with
           | Some y, Some m, Some d => of_date y m d
           | _, _, _ => Raise ValueError
           end
      else Raise ValueError
  | _ => Raise ValueError
  end.

(** [datetime.fromisoformat] on the spellings [isoformat] itself writes
    with a time part: [YYYY-MM-DD?HH:MM:SS], an optional fraction of three
    or six digits, an optional [+HH:MM] or [-HH:MM]. *)
Definition field (s : string) (pos len : nat) : option Z :=
  let f := String.substring pos len s in
  if (String.length f =? len)%nat then number f else None.

Definition char_at (s : string) (pos : nat) (c : ascii) : bool :=
  match String.get pos s with
  | Some c' => Ascii.eqb c' c
  | None => false
  end.

Definition parse_fraction (s : string) : option (Z * string) :=
  if char_at s 0 "."%char then
    match field s 1 6, field s 1 3 with
    | Some us, _ => Some (us, drop 7 s)
    | None, Some ms => Some (ms * 1000, drop 4 s)
    | None, None => None
    end
  else Some (0, s).

Definition parse_offset (s : string) : option (option timedelta) :=
  match s with
  | EmptyString => Some None
  | String sign _ =>
      if ((Ascii.eqb sign "+"%char || Ascii.eqb sign "-"%char)
          && char_at s 3 ":"%char && (String.length s =? 6)%nat)%bool
      then match field s 1 2, field s 4 2 with
           | Some hh, Some mm =>
               if ((hh <? 24) && (mm <? 60))%bool
               then let off := hours hh + minutes mm in
                    Some (Some (if Ascii.eqb sign "-"%char then - off else off))
               else None
           | _, _ => None
           end
      else None
  end.

Definition fromisoformat_basic (s : string) : result datetime :=
  if (char_at s 4 "-"%char && char_at s 7 "-"%char
      && char_at s 13 ":"%char && char_at s 16 ":"%char)%bool
  then
    match field s 0 4, field s 5 2, field s 8 2,
          field s 11 2, field s 14 2, field s 17 2,
          parse_fraction (drop 19 s) with
    | Some y, Some m, Some d, Some hh, Some mm, Some ss, Some (us, rest) =>
        match parse_offset rest with
        | Some off =>
            if ((hh <? 24) && (mm <? 60) && (ss <? 60))%bool
            then
              midnight <- of_date y m d ;;
              Ok (mkDatetime
                    (wall midnight + hours hh + minutes mm
                     + ss * US_PER_SECOND + us) off)
            else Raise ValueError
        | None => Raise ValueError
        end
    | _, _, _, _, _, _, _ => Raise ValueError
    end
  else Raise ValueError.

End DateTime.

Import DateTime.

(* ===================================================================== *)
(** ** usage_service.py *)
(* ===================================================================== *)

Module UsageService.

Definition CACHE_TTL_MINUTES : Z := 5.
Definition SESSION_DURATION_HOURS : Z := 5.
Definition DEFAULT_RECENT_DAYS : Z := 3.

(** A single usage entry from JSONL files. *)
Record LoadedUsageEntry : Type := mkEntry {
  timestamp : datetime;
  input_tokens : Z;
  output_tokens : Z;
  cache_creation_tokens : Z;
  cache_read_tokens : Z;
  cost_usd : option Q;
  model : string;
  session_id : option string;
  version : option string;
  project_path : string
}.

(** *** JSONL parsing *)

(** The [message] object of a record; [usage] maps counter names to
    integers. *)
Record message : Type := mkMessage {
  m_model : option string;
  m_usage : option (dict Z)
}.

(** A decoded log record; an absent key is [None]. *)
Record log_object : Type := mkObject {
  o_type : option string;
  o_message : option message;
  o_timestamp : option string;
  o_costUSD : option Q;
  o_sessionId : option string;
  o_version : option string
}.

(** One line of a file, after [strip] and [json.loads]. *)
Inductive line : Type :=
| Blank                          (* empty after strip *)
| Undecodable                    (* json.loads raises JSONDecodeError *)
| NotAnObject                    (* decodes to a value without [.get] *)
| Object (obj : log_object).

(** A file to read: the name of its directory, its stem, and its lines
    ([None] when it cannot be opened). *)
Record jsonl_file : Type := mkFile {
  parent_name : string;
  stem : string;
  lines : option (list line)
}.

(** [s.replace("Z", "+00:00")] *)
Fixpoint replace_Z (s : string) : string :=
  match s with
  | EmptyString => EmptyString
  | String c s' =>
      if Ascii.eqb c "Z"%char then ("+00:00" ++ replace_Z s')%string
      else String c (replace_Z s')
  end.

Definition get_or {V} (d : dict V) (k : string) (dflt : V) : V :=
  match get d k with Some v => v | None => dflt end.

(** [s or dflt]: an absent or empty string is falsy. *)
Definition or_else (s : option string) (dflt : string) : string :=
  match s with
  | Some (String c r) => String c r
  | _ => dflt
  end.

Definition is_assistant (t : option string) : bool :=
  match t with
  | Some t' => String.eqb t' "assistant"
  | None => false
  end.

Definition same_kind_as (d : datetime) (e : LoadedUsageEntry) : bool :=
  same_kind d (timestamp e).

Definition entry_le (a b : LoadedUsageEntry) : bool :=
  instant (timestamp a) <=? instant (timestamp b).

(** [sorted(entries, key=lambda e: e.timestamp)]: a stable sort; it
    raises exactly when a naive and an aware timestamp meet, which a
    comparison sort cannot avoid when both kinds are present. *)
Definition sorted_by_timestamp (entries : list LoadedUsageEntry)
  : result (list LoadedUsageEntry) :=
  match entries with
  | [] => Ok []
  | e0 :: _ =>
      if forallb (same_kind_as (timestamp e0)) entries
      then Ok (sorted_asc entry_le entries)
      else Raise TypeError
  end.

(** What the body of the line loop does with one line. *)
Inductive line_outcome : Type :=
| Continue
| Append (e : LoadedUsageEntry)
| Abort.

Section Loader.

(** [datetime.fromisoformat]; the accepted spellings depend on the
    interpreter, so the parser is a parameter. *)
Variable fromisoformat : string -> result datetime.

Definition parse_line (project_folder file_stem : string) (l : line)
  : line_outcome :=
  match l with
  | Blank => Continue
  | Undecodable => Continue
  | NotAnObject => Abort
  | Object obj =>
      (* only assistant messages with usage data *)
      if negb (is_assistant (o_type obj)) then Continue
      else
          let msg :=
            match o_message obj with
            | Some m => m
            | None => mkMessage None None
            end in
          let usage := match m_usage msg with Some u => u | None => [] end in
          match usage with
          | [] => Continue
          | _ =>
              let input := get_or usage "input_tokens" 0 in
              let output := get_or usage "output_tokens" 0 in
              let cache_creation :=
                get_or usage "cache_creation_input_tokens" 0 in
              let cache_read :=
                get_or usage "cache_read_input_tokens" 0 in
              (* skip entries with no tokens *)
              if ((input =? 0) && (output =? 0) && (cache_creation =? 0)
                  && (cache_read =? 0))%bool
              then Continue
              else
                let timestamp_str :=
                  match o_timestamp obj with
                  | Some t => t
                  | None => EmptyString
                  end in
                match fromisoformat (replace_Z timestamp_str) with
                | Raise _ => Continue
                | Ok ts =>
                    Append
                      {| timestamp := ts;
                         input_tokens := input;
                         output_tokens := output;
                         cache_creation_tokens := cache_creation;
                         cache_read_tokens := cache_read;
                         cost_usd := o_costUSD obj;
                         model :=
                           match m_model msg with
                           | Some m => m
                           | None => "unknown"%string
                           end;
                         session_id :=
                           Some (or_else (o_sessionId obj) file_stem);
                         version := o_version obj;
                         project_path := project_folder |}
                end
          end
  end.

(** The line loop; an exception other than the ones handled per line
    ends it, and the entries read so far are kept. *)
Fixpoint parse_lines (project_folder file_stem : string)
  (ls : list line) (entries : list LoadedUsageEntry)
  : list LoadedUsageEntry :=
  match ls with
  | [] => entries
  | l :: ls' =>
      match parse_line project_folder file_stem l with
      | Continue => parse_lines project_folder file_stem ls' entries
      | Append e =>
          parse_lines project_folder file_stem ls' (entries ++ [e])
      | Abort => entries
      end
  end.

Definition parse_usage_from_jsonl (f : jsonl_file)
  : list LoadedUsageEntry :=
  match lines f with
  | None => []
  | Some ls => parse_lines (parent_name f) (stem f) ls []
  end.

Definition get_all_usage_entries (files : list jsonl_file)
  : result (list LoadedUsageEntry) :=
  sorted_by_timestamp (flat_map parse_usage_from_jsonl files).

End Loader.

(** *** Aggregation *)

(** Calculate cost for a single entry. *)
Definition _calculate_entry_cost (entry : LoadedUsageEntry) : Q :=
  match cost_usd entry with
  | Some c => c
  | None =>
      PricingService.calculate_cost
        (input_tokens entry) (output_tokens entry)
        (cache_creation_tokens entry) (cache_read_tokens entry)
        (Some (model entry))
  end.

Record ModelBreakdown : Type := mkBreakdown {
  mb_model : string;
  mb_input_tokens : Z;
  mb_output_tokens : Z;
  mb_cache_creation_tokens : Z;
  mb_cache_read_tokens : Z;
  mb_cost : Q
}.

(** The per-model accumulator of [_aggregate_model_breakdowns]. *)
Record model_totals : Type := mkTotals {
  t_input_tokens : Z;
  t_output_tokens : Z;
  t_cache_creation_tokens : Z;
  t_cache_read_tokens : Z;
  t_cost : Q
}.

Definition zero_totals : model_totals := mkTotals 0 0 0 0 0%Q.

Definition add_entry (entry : LoadedUsageEntry) (data : model_totals)
  : model_totals :=
  {| t_input_tokens := t_input_tokens data + input_tokens entry;
     t_output_tokens := t_output_tokens data + output_tokens entry;
     t_cache_creation_tokens :=
       t_cache_creation_tokens data + cache_creation_tokens entry;
     t_cache_read_tokens :=
       t_cache_read_tokens data + cache_read_tokens entry;
     t_cost := (t_cost data + _calculate_entry_cost entry)%Q |}.

Definition model_data_of (entries : list LoadedUsageEntry)
  : dict model_totals :=
  fold_left
    (fun model_data entry =>
       update zero_totals (add_entry entry) model_data (model entry))
    entries [].

(** Aggregate entries into model breakdowns. *)
Definition _aggregate_model_breakdowns (entries : list LoadedUsageEntry)
  : list ModelBreakdown :=
  map (fun '(m, data) =>
         mkBreakdown m (t_input_tokens data) (t_output_tokens data)
           (t_cache_creation_tokens data) (t_cache_read_tokens data)
           (t_cost data))
      (model_data_of entries).

(** [defaultdict(list)] filled by [d[key(e)].append(e)]. *)
Definition group_by (key : LoadedUsageEntry -> string)
  (entries : list LoadedUsageEntry) : dict (list LoadedUsageEntry) :=
  fold_left
    (fun d entry => update [] (fun l => l ++ [entry]) d (key entry))
    entries [].

(** The distinct elements of [l], in the order in which they first occur:
    the keys of a dict filled from [l]. The model also lists [set(l)] this
    way, for which Python fixes no order. *)
Fixpoint first_seen (l : list string) : list string :=
  match l with
  | [] => []
  | x :: l' => x :: filter (fun y => negb (String.eqb x y)) (first_seen l')
  end.

Record DailyUsage : Type := mkDaily {
  d_date : string;
  d_input_tokens : Z;
  d_output_tokens : Z;
  d_cache_creation_tokens : Z;
  d_cache_read_tokens : Z;
  d_total_cost : Q;
  d_models_used : list string;
  d_model_breakdowns : list ModelBreakdown
}.

Definition key_leb {V} (a b : string * V) : bool :=
  String.leb (fst a) (fst b).

Definition daily_row (item : string * list LoadedUsageEntry) : DailyUsage :=
  let '(date, day_entries) := item in
  {| d_date := date;
     d_input_tokens := sum_int (map input_tokens day_entries);
     d_output_tokens := sum_int (map output_tokens day_entries);
     d_cache_creation_tokens :=
       sum_int (map cache_creation_tokens day_entries);
     d_cache_read_tokens := sum_int (map cache_read_tokens day_entries);
     d_total_cost := sum_float (map _calculate_entry_cost day_entries);
     d_models_used := first_seen (map model day_entries);
     d_model_breakdowns := _aggregate_model_breakdowns day_entries |}.

Definition date_key (entry : LoadedUsageEntry) : string :=
  strftime_Ymd (timestamp entry).

(** Aggregate entries by date (YYYY-MM-DD). *)
Definition aggregate_by_daily (entries : list LoadedUsageEntry)
  : list DailyUsage :=
  map daily_row (sorted_desc key_leb (group_by date_key entries)).

Record MonthlyUsage : Type := mkMonthly {
  mo_month : string;
  mo_input_tokens : Z;
  mo_output_tokens : Z;
  mo_cache_creation_tokens : Z;
  mo_cache_read_tokens : Z;
  mo_total_cost : Q;
  mo_models_used : list string;
  mo_model_breakdowns : list ModelBreakdown
}.

Definition monthly_row (item : string * list LoadedUsageEntry)
  : MonthlyUsage :=
  let '(month, month_entries) := item in
  {| mo_month := month;
     mo_input_tokens := sum_int (map input_tokens month_entries);
     mo_output_tokens := sum_int (map output_tokens month_entries);
     mo_cache_creation_tokens :=
       sum_int (map cache_creation_tokens month_entries);
     mo_cache_read_tokens := sum_int (map cache_read_tokens month_entries);
     mo_total_cost := sum_float (map _calculate_entry_cost month_entries);
     mo_models_used := first_seen (map model month_entries);
     mo_model_breakdowns := _aggregate_model_breakdowns month_entries |}.

Definition month_key (entry : LoadedUsageEntry) : string :=
  strftime_Ym (timestamp entry).

(** Aggregate entries by month (YYYY-MM). *)
Definition aggregate_by_monthly (entries : list LoadedUsageEntry)
  : list MonthlyUsage :=
  map monthly_row (sorted_desc key_leb (group_by month_key entries)).

Record SessionUsage : Type := mkSession {
  s_session_id : string;
  s_project_path : string;
  s_input_tokens : Z;
  s_output_tokens : Z;
  s_cache_creation_tokens : Z;
  s_cache_read_tokens : Z;
  s_total_cost : Q;
  s_last_activity : string;
  s_versions : list string;
  s_models_used : list string;
  s_model_breakdowns : list ModelBreakdown
}.

(** [f"{x}"] of an optional string. *)
Definition str_of (o : option string) : string :=
  match o with Some s => s | None => "None"%string end.

Definition session_key (entry : LoadedUsageEntry) : string :=
  (project_path entry ++ ":" ++ str_of (session_id entry))%string.

(** [s.split(":", 1)], for a string that holds a colon. *)
Fixpoint split_colon (s : string) : string * string :=
  match s with
  | EmptyString => (EmptyString, EmptyString)
  | String c s' =>
      if Ascii.eqb c ":"%char then (EmptyString, s')
      else let '(a, b) := split_colon s' in (String c a, b)
  end.

(** [max(entries, key=lambda e: e.timestamp)], scanning from [best]. *)
Fixpoint max_by_timestamp (best : LoadedUsageEntry)
  (rest : list LoadedUsageEntry) : result LoadedUsageEntry :=
  match rest with
  | [] => Ok best
  | e :: rest' =>
      b <- DateTime.gt (timestamp e) (timestamp best) ;;
      max_by_timestamp (if b then e else best) rest'
  end.

Fixpoint some_values {A} (l : list (option A)) : list A :=
  match l with
  | [] => []
  | Some x :: l' => x :: some_values l'
  | None :: l' => some_values l'
  end.

Definition session_row (item : string * list LoadedUsageEntry)
  : result SessionUsage :=
  let '(key, session_entries) := item in
  let '(project, session) := split_colon key in
  match session_entries with
  | [] => Raise ValueError            (* max() of an empty sequence *)
  | e0 :: rest =>
      last_entry <- max_by_timestamp e0 rest ;;
      Ok {| s_session_id := session;
            s_project_path := project;
            s_input_tokens := sum_int (map input_tokens session_entries);
            s_output_tokens := sum_int (map output_tokens session_entries);
            s_cache_creation_tokens :=
              sum_int (map cache_creation_tokens session_entries);
            s_cache_read_tokens :=
              sum_int (map cache_read_tokens session_entries);
            s_total_cost :=
              sum_float (map _calculate_entry_cost session_entries);
            s_last_activity := strftime_Ymd (timestamp last_entry);
            s_versions :=
              first_seen (some_values (map version session_entries));
            s_models_used := first_seen (map model session_entries);
            s_model_breakdowns :=
              _aggregate_model_breakdowns session_entries |}
  end.

Definition last_activity_leb (a b : SessionUsage) : bool :=
  String.leb (s_last_activity a) (s_last_activity b).

(** Aggregate entries by session. *)
Definition aggregate_by_session (entries : list LoadedUsageEntry)
  : result (list SessionUsage) :=
  session_usage <- mapM session_row (group_by session_key entries) ;;
  (* sort by last activity descending *)
  Ok (sorted_desc last_activity_leb session_usage).

(** *** Session blocks (5-hour billing periods) *)

(** Floor datetime to beginning of hour. *)
Definition _floor_to_hour (dt : datetime) : datetime := floor_hour dt.

Record SessionBlock : Type := mkBlock {
  b_id : string;
  b_start_time : string;
  b_end_time : string;
  b_actual_end_time : option string;
  b_is_active : bool;
  b_is_gap : bool;
  b_input_tokens : Z;
  b_output_tokens : Z;
  b_cache_creation_tokens : Z;
  b_cache_read_tokens : Z;
  b_cost_usd : Q;
  b_models : list string;
  b_burn_rate_tokens_per_minute : option Q;
  b_burn_rate_cost_per_hour : option Q;
  b_projected_total_tokens : option Z;
  b_projected_total_cost : option Q;
  b_remaining_minutes : option Z
}.

(** [l[-1] if l else None] *)
Definition last_of {A} (l : list A) : option A :=
  match rev l with
  | x :: _ => Some x
  | [] => None
  end.

(** [a > b] on floats *)
Definition float_gt (a b : Q) : bool := negb (Qle_bool a b).

(** The five optional fields of a block, [None] until computed. *)
Record projection : Type := mkProjection {
  burn_rate_tokens : option Q;
  burn_rate_cost : option Q;
  projected_tokens : option Z;
  projected_cost : option Q;
  remaining_minutes : option Z
}.

Definition no_projection : projection :=
  mkProjection None None None None None.

(** Burn rate and projections, for active blocks. *)
Definition project_block (end_time now : datetime)
  (entries : list LoadedUsageEntry) (is_active : bool)
  (total_tokens : Z) (cost : Q) : result projection :=
  if (is_active && (1 <? Z.of_nat (List.length entries)))%bool then
    match entries, last_of entries with
    | first_entry :: _, Some last_entry =>
        span <- sub (timestamp last_entry) (timestamp first_entry) ;;
        let duration_minutes := (total_seconds span / 60)%Q in
        if float_gt duration_minutes 0 then
          tokens_rate <- truediv (inject_Z total_tokens) duration_minutes ;;
          cost_per_minute <- truediv cost duration_minutes ;;
          let cost_rate := (cost_per_minute * 60)%Q in      (* per hour *)
          (* project remaining usage *)
          left <- sub end_time now ;;
          let remaining_ms := (total_seconds left * 1000)%Q in
          let remaining :=
            Z.max 0 (int_of_float (remaining_ms / (1000 * 60))%Q) in
          let projected_additional_tokens :=
            (tokens_rate * inject_Z remaining)%Q in
          let projected_additional_cost :=
            (cost_rate / 60 * inject_Z remaining)%Q in
          Ok {| burn_rate_tokens := Some tokens_rate;
                burn_rate_cost := Some cost_rate;
                projected_tokens :=
                  Some (int_of_float
                          (inject_Z total_tokens
                           + projected_additional_tokens)%Q);
                projected_cost :=
                  Some (round2 (cost + projected_additional_cost)%Q);
                remaining_minutes := Some remaining |}
        else Ok no_projection
    | _, _ => Ok no_projection
    end
  else Ok no_projection.

(** Create a session block from entries. *)
Definition _create_block (start_time : datetime)
  (entries : list LoadedUsageEntry) (now : datetime) : result SessionBlock :=
  let session_duration := hours SESSION_DURATION_HOURS in
  let end_time := add start_time session_duration in
  let actual_end_time :=
    match last_of entries with
    | Some last_entry => timestamp last_entry
    | None => start_time
    end in
  (* determine if block is active *)
  idle <- sub now actual_end_time ;;
  is_active <- (if idle <? session_duration then lt now end_time
                else Ok false) ;;
  (* aggregate tokens *)
  let input := sum_int (map input_tokens entries) in
  let output := sum_int (map output_tokens entries) in
  let cache_creation := sum_int (map cache_creation_tokens entries) in
  let cache_read := sum_int (map cache_read_tokens entries) in
  let cost := sum_float (map _calculate_entry_cost entries) in
  p <- project_block end_time now entries is_active
         (input + output + cache_creation + cache_read) cost ;;
  Ok {| b_id := isoformat start_time;
        b_start_time := isoformat start_time;
        b_end_time := isoformat end_time;
        b_actual_end_time := Some (isoformat actual_end_time);
        b_is_active := is_active;
        b_is_gap := false;
        b_input_tokens := input;
        b_output_tokens := output;
        b_cache_creation_tokens := cache_creation;
        b_cache_read_tokens := cache_read;
        b_cost_usd := cost;
        b_models := first_seen (map model entries);
        b_burn_rate_tokens_per_minute := burn_rate_tokens p;
        b_burn_rate_cost_per_hour := burn_rate_cost p;
        b_projected_total_tokens := projected_tokens p;
        b_projected_total_cost := projected_cost p;
        b_remaining_minutes := remaining_minutes p |}.

(** Create a gap block for periods with no activity. *)
Definition _create_gap_block (last_activity next_activity : datetime)
  : result (option SessionBlock) :=
  let session_duration := hours SESSION_DURATION_HOURS in
  gap_duration <- sub next_activity last_activity ;;
  if gap_duration <=? session_duration then Ok None
  else
    let gap_start := add last_activity session_duration in
    let gap_end := next_activity in
    Ok (Some {| b_id := ("gap-" ++ isoformat gap_start)%string;
                b_start_time := isoformat gap_start;
                b_end_time := isoformat gap_end;
                b_actual_end_time := None;
                b_is_active := false;
                b_is_gap := true;
                b_input_tokens := 0;
                b_output_tokens := 0;
                b_cache_creation_tokens := 0;
                b_cache_read_tokens := 0;
                b_cost_usd := 0%Q;
                b_models := [];
                b_burn_rate_tokens_per_minute := None;
                b_burn_rate_cost_per_hour := None;
                b_projected_total_tokens := None;
                b_projected_total_cost := None;
                b_remaining_minutes := None |}).

(** The variables of the loop of [identify_session_blocks]. *)
Record segmenter : Type := mkSegmenter {
  blocks : list SessionBlock;
  current_block_start : option datetime;
  current_block_entries : list LoadedUsageEntry
}.

Definition session_duration_ms : Q :=
  inject_Z (SESSION_DURATION_HOURS * 60 * 60 * 1000).

(** The body of the loop over the sorted entries. *)
Definition segment_entry (now : datetime) (st : segmenter)
  (entry : LoadedUsageEntry) : result segmenter :=
  let entry_time := timestamp entry in
  match current_block_start st with
  | None =>
      (* first entry - start new block *)
      Ok (mkSegmenter (blocks st) (Some (_floor_to_hour entry_time)) [entry])
  | Some start =>
      since_start <- sub entry_time start ;;
      let time_since_start := (total_seconds since_start * 1000)%Q in
      let last_entry := last_of (current_block_entries st) in
      time_since_last <-
        match last_entry with
        | Some le =>
            since_last <- sub entry_time (timestamp le) ;;
            Ok (total_seconds since_last * 1000)%Q
        | None => Ok 0%Q
        end ;;
      if (float_gt time_since_start session_duration_ms
          || float_gt time_since_last session_duration_ms)%bool
      then
        (* close current block *)
        block <- _create_block start (current_block_entries st) now ;;
        let blocks1 := blocks st ++ [block] in
        (* add gap block if there's a significant gap *)
        blocks2 <-
          match last_entry with
          | Some le =>
              if float_gt time_since_last session_duration_ms then
                gap_block <- _create_gap_block (timestamp le) entry_time ;;
                match gap_block with
                | Some g => Ok (blocks1 ++ [g])
                | None => Ok blocks1
                end
              else Ok blocks1
          | None => Ok blocks1
          end ;;
        (* start new block *)
        Ok (mkSegmenter blocks2 (Some (_floor_to_hour entry_time)) [entry])
      else
        (* add to current block *)
        Ok (mkSegmenter (blocks st) (Some start)
              (current_block_entries st ++ [entry]))
  end.

(** Identify 5-hour session blocks from entries; [now] is the reading of
    the clock taken before the loop. *)
Definition identify_session_blocks (entries : list LoadedUsageEntry)
  (now : datetime) : result (list SessionBlock) :=
  match entries with
  | [] => Ok []
  | _ =>
      sorted_entries <- sorted_by_timestamp entries ;;
      st <- foldM (segment_entry now) sorted_entries (mkSegmenter [] None []) ;;
      (* close last block *)
      match current_block_start st, current_block_entries st with
      | Some start, _ :: _ =>
          block <- _create_block start (current_block_entries st) now ;;
          Ok (blocks st ++ [block])
      | _, _ => Ok (blocks st)
      end
  end.

(** *** Public API methods

    The entries are the ones [get_all_usage_entries] returned; no cache
    store is configured, so every answer is computed. *)

Record TokenCounts : Type := mkTokenCounts {
  tc_input_tokens : Z;
  tc_output_tokens : Z;
  tc_cache_creation_tokens : Z;
  tc_cache_read_tokens : Z
}.

Record DailyUsageListResponse : Type := mkDailyResponse {
  dr_data : list DailyUsage;
  dr_totals : TokenCounts;
  dr_total_cost : Q
}.

(** A filter argument is used when it is a non-empty string. *)
Definition given (arg : option string) : option string :=
  match arg with
  | Some (String c r) => Some (String c r)
  | _ => None
  end.

(** The date range filter of [get_daily_usage]. *)
Definition filter_by_date_range (entries : list LoadedUsageEntry)
  (start_date end_date : option string) : result (list LoadedUsageEntry) :=
  entries1 <-
    match given start_date with
    | Some sd =>
        start_dt <- strptime_Ymd sd ;;
        filterM (fun e => ge (timestamp e) start_dt) entries
    | None => Ok entries
    end ;;
  match given end_date with
  | Some ed =>
      parsed <- strptime_Ymd ed ;;
      let end_dt := add parsed (days 1) in
      filterM (fun e => lt (timestamp e) end_dt) entries1
  | None => Ok entries1
  end.

(** Get daily usage breakdown. *)
Definition get_daily_usage (entries : list LoadedUsageEntry)
  (start_date end_date : option string) : result DailyUsageListResponse :=
  selected <- filter_by_date_range entries start_date end_date ;;
  let daily_data := aggregate_by_daily selected in
  Ok {| dr_data := daily_data;
        dr_totals :=
          {| tc_input_tokens := sum_int (map d_input_tokens daily_data);
             tc_output_tokens := sum_int (map d_output_tokens daily_data);
             tc_cache_creation_tokens :=
               sum_int (map d_cache_creation_tokens daily_data);
             tc_cache_read_tokens :=
               sum_int (map d_cache_read_tokens daily_data) |};
        dr_total_cost := sum_float (map d_total_cost daily_data) |}.

Record SessionUsageListResponse : Type := mkSessionResponse {
  sr_data : list SessionUsage;
  sr_totals : TokenCounts;
  sr_total_cost : Q;
  sr_total : Z
}.

(** Get session-based usage breakdown. *)
Definition get_session_usage (entries : list LoadedUsageEntry) (limit : Z)
  : result SessionUsageListResponse :=
  all_sessions <- aggregate_by_session entries ;;
  let total := Z.of_nat (List.length all_sessions) in
  let session_data := slice_to all_sessions limit in
  Ok {| sr_data := session_data;
        sr_totals :=
          {| tc_input_tokens := sum_int (map s_input_tokens session_data);
             tc_output_tokens := sum_int (map s_output_tokens session_data);
             tc_cache_creation_tokens :=
               sum_int (map s_cache_creation_tokens session_data);
             tc_cache_read_tokens :=
               sum_int (map s_cache_read_tokens session_data) |};
        sr_total_cost := sum_float (map s_total_cost session_data);
        sr_total := total |}.

(** *** Overall statistics *)

Record UsageSummary : Type := mkUsageSummary {
  us_total_cost : Q;
  us_total_input_tokens : Z;
  us_total_output_tokens : Z;
  us_total_cache_creation_tokens : Z;
  us_total_cache_read_tokens : Z;
  us_total_tokens : Z;
  us_project_count : Z;
  us_session_count : Z;
  us_models_used : list string;
  us_date_range_start : option string;
  us_date_range_end : option string
}.

(** [min(dates)] and [max(dates)], scanning from [best]. *)
Fixpoint min_datetime (best : datetime) (rest : list datetime)
  : result datetime :=
  match rest with
  | [] => Ok best
  | d :: rest' =>
      b <- DateTime.lt d best ;;
      min_datetime (if b then d else best) rest'
  end.

Fixpoint max_datetime (best : datetime) (rest : list datetime)
  : result datetime :=
  match rest with
  | [] => Ok best
  | d :: rest' =>
      b <- DateTime.gt d best ;;
      max_datetime (if b then d else best) rest'
  end.

(** Get overall usage statistics. *)
Definition get_usage_summary (entries : list LoadedUsageEntry)
  : result UsageSummary :=
  match entries with
  | [] =>
      Ok {| us_total_cost := 0%Q;
            us_total_input_tokens := 0;
            us_total_output_tokens := 0;
            us_total_cache_creation_tokens := 0;
            us_total_cache_read_tokens := 0;
            us_total_tokens := 0;
            us_project_count := 0;
            us_session_count := 0;
            us_models_used := [];
            us_date_range_start := None;
            us_date_range_end := None |}
  | e0 :: rest =>
      (* calculate totals *)
      let total_cost := sum_float (map _calculate_entry_cost entries) in
      let total_input := sum_int (map input_tokens entries) in
      let total_output := sum_int (map output_tokens entries) in
      let total_cache_creation :=
        sum_int (map cache_creation_tokens entries) in
      let total_cache_read := sum_int (map cache_read_tokens entries) in
      let total_tokens :=
        total_input + total_output + total_cache_creation
        + total_cache_read in
      let projects := first_seen (map project_path entries) in
      let sessions := first_seen (map session_key entries) in
      let models := first_seen (map model entries) in
      (* date range *)
      first_date <- min_datetime (timestamp e0) (map timestamp rest) ;;
      last_date <- max_datetime (timestamp e0) (map timestamp rest) ;;
      Ok {| us_total_cost := total_cost;
            us_total_input_tokens := total_input;
            us_total_output_tokens := total_output;
            us_total_cache_creation_tokens := total_cache_creation;
            us_total_cache_read_tokens := total_cache_read;
            us_total_tokens := total_tokens;
            us_project_count := Z.of_nat (List.length projects);
            us_session_count := Z.of_nat (List.length sessions);
            us_models_used := models;
            us_date_range_start := Some (strftime_Ymd first_date);
            us_date_range_end := Some (strftime_Ymd last_date) |}
  end.

(** *** Monthly report *)

Record MonthlyUsageListResponse : Type := mkMonthlyResponse {
  mr_data : list MonthlyUsage;
  mr_totals : TokenCounts;
  mr_total_cost : Q
}.

(** [d.replace(year=y, month=m)] *)
Definition replace_year_month (d : datetime) (y m : Z) : result datetime :=
  midnight <- of_date y m (day d) ;;
  Ok (mkDatetime (wall midnight + wall d mod US_PER_DAY) (utcoffset d)).

(** The month range filter of [get_monthly_usage]. *)
Definition filter_by_month_range (entries : list LoadedUsageEntry)
  (start_month end_month : option string) : result (list LoadedUsageEntry) :=
  entries1 <-
    match given start_month with
    | Some sm =>
        start_dt <- strptime_Ymd (sm ++ "-01") ;;
        filterM (fun e => ge (timestamp e) start_dt) entries
    | None => Ok entries
    end ;;
  match given end_month with
  | Some em =>
      (* end of month: move to next month start *)
      parsed <- strptime_Ymd (em ++ "-01") ;;
      end_dt <-
        (if month parsed =? 12
         then replace_year_month parsed (year parsed + 1) 1
         else replace_year_month parsed (year parsed) (month parsed + 1)) ;;
      filterM (fun e => lt (timestamp e) end_dt) entries1
  | None => Ok entries1
  end.

(** Get monthly usage breakdown. *)
Definition get_monthly_usage (entries : list LoadedUsageEntry)
  (start_month end_month : option string) : result MonthlyUsageListResponse :=
  selected <- filter_by_month_range entries start_month end_month ;;
  let monthly_data := aggregate_by_monthly selected in
  Ok {| mr_data := monthly_data;
        mr_totals :=
          {| tc_input_tokens := sum_int (map mo_input_tokens monthly_data);
             tc_output_tokens := sum_int (map mo_output_tokens monthly_data);
             tc_cache_creation_tokens :=
               sum_int (map mo_cache_creation_tokens monthly_data);
             tc_cache_read_tokens :=
               sum_int (map mo_cache_read_tokens monthly_data) |};
        mr_total_cost := sum_float (map mo_total_cost monthly_data) |}.

(** *** Block report *)

Record BlockUsageListResponse : Type := mkBlockResponse {
  br_data : list SessionBlock;
  br_active_block : option SessionBlock;
  br_totals : TokenCounts;
  br_total_cost : Q
}.

Definition start_time_leb (a b : SessionBlock) : bool :=
  String.leb (b_start_time a) (b_start_time b).

Section BlockReport.

(** [datetime.fromisoformat], as for the loader. *)
Variable fromisoformat : string -> result datetime.

(** Filter blocks to recent ones and active blocks; [now] is the reading
    of the clock the filter takes. *)
Definition _filter_recent_blocks (blocks : list SessionBlock)
  (now : datetime) (days_back : Z) : result (list SessionBlock) :=
  let cutoff := add now (- days days_back) in
  filterM
    (fun block =>
       started <- fromisoformat (b_start_time block) ;;
       recent <- ge started cutoff ;;
       Ok (recent || b_is_active block)%bool)
    blocks.

(** Get 5-hour billing block usage; [now] and [now2] are the readings of
    the clock in [identify_session_blocks] and in the recent filter. *)
Definition get_block_usage (entries : list LoadedUsageEntry)
  (now now2 : datetime) (recent active : bool)
  : result BlockUsageListResponse :=
  identified <- identify_session_blocks entries now ;;
  (* filter *)
  blocks1 <-
    (if recent
     then _filter_recent_blocks identified now2 DEFAULT_RECENT_DAYS
     else Ok identified) ;;
  let blocks2 := if active then filter b_is_active blocks1 else blocks1 in
  (* find active block *)
  let active_block := List.find b_is_active blocks2 in
  (* filter out gap blocks for totals calculation *)
  let non_gap_blocks := filter (fun b => negb (b_is_gap b)) blocks2 in
  Ok {| br_data := sorted_desc start_time_leb blocks2;
        br_active_block := active_block;
        br_totals :=
          {| tc_input_tokens := sum_int (map b_input_tokens non_gap_blocks);
             tc_output_tokens :=
               sum_int (map b_output_tokens non_gap_blocks);
             tc_cache_creation_tokens :=
               sum_int (map b_cache_creation_tokens non_gap_blocks);
             tc_cache_read_tokens :=
               sum_int (map b_cache_read_tokens non_gap_blocks) |};
        br_total_cost := sum_float (map b_cost_usd non_gap_blocks) |}.

End BlockReport.

(** *** Cache management

    The rows of the table [usage_cache]; [cache_key] is unique. The clock
    is read as the microseconds of the UTC wall clock: [datetime.utcnow()]
    is the naive value of that reading, [datetime.now(timezone.utc)] the
    aware one. *)

Section QueryCache.

(** The stored answer, a JSON object. *)
Variable D : Type.

Record UsageCache : Type := mkUsageCache {
  cache_key : string;
  cache_type : string;
  cache_project_path : option string;
  data : D;
  cached_at : datetime
}.

(** [result.scalar_one_or_none()] *)
Definition scalar_one_or_none {A} (rows : list A) : result (option A) :=
  match rows with
  | [] => Ok None
  | [row] => Ok (Some row)
  | _ => Raise MultipleResultsFound
  end.

(** [select(UsageCache).where(UsageCache.cache_key == key)] *)
Definition select_key (rows : list UsageCache) (key : string)
  : list UsageCache :=
  filter (fun row => String.eqb (cache_key row) key) rows.

(** [d.replace(tzinfo=timezone.utc)] *)
Definition replace_tzinfo_utc (d : datetime) : datetime := aware (wall d) 0.

(** Get data from cache if valid. *)
Definition get_from_cache (db : option (list UsageCache)) (clock : Z)
  (key : string) : result (option D) :=
  match db with
  | None => Ok None
  | Some rows =>
      found <- scalar_one_or_none (select_key rows key) ;;
      match found with
      | None => Ok None
      | Some cache_entry =>
          (* check if cache is stale *)
          age <- sub (aware clock 0)
                     (replace_tzinfo_utc (cached_at cache_entry)) ;;
          if age >? minutes CACHE_TTL_MINUTES then Ok None
          else Ok (Some (data cache_entry))
      end
  end.

(** Save data to cache: the rows after the commit. *)
Definition save_to_cache (db : option (list UsageCache)) (clock : Z)
  (key ctype : string) (value : D) (project : option string)
  : result (option (list UsageCache)) :=
  match db with
  | None => Ok None
  | Some rows =>
      (* upsert cache entry *)
      found <- scalar_one_or_none (select_key rows key) ;;
      match found with
      | Some _ =>
          Ok (Some
                (map (fun row =>
                        if String.eqb (cache_key row) key
                        then {| cache_key := cache_key row;
                                cache_type := cache_type row;
                                cache_project_path := cache_project_path row;
                                data := value;
                                cached_at := aware clock 0 |}
                        else row)
                     rows))
      | None =>
          Ok (Some
                (rows ++ [ {| cache_key := key;
                              cache_type := ctype;
                              cache_project_path := project;
                              data := value;
                              cached_at := naive clock |} ]))
      end
  end.

(** The rows a [delete] of [invalidate_cache] removes. *)
Definition invalidated (ctype project : option string) (row : UsageCache)
  : bool :=
  match given ctype with
  | Some t => String.eqb (cache_type row) t
  | None => true
  end
  && match given project with
     | Some p =>
         match cache_project_path row with
         | Some p' => String.eqb p' p
         | None => false
         end
     | None => true
     end.

(** Invalidate cache entries. *)
Definition invalidate_cache (db : option (list UsageCache))
  (ctype project : option string) : option (list UsageCache) :=
  match db with
  | None => None
  | Some rows => Some (filter (fun row => negb (invalidated ctype project row)) rows)
  end.

End QueryCache.

Arguments mkUsageCache {D}.
Arguments cache_key {D}.
Arguments cache_type {D}.
Arguments cache_project_path {D}.
Arguments data {D}.
Arguments cached_at {D}.
Arguments select_key {D}.
Arguments get_from_cache {D}.
Arguments save_to_cache {D}.
Arguments invalidated {D}.
Arguments invalidate_cache {D}.

End UsageService.

Import UsageService.

(* ===================================================================== *)
(** ** session_service.py *)
(* ===================================================================== *)

Module SessionService.

Definition CACHE_TTL_MINUTES : Z := 5.

(** What [Path.stat] reports, and the bytes of the file. *)
Record stat_result : Type := mkStat {
  st_size : Z;
  st_mtime : Q
}.

Record file : Type := mkFileOnDisk {
  f_stat : stat_result;
  f_content : string
}.

(** The files under the projects directory, by path. *)
Definition filesystem : Type := string -> option file.

(** A row of the table [session_cache]. *)
Record SessionCache : Type := mkSessionCache {
  session_id : string;
  project_folder : string;
  project_name : string;
  summary : string;
  modified_at : datetime;
  size_bytes : Z;
  total_messages : Z;
  total_tool_calls : Z;
  cached_at : datetime;
  file_hash : string
}.

Record SessionSummary : Type := mkSessionSummary {
  ss_id : string;
  ss_project_folder : string;
  ss_project_name : string;
  ss_summary : string;
  ss_modified_at : string;
  ss_size_bytes : Z;
  ss_total_messages : Z;
  ss_total_tool_calls : Z
}.

(** [str(n)] of an integer. *)
Definition str_int (n : Z) : string := NilZero.string_of_int (Z.to_int n).

(** [result.scalar_one_or_none()] *)
Definition scalar_one_or_none {A} (rows : list A) : result (option A) :=
  match rows with
  | [] => Ok None
  | [row] => Ok (Some row)
  | _ => Raise MultipleResultsFound
  end.

Section Cache.

(** [hashlib.md5(s.encode()).hexdigest()] and the [str] of a float are
    library code; the cache only needs them to be functions. *)
Variable md5_hexdigest : string -> string.
Variable str_float : Q -> string.

(** The projects directory. *)
Variable projects_dir : string.

(** Calculate file hash for cache invalidation. *)
Definition get_file_hash (fs : filesystem) (filepath : string)
  : result string :=
  match fs filepath with
  | Some f =>
      let st := f_stat f in
      Ok (md5_hexdigest
            (str_int (st_size st) ++ ":" ++ str_float (st_mtime st))%string)
  | None => Raise OSError
  end.

(** [select(SessionCache).where(session_id == ..., project_folder == ...)] *)
Definition select_where (rows : list SessionCache)
  (sid folder : string) : list SessionCache :=
  filter (fun row => String.eqb (session_id row) sid
                     && String.eqb (project_folder row) folder)%bool rows.

Definition session_path (folder sid : string) : string :=
  (projects_dir ++ "/" ++ folder ++ "/" ++ sid ++ ".jsonl")%string.

(** Get session summary from cache if valid. *)
Definition get_cached_summary (db : option (list SessionCache))
  (fs : filesystem) (utcnow : datetime) (sid folder : string)
  : result (option SessionSummary) :=
  match db with
  | None => Ok None
  | Some rows =>
      found <- scalar_one_or_none (select_where rows sid folder) ;;
      match found with
      | None => Ok None
      | Some cache_entry =>
          (* check if cache is stale *)
          age <- sub utcnow (cached_at cache_entry) ;;
          if age >? minutes CACHE_TTL_MINUTES then Ok None
          else
            (* check if file changed *)
            let filepath := session_path folder sid in
            match fs filepath with
            | None => Ok None
            | Some _ =>
                live_hash <- get_file_hash fs filepath ;;
                if negb (String.eqb live_hash (file_hash cache_entry))
                then Ok None
                else
                  Ok (Some
                        {| ss_id := session_id cache_entry;
                           ss_project_folder := project_folder cache_entry;
                           ss_project_name := project_name cache_entry;
                           ss_summary := summary cache_entry;
                           ss_modified_at :=
                             isoformat (modified_at cache_entry);
                           ss_size_bytes := size_bytes cache_entry;
                           ss_total_messages := total_messages cache_entry;
                           ss_total_tool_calls :=
                             total_tool_calls cache_entry |})
            end
      end
  end.

End Cache.

(** *** Saving a summary *)

(** How [save_to_cache] ends when nothing is raised before the commit. *)
Inductive saved : Type :=
| NoStore                                  (* no database session *)
| Committed (rows : list SessionCache)     (* the table after the commit *)
| IntegrityError.                          (* [session_id] is unique *)

Section Upsert.

Variable md5_hexdigest : string -> string.
Variable str_float : Q -> string.

(** [datetime.fromisoformat] *)
Variable fromisoformat : string -> result datetime.

(** Save session summary to cache; [utcnow] is the reading of the clock
    that goes into the row. *)
Definition save_to_cache (db : option (list SessionCache))
  (fs : filesystem) (utcnow : datetime) (s : SessionSummary)
  (filepath : string) : result saved :=
  match db with
  | None => Ok NoStore
  | Some rows =>
      hash <- get_file_hash md5_hexdigest str_float fs filepath ;;
      (* upsert cache entry *)
      found <- scalar_one_or_none
                 (select_where rows (ss_id s) (ss_project_folder s)) ;;
      match found with
      | Some _ =>
          modified <- fromisoformat (ss_modified_at s) ;;
          Ok (Committed
                (map (fun row =>
                        if (String.eqb (session_id row) (ss_id s)
                            && String.eqb (project_folder row)
                                 (ss_project_folder s))%bool
                        then {| session_id := session_id row;
                                project_folder := project_folder row;
                                project_name := project_name row;
                                summary := ss_summary s;
                                modified_at := modified;
                                size_bytes := ss_size_bytes s;
                                total_messages := ss_total_messages s;
                                total_tool_calls := ss_total_tool_calls s;
                                cached_at := utcnow;
                                file_hash := hash |}
                        else row)
                     rows))
      | None =>
          modified <- fromisoformat (ss_modified_at s) ;;
          if existsb (fun row => String.eqb (session_id row) (ss_id s)) rows
          then Ok IntegrityError
          else
            Ok (Committed
                  (rows ++ [ {| session_id := ss_id s;
                                project_folder := ss_project_folder s;
                                project_name := ss_project_name s;
                                summary := ss_summary s;
                                modified_at := modified;
                                size_bytes := ss_size_bytes s;
                                total_messages := ss_total_messages s;
                                total_tool_calls := ss_total_tool_calls s;
                                cached_at := utcnow;
                                file_hash := hash |} ]))
      end
  end.

End Upsert.

(** *** Transcripts

    A decoded line of a transcript is taken to be a JSON object whose
    [message], when present, is an object. *)

Definition PROMPTS_PER_PAGE : Z := 5.

(** A content block: [text] is [block.get("text", "")]. *)
Record block : Type := mkContentBlock {
  blk_is_dict : bool;
  blk_type : option string;
  blk_text : string
}.

(** The value under [content]. *)
Inductive content : Type :=
| Text (s : string)
| Blocks (bs : list block)
| OtherContent (truthy : bool).

Record entry : Type := mkTranscriptEntry {
  e_type : option string;
  e_summary : option string;
  e_isMeta : bool;                       (* the truth value of [isMeta] *)
  e_content : option content;            (* [message.content] *)
  e_timestamp : option string
}.

Definition has_type (obj : entry) (t : string) : bool :=
  match e_type obj with
  | Some t' => String.eqb t' t
  | None => false
  end.

Definition nonempty (s : string) : bool :=
  match s with EmptyString => false | _ => true end.


(** [s[:n] + "..." if len(s) > limit else s] *)
Definition ellipsis (limit : Z) (n : nat) (s : string) : string :=
  if Z.of_nat (String.length s) >? limit
  then (String.substring 0 n s ++ "...")%string
  else s.

Section Transcripts.

(** [str.strip] *)
Variable strip : string -> string.

(** Extract text from content (string or array of blocks). *)
Definition extract_text_from_content (c : content) : string :=
  match c with
  | Text s => strip s
  | Blocks bs =>
      let texts :=
        flat_map
          (fun b =>
             if (blk_is_dict b
                 && match blk_type b with
                    | Some t => String.eqb t "text"
                    | None => false
                    end
                 && nonempty (blk_text b))%bool
             then [blk_text b] else [])
          bs in
      strip (join " " texts)
  | OtherContent _ => EmptyString
  end.




(** The message object [_build_session_message] makes of an entry; its
    fields play no part in what follows. *)
Variable SessionMessage : Type.
Variable _build_session_message : entry -> SessionMessage.

Record SessionConversation : Type := mkConversation {
  user_text : string;
  c_timestamp : string;
  messages : list SessionMessage;
  is_continuation : bool
}.

(** The loop variables of [parse_session_to_conversations]. *)
Record grouping : Type := mkGrouping {
  conversations : list SessionConversation;
  current_convo : option SessionConversation
}.

Definition close_convo (g : grouping) : list SessionConversation :=
  match current_convo g with
  | Some c => conversations g ++ [c]
  | None => conversations g
  end.

Definition group_entry (g : grouping) (obj : entry) : grouping :=
  if (has_type obj "user" && negb (e_isMeta obj))%bool then
    (* start new conversation *)
    let text :=
      extract_text_from_content
        (match e_content obj with Some c => c | None => Text EmptyString end)
    in
    {| conversations := close_convo g;
       current_convo :=
         Some {| user_text := ellipsis 100 100 text;
                 c_timestamp :=
                   match e_timestamp obj with
                   | Some t => t
                   | None => EmptyString
                   end;
                 messages := [_build_session_message obj];
                 is_continuation := false |} |}
  else if has_type obj "assistant" then
    match current_convo g with
    | Some c =>
        (* add assistant response to current conversation *)
        {| conversations := conversations g;
           current_convo :=
             Some {| user_text := user_text c;
                     c_timestamp := c_timestamp c;
                     messages := messages c ++ [_build_session_message obj];
                     is_continuation := is_continuation c |} |}
    | None => g
    end
  else g.

(** Convert JSONL entries to conversation objects. *)
Definition parse_session_to_conversations (entries : list entry)
  : list SessionConversation :=
  close_convo (fold_left group_entry entries (mkGrouping [] None)).

(** The pagination of [get_session_detail]. *)
Definition total_pages (convs : list SessionConversation) : Z :=
  (Z.of_nat (List.length convs) + PROMPTS_PER_PAGE - 1) / PROMPTS_PER_PAGE.

Definition paginated_conversations (convs : list SessionConversation)
  (page : Z) : list SessionConversation :=
  let start_idx := (page - 1) * PROMPTS_PER_PAGE in
  let end_idx := start_idx + PROMPTS_PER_PAGE in
  slice convs start_idx end_idx.

(** [sum(1 for e in entries if e.get("type") in ("user", "assistant"))] *)
Definition count_messages (entries : list entry) : Z :=
  Z.of_nat
    (List.length
       (filter (fun e => has_type e "user" || has_type e "assistant")%bool
          entries)).

End Transcripts.

Arguments mkConversation {SessionMessage}.
Arguments user_text {SessionMessage}.
Arguments c_timestamp {SessionMessage}.
Arguments messages {SessionMessage}.
Arguments is_continuation {SessionMessage}.
Arguments mkGrouping {SessionMessage}.
Arguments conversations {SessionMessage}.
Arguments current_convo {SessionMessage}.
Arguments close_convo {SessionMessage}.
Arguments group_entry strip {SessionMessage}.
Arguments parse_session_to_conversations strip {SessionMessage}.
Arguments total_pages {SessionMessage}.
Arguments paginated_conversations {SessionMessage}.

(** *** Dashboard *)

Record SessionStats : Type := mkSessionStats {
  total_sessions : Z;
  sessions_today : Z;
  sessions_this_week : Z;
  most_active_project : option string;
  stats_total_messages : Z
}.

(** [now.replace(hour=0, minute=0, second=0, microsecond=0)] *)
Definition start_of_day (d : datetime) : datetime :=
  mkDatetime (wall d - wall d mod US_PER_DAY) (utcoffset d).

(** [max(items, key=lambda x: x[1])]: the first of the largest. *)
Fixpoint max_by_count (best : string * Z) (rest : list (string * Z))
  : string * Z :=
  match rest with
  | [] => best
  | item :: rest' =>
      max_by_count (if snd item >? snd best then item else best) rest'
  end.

(** [project_counts], filled in the order of the sessions. *)
Definition project_counts (sessions : list SessionSummary) : dict Z :=
  fold_left
    (fun counts s => update 0 (fun n => n + 1) counts (ss_project_name s))
    sessions [].

Section Dashboard.

Variable fromisoformat : string -> result datetime.

(** [sum(1 for s in sessions if fromisoformat(s.modified_at) >= bound)] *)
Definition count_since (sessions : list SessionSummary) (bound : datetime)
  : result Z :=
  kept <- filterM
            (fun s =>
               modified <- fromisoformat (ss_modified_at s) ;;
               ge modified bound)
            sessions ;;
  Ok (Z.of_nat (List.length kept)).

(** Get session statistics for dashboard, from the answer of
    [list_sessions] and the reading of the clock. *)
Definition get_dashboard_stats (sessions : list SessionSummary) (total : Z)
  (now : datetime) : result SessionStats :=
  let today_start := start_of_day now in
  let week_start := add today_start (- days 7) in
  today <- count_since sessions today_start ;;
  this_week <- count_since sessions week_start ;;
  (* most active project *)
  let most_active :=
    match project_counts sessions with
    | [] => None
    | item :: rest => Some (fst (max_by_count item rest))
    end in
  Ok {| total_sessions := total;
        sessions_today := today;
        sessions_this_week := this_week;
        most_active_project := most_active;
        stats_total_messages := sum_int (map ss_total_messages sessions) |}.

End Dashboard.

End SessionService.

Import PricingService.

(* ===================================================================== *)
(** ** Vocabulary of the statements *)
(* ===================================================================== *)

(** A rate that is absent from a pricing table bills nothing. *)
Definition rate_or_zero (rate : option Q) : Q :=
  match rate with
  | Some r => r
  | None => 0%Q
  end.

(** The cost of one token category under a pricing table. *)
Definition category_cost (p : pricing) (tokens : Z) (base tiered : string)
  : Q :=
  calculate_tiered_cost tokens (get p base) (get p tiered) TIERED_THRESHOLD.

(** [k in ks] *)
Definition mem (k : string) (ks : list string) : bool :=
  existsb (String.eqb k) ks.

(** The entries of the partition with key [k], in their original order. *)
Definition partition_of (key : LoadedUsageEntry -> string) (k : string)
  (entries : list LoadedUsageEntry) : list LoadedUsageEntry :=
  filter (fun e => String.eqb (key e) k) entries.

(** A list of names in ascending order. *)
Fixpoint sorted_by_name (l : list string) : bool :=
  match l with
  | a :: (b :: _) as rest => String.leb a b && sorted_by_name rest
  | _ => true
  end.

(** All timestamps of one kind: all naive or all aware. *)
Definition uniform (entries : list LoadedUsageEntry) : Prop :=
  forall a b, In a entries -> In b entries ->
              same_kind (timestamp a) (timestamp b) = true.

(** An entry with input tokens only, no precomputed cost. *)
Definition input_only (t : datetime) (tokens : Z) (m sid : string)
  : LoadedUsageEntry :=
  {| timestamp := t; input_tokens := tokens; output_tokens := 0;
     cache_creation_tokens := 0; cache_read_tokens := 0; cost_usd := None;
     model := m; session_id := Some sid; version := None;
     project_path := "-home-dev-app" |}.

(** A UTC reading of the clock. *)
Definition utc (y m d hh mm : Z) : datetime :=
  aware (days_from_civil y m d * US_PER_DAY + hours hh + minutes mm) 0.

(** The sum of the costs of the entries, each computed on its own. *)
Definition entry_costs (es : list LoadedUsageEntry) : Q :=
  sum_float (map _calculate_entry_cost es).

(** The nominal end of a block: its start plus five hours. *)
Definition block_end (start : datetime) : datetime :=
  add start (hours SESSION_DURATION_HOURS).

(** The time of the last entry observed in a block. *)
Definition block_last (start : datetime) (entries : list LoadedUsageEntry)
  : datetime :=
  match last_of entries with
  | Some e => timestamp e
  | None => start
  end.

(** The four token sums of a block, added up. *)
Definition block_tokens (entries : list LoadedUsageEntry) : Z :=
  sum_int (map input_tokens entries) + sum_int (map output_tokens entries)
  + sum_int (map cache_creation_tokens entries)
  + sum_int (map cache_read_tokens entries).

(** The time of the first entry of a block. *)
Definition block_first (start : datetime) (entries : list LoadedUsageEntry)
  : datetime :=
  match entries with
  | e :: _ => timestamp e
  | [] => start
  end.



(** The condition under which a projection is computed. *)
Definition projects (start : datetime) (entries : list LoadedUsageEntry)
  (active : bool) : Prop :=
  active = true
  /\ (2 <= List.length entries)%nat
  /\ instant (block_first start entries) < instant (block_last start entries).

(** Two entries three minutes apart, 50 input tokens each, in the block
    that starts at 10:00 on 2 June 2025. *)
Definition two_entries : list LoadedUsageEntry :=
  [ input_only (utc 2025 6 2 10 0) 50 "claude-opus-4-20250514" "s1";
    input_only (utc 2025 6 2 10 3) 50 "claude-opus-4-20250514" "s1" ].

(** *** The segmenter of the specification

    A state machine over the sorted entries, with durations counted in
    microseconds: no block is open, or a block with its floored start and
    its entries is open. An entry that comes more than five hours after the
    start of the open block, or more than five hours after its last entry,
    closes the block; in the second case an idle period is recorded from
    five hours after that last entry to the new entry. At the end of the
    input the open block is closed. *)

Inductive segment : Type :=
| Activity (start : datetime) (es : list LoadedUsageEntry)
| Idle (from to : datetime).

Definition spec_state : Type := option (datetime * list LoadedUsageEntry).

Definition spec_step (st : spec_state) (e : LoadedUsageEntry)
  : list segment * spec_state :=
  let opened := Some (floor_hour (timestamp e), [e]) in
  match st with
  | None => ([], opened)
  | Some (start, es) =>
      let prev := block_last start es in
      let since_start := instant (timestamp e) - instant start in
      let since_last := instant (timestamp e) - instant prev in
      if (hours 5 <? since_start) || (hours 5 <? since_last) then
        (Activity start es
           :: (if hours 5 <? since_last
               then [Idle (add prev (hours 5)) (timestamp e)]
               else []),
         opened)
      else ([], Some (start, es ++ [e]))
  end.

Fixpoint spec_fold (st : spec_state) (entries : list LoadedUsageEntry)
  : list segment * spec_state :=
  match entries with
  | [] => ([], st)
  | e :: rest =>
      let '(out, st1) := spec_step st e in
      let '(out', st2) := spec_fold st1 rest in
      (out ++ out', st2)
  end.

Definition spec_close (st : spec_state) : list segment :=
  match st with
  | Some (start, es) => [Activity start es]
  | None => []
  end.

Definition spec_segments (sorted_entries : list LoadedUsageEntry)
  : list segment :=
  let '(out, st) := spec_fold None sorted_entries in
  out ++ spec_close st.

(** What it means for a block of the code to render a segment. *)
Definition renders (now : datetime) (seg : segment) (b : SessionBlock)
  : Prop :=
  match seg with
  | Activity start es =>
      _create_block start es now = Ok b
      /\ b_is_gap b = false
      /\ b_start_time b = isoformat start
      /\ b_end_time b = isoformat (add start (hours 5))
      /\ b_actual_end_time b = Some (isoformat (block_last start es))
  | Idle from to =>
      b_is_gap b = true
      /\ b_is_active b = false
      /\ b_id b = ("gap-" ++ isoformat from)%string
      /\ b_start_time b = isoformat from
      /\ b_end_time b = isoformat to
      /\ b_actual_end_time b = None
      /\ (b_input_tokens b, b_output_tokens b,
          b_cache_creation_tokens b, b_cache_read_tokens b) = (0, 0, 0, 0)
      /\ b_cost_usd b = 0%Q
      /\ b_models b = []
  end.

(** The loop variables of the code hold the state of the specification. *)
Definition agrees (now : datetime) (st : segmenter) (sp : spec_state)
  : Prop :=
  match sp with
  | None => current_block_start st = None
  | Some (start, es) =>
      current_block_start st = Some start
      /\ current_block_entries st = es
      /\ es <> []
      /\ same_kind now start = true
      /\ Forall (fun e => same_kind_as now e = true) es
  end.

(** Entries at 00:00, 04:00 and 10:00 UTC on 15 January 2025. *)
Definition three_entries : list LoadedUsageEntry :=
  [ input_only (utc 2025 1 15 0 0) 100 "claude-opus-4-20250514" "s1";
    input_only (utc 2025 1 15 4 0) 100 "claude-opus-4-20250514" "s1";
    input_only (utc 2025 1 15 10 0) 100 "claude-opus-4-20250514" "s1" ].

(** A log entry of 15 January 2025, 10:00 UTC, with the timestamp the
    loader builds from the text of the log line. *)
Definition logged_entry : result LoadedUsageEntry :=
  ts <- fromisoformat_basic (replace_Z "2025-01-15T10:00:00.000Z") ;;
  Ok (input_only ts 50 "claude-opus-4-20250514" "s1").

(** The bounds of a date range, as instants of naive midnights. *)
Definition in_date_range (start_dt end_dt : datetime) (e : LoadedUsageEntry)
  : bool :=
  (instant start_dt <=? instant (timestamp e))
  && (instant (timestamp e) <? instant end_dt + days 1).

(** *** The per-session cache *)

(** The hash of a file as [get_file_hash] computes it. *)
Definition stat_hash (md5_hexdigest : string -> string)
  (str_float : Q -> string) (f : SessionService.file) : string :=
  md5_hexdigest
    (SessionService.str_int (SessionService.st_size (SessionService.f_stat f))
     ++ ":"
     ++ str_float (SessionService.st_mtime (SessionService.f_stat f)))%string.

(** The entry is within its time to live. *)
Definition fresh (utcnow : datetime) (c : SessionService.SessionCache)
  : Prop :=
  instant utcnow - instant (SessionService.cached_at c) <= minutes 5.

(** The source file exists and hashes to the stored hash. *)
Definition unchanged (md5_hexdigest : string -> string)
  (str_float : Q -> string) (projects_dir : string)
  (fs : SessionService.filesystem) (folder sid : string)
  (c : SessionService.SessionCache) : Prop :=
  exists f,
    fs (SessionService.session_path projects_dir folder sid) = Some f
    /\ stat_hash md5_hexdigest str_float f = SessionService.file_hash c.

(** A cache row written at 10:00, for a file of 120 bytes; the stand-ins
    for the digest and for the text of the modification time are enough to
    run the cache. *)
Definition sample_digest (s : string) : string := ("md5:" ++ s)%string.
Definition sample_str_float (mtime : Q) : string :=
  (SessionService.str_int (Qfloor mtime) ++ ".0")%string.

Definition sample_row : SessionService.SessionCache :=
  {| SessionService.session_id := "s1"%string;
     SessionService.project_folder := "-home-dev-app"%string;
     SessionService.project_name := "app"%string;
     SessionService.summary := "Fix the login form"%string;
     SessionService.modified_at := naive (wall (utc 2025 1 15 9 59));
     SessionService.size_bytes := 120;
     SessionService.total_messages := 4;
     SessionService.total_tool_calls := 1;
     SessionService.cached_at := naive (wall (utc 2025 1 15 10 0));
     SessionService.file_hash := "md5:120:1736935140.0"%string |}.

Definition sample_fs : SessionService.filesystem :=
  fun path =>
    if String.eqb path "/home/dev/.claude/projects/-home-dev-app/s1.jsonl"
    then Some {| SessionService.f_stat :=
                   {| SessionService.st_size := 120;
                      SessionService.st_mtime := 1736935140 |};
                 SessionService.f_content := "{}"%string |}
    else None.

(** Three sessions of one project, on three days. *)
Definition three_sessions : list LoadedUsageEntry :=
  [ input_only (utc 2025 6 1 9 0) 10 "claude-opus-4-20250514" "s1";
    input_only (utc 2025 6 2 9 0) 20 "claude-opus-4-20250514" "s2";
    input_only (utc 2025 6 3 9 0) 40 "claude-opus-4-20250514" "s3";
    input_only (utc 2025 6 3 9 5) 80 "claude-opus-4-20250514" "s1" ].

(** A record of an assistant message without any token, and one with. *)
Definition record_with (input output : Z) : line :=
  Object
    {| o_type := Some "assistant"%string;
       o_message :=
         Some {| m_model := Some "claude-opus-4-20250514"%string;
                 m_usage := Some [ ("input_tokens"%string, input);
                                   ("output_tokens"%string, output) ] |};
       o_timestamp := Some "2025-01-15T10:00:00.000Z"%string;
       o_costUSD := None;
       o_sessionId := Some "s1"%string;
       o_version := Some "1.0.3"%string |}.

(** The [usage] object of a record, empty when absent. *)
Definition record_usage (obj : log_object) : dict Z :=
  match o_message obj with
  | Some m => match m_usage m with Some u => u | None => [] end
  | None => []
  end.

(** The four token counts of a record, as the loader reads them. *)
Definition record_counts (obj : log_object) : Z * Z * Z * Z :=
  let u := record_usage obj in
  (get_or u "input_tokens" 0, get_or u "output_tokens" 0,
   get_or u "cache_creation_input_tokens" 0,
   get_or u "cache_read_input_tokens" 0).

Definition entry_counts (e : LoadedUsageEntry) : Z * Z * Z * Z :=
  (input_tokens e, output_tokens e,
   cache_creation_tokens e, cache_read_tokens e).

(** A line that holds a record whose four token counts are all zero. *)
Definition zero_token_record (l : line) : Prop :=
  exists obj, l = Object obj /\ record_counts obj = (0, 0, 0, 0).

(** *** Pricing tables *)

(** A base rate is not negative and the rate above the threshold, when
    there is one, is not below it. *)
Definition rate_pair_ok (p : pricing) (base tiered : string) : bool :=
  Qle_bool 0 (rate_or_zero (get p base))
  && match get p tiered with
     | Some tp => Qle_bool (rate_or_zero (get p base)) tp
     | None => true
     end.

Definition rates_ok (p : pricing) : bool :=
  rate_pair_ok p "input" "input_above_200k"
  && rate_pair_ok p "output" "output_above_200k"
  && rate_pair_ok p "cache_creation" "cache_creation_above_200k"
  && rate_pair_ok p "cache_read" "cache_read_above_200k".

(** *** Loaded entries *)

(** Entries in ascending order of their timestamps. *)
Definition ascending (es : list LoadedUsageEntry) : Prop :=
  StronglySorted
    (fun a b => instant (timestamp a) <= instant (timestamp b)) es.

(** A record of an assistant message with the given timestamp and input
    tokens, without a session id. *)
Definition record_at (ts : string) (input : Z) : line :=
  Object
    {| o_type := Some "assistant"%string;
       o_message :=
         Some {| m_model := Some "claude-opus-4-20250514"%string;
                 m_usage := Some [ ("input_tokens"%string, input) ] |};
       o_timestamp := Some ts;
       o_costUSD := None;
       o_sessionId := None;
       o_version := None |}.

(** Two files of one project: the later record comes first. *)
Definition two_files : list jsonl_file :=
  [ {| parent_name := "-home-dev-app"; stem := "b";
       lines := Some [ record_at "2025-01-15T12:00:00.000Z" 7 ] |};
    {| parent_name := "-home-dev-app"; stem := "a";
       lines := Some [ Blank; record_at "2025-01-15T10:00:00.000Z" 5 ] |} ].

(** *** Reports *)

(** The four token sums of a list of entries. *)
Definition token_totals (es : list LoadedUsageEntry) : TokenCounts :=
  {| tc_input_tokens := sum_int (map input_tokens es);
     tc_output_tokens := sum_int (map output_tokens es);
     tc_cache_creation_tokens := sum_int (map cache_creation_tokens es);
     tc_cache_read_tokens := sum_int (map cache_read_tokens es) |}.

(** Rows whose keys strictly decrease in the order of strings: no key
    comes twice. *)
Definition newest_first {R} (key : R -> string) (rows : list R) : Prop :=
  StronglySorted (fun a b => String.ltb (key b) (key a) = true) rows.

(** Rows whose keys never increase. *)
Definition latest_first {R} (key : R -> string) (rows : list R) : Prop :=
  StronglySorted (fun a b => String.leb (key b) (key a) = true) rows.

(** The entries of one session of one project. *)
Definition session_entries (project : string) (session : option string)
  (entries : list LoadedUsageEntry) : list LoadedUsageEntry :=
  filter (fun e => String.eqb (project_path e) project
                   && String.eqb (str_of (session_id e)) (str_of session))
    entries.

(** No project name holds a colon. *)
Definition colon_free (entries : list LoadedUsageEntry) : Prop :=
  Forall (fun e => contains ":" (project_path e) = false) entries.

(** *** Blocks *)

(** The entries a segment holds. *)
Definition segment_entries (seg : segment) : list LoadedUsageEntry :=
  match seg with
  | Activity _ es => es
  | Idle _ _ => []
  end.

(** The entries of the block that is open. *)
Definition open_entries (st : spec_state) : list LoadedUsageEntry :=
  match st with
  | Some (_, es) => es
  | None => []
  end.

(** No entry is later than the reading of the clock. *)
Definition not_after (now : datetime) (entries : list LoadedUsageEntry)
  : Prop :=
  Forall (fun e => instant (timestamp e) <= instant now) entries.

(** A block that a later entry closed, seen from a clock that is not
    before that entry: its nominal end or its idle limit has passed. *)
Definition closed_before (now : datetime) (seg : segment) : Prop :=
  match seg with
  | Activity start es =>
      hours 5 < instant now - instant start
      \/ hours 5 < instant now - instant (block_last start es)
  | Idle _ _ => True
  end.

(** A sequence of blocks in which every gap follows a block of activity
    and is followed by one. *)
Inductive gaps_enclosed : list bool -> Prop :=
| enclosed_nil : gaps_enclosed []
| enclosed_last : gaps_enclosed [false]
| enclosed_activity (l : list bool) :
    gaps_enclosed (false :: l) -> gaps_enclosed (false :: false :: l)
| enclosed_gap (l : list bool) :
    gaps_enclosed (false :: l) -> gaps_enclosed (false :: true :: false :: l).

Definition segment_is_gap (seg : segment) : bool :=
  match seg with
  | Activity _ _ => false
  | Idle _ _ => true
  end.

(** *** Date ranges *)

(** Naive entries at 23:59 on 14 January, at noon on 15 January and at
    00:00 on 16 January 2025. *)
Definition naive_entries : list LoadedUsageEntry :=
  [ input_only (naive (wall (utc 2025 1 14 23 59))) 1
      "claude-opus-4-20250514" "s1";
    input_only (naive (wall (utc 2025 1 15 12 0))) 10
      "claude-opus-4-20250514" "s1";
    input_only (naive (wall (utc 2025 1 16 0 0))) 100
      "claude-opus-4-20250514" "s1" ].

(** *** The query cache *)

(** Two cached answers, written when the clock read 0. *)
Definition sample_usage_rows : list (UsageCache string) :=
  [ {| cache_key := "daily"; cache_type := "daily";
       cache_project_path := None; data := "old";
       cached_at := naive 0 |};
    {| cache_key := "summary:project:app"; cache_type := "summary";
       cache_project_path := Some "app"; data := "s";
       cached_at := naive 0 |} ]%string.

(** The row an update of the usage service's [save_to_cache] writes in
    the place of [row]. *)
Definition refreshed_row {D} (clock : Z) (key : string) (value : D)
  (row : UsageCache D) : UsageCache D :=
  if String.eqb (cache_key row) key
  then {| cache_key := cache_key row;
          cache_type := cache_type row;
          cache_project_path := cache_project_path row;
          data := value;
          cached_at := aware clock 0 |}
  else row.

(** *** Session summaries and transcripts *)

(** The summary of the session behind [sample_row], as a listing builds
    it. *)
Definition sample_summary : SessionService.SessionSummary :=
  {| SessionService.ss_id := "s1"%string;
     SessionService.ss_project_folder := "-home-dev-app"%string;
     SessionService.ss_project_name := "dev/app"%string;
     SessionService.ss_summary := "Fix the login form again"%string;
     SessionService.ss_modified_at := "2025-01-15T09:59:00"%string;
     SessionService.ss_size_bytes := 120;
     SessionService.ss_total_messages := 6;
     SessionService.ss_total_tool_calls := 2 |}.

(** An entry that opens a conversation: a user message that is not meta. *)
Definition opens_conversation (obj : SessionService.entry) : bool :=
  SessionService.has_type obj "user" && negb (SessionService.e_isMeta obj).

(** The number of sessions of a project in a listing. *)
Definition sessions_of (name : string)
  (sessions : list SessionService.SessionSummary) : Z :=
  Z.of_nat
    (List.length
       (filter (fun s => String.eqb (SessionService.ss_project_name s) name)
          sessions)).

(** A user prompt and an assistant answer. *)
Definition sample_transcript : list SessionService.entry :=
  [ {| SessionService.e_type := Some "summary"%string;
       SessionService.e_summary := None;
       SessionService.e_isMeta := false;
       SessionService.e_content := None;
       SessionService.e_timestamp := None |};
    {| SessionService.e_type := Some "user"%string;
       SessionService.e_summary := None;
       SessionService.e_isMeta := false;
       SessionService.e_content :=
         Some (SessionService.Text "Fix the login form"%string);
       SessionService.e_timestamp := Some "2025-01-15T09:58:00Z"%string |};
    {| SessionService.e_type := Some "assistant"%string;
       SessionService.e_summary := None;
       SessionService.e_isMeta := false;
       SessionService.e_content := Some (SessionService.Blocks []);
       SessionService.e_timestamp := Some "2025-01-15T09:59:00Z"%string |} ].

(** Two sessions of one project and one of another, modified on 15 and on
    10 January 2025. *)
Definition sample_listing : list SessionService.SessionSummary :=
  [ sample_summary;
    {| SessionService.ss_id := "s2"%string;
       SessionService.ss_project_folder := "-home-dev-web"%string;
       SessionService.ss_project_name := "dev/web"%string;
       SessionService.ss_summary := "(no summary)"%string;
       SessionService.ss_modified_at := "2025-01-10T08:00:00"%string;
       SessionService.ss_size_bytes := 10;
       SessionService.ss_total_messages := 1;
       SessionService.ss_total_tool_calls := 0 |};
    {| SessionService.ss_id := "s3"%string;
       SessionService.ss_project_folder := "-home-dev-app"%string;
       SessionService.ss_project_name := "dev/app"%string;
       SessionService.ss_summary := "(no summary)"%string;
       SessionService.ss_modified_at := "2025-01-15T07:00:00"%string;
       SessionService.ss_size_bytes := 10;
       SessionService.ss_total_messages := 2;
       SessionService.ss_total_tool_calls := 0 |} ].

(** The row an update of the session service's [save_to_cache] writes in
    the place of [row]. *)
Definition refreshed_session (utcnow modified : datetime) (hash : string)
  (s : SessionService.SessionSummary) (row : SessionService.SessionCache)
  : SessionService.SessionCache :=
  if (String.eqb (SessionService.session_id row) (SessionService.ss_id s)
      && String.eqb (SessionService.project_folder row)
           (SessionService.ss_project_folder s))%bool
  then {| SessionService.session_id := SessionService.session_id row;
          SessionService.project_folder := SessionService.project_folder row;
          SessionService.project_name := SessionService.project_name row;
          SessionService.summary := SessionService.ss_summary s;
          SessionService.modified_at := modified;
          SessionService.size_bytes := SessionService.ss_size_bytes s;
          SessionService.total_messages :=
            SessionService.ss_total_messages s;
          SessionService.total_tool_calls :=
            SessionService.ss_total_tool_calls s;
          SessionService.cached_at := utcnow;
          SessionService.file_hash := hash |}
  else row.

(** A conversation as [parse_session_to_conversations] builds them. *)
Definition well_formed {M} (c : SessionService.SessionConversation M)
  : Prop :=
  SessionService.messages c <> []
  /\ (String.length (SessionService.user_text c) <= 103)%nat
  /\ SessionService.is_continuation c = false.

(** The number of messages in a list of conversations. *)
Definition message_count {M}
  (cs : list (SessionService.SessionConversation M)) : nat :=
  List.length (flat_map SessionService.messages cs).

(** An entry that [count_messages] counts. *)
Definition is_message (obj : SessionService.entry) : bool :=
  SessionService.has_type obj "user"
  || SessionService.has_type obj "assistant".

(* ===================================================================== *)
(** ** Facts about the run-time support *)
(* ===================================================================== *)

Section SortFacts.

Context {A : Type} (leb : A -> A -> bool).

Lemma insert_desc_perm (x : A) (l : list A) :
  Permutation (insert_desc leb x l) (x :: l).
Proof.
  induction l as [| y l IH]; simpl.
  - apply Permutation_refl.
  - destruct (leb y x).
    + apply Permutation_refl.
    + eapply perm_trans; [apply perm_skip, IH | apply perm_swap].
Qed.

Lemma sorted_desc_perm (l : list A) : Permutation (sorted_desc leb l) l.
Proof.
  induction l as [| x l IH]; simpl.
  - constructor.
  - eapply perm_trans; [apply insert_desc_perm | now apply perm_skip].
Qed.

Lemma sorted_desc_In (x : A) (l : list A) :
  In x (sorted_desc leb l) <-> In x l.
Proof.
  split; apply Permutation_in;
    [apply sorted_desc_perm | apply Permutation_sym, sorted_desc_perm].
Qed.

Lemma sorted_desc_length (l : list A) :
  List.length (sorted_desc leb l) = List.length l.
Proof. apply Permutation_length, sorted_desc_perm. Qed.

Lemma insert_asc_perm (x : A) (l : list A) :
  Permutation (insert_asc leb x l) (x :: l).
Proof.
  induction l as [| y l IH]; simpl.
  - apply Permutation_refl.
  - destruct (leb x y).
    + apply Permutation_refl.
    + eapply perm_trans; [apply perm_skip, IH | apply perm_swap].
Qed.

Lemma sorted_asc_perm (l : list A) : Permutation (sorted_asc leb l) l.
Proof.
  induction l as [| x l IH]; simpl.
  - constructor.
  - eapply perm_trans; [apply insert_asc_perm | now apply perm_skip].
Qed.

End SortFacts.

Section MonadFacts.

Context {A B : Type}.

Lemma mapM_ok (f : A -> result B) (xs : list A) (ys : list B) :
  mapM f xs = Ok ys -> Forall2 (fun x y => f x = Ok y) xs ys.
Proof.
  revert ys. induction xs as [| x xs IH]; simpl; intros ys H.
  - injection H as <-. constructor.
  - destruct (f x) as [y | ex] eqn:Hx; simpl in H; [| discriminate].
    destruct (mapM f xs) as [ys' | ex]; simpl in H; [| discriminate].
    injection H as <-. constructor; [exact Hx | now apply IH].
Qed.

Lemma Forall2_In_r (R : A -> B -> Prop) (xs : list A) (ys : list B)
  (y : B) :
  Forall2 R xs ys -> In y ys -> exists x, In x xs /\ R x y.
Proof.
  induction 1 as [| x y' xs ys Hxy _ IH]; simpl; [contradiction |].
  intros [<- | Hin].
  - exists x. auto.
  - destruct (IH Hin) as (x' & Hx' & HR). exists x'. auto.
Qed.

Lemma Forall2_In_l (R : A -> B -> Prop) (xs : list A) (ys : list B)
  (x : A) :
  Forall2 R xs ys -> In x xs -> exists y, In y ys /\ R x y.
Proof.
  induction 1 as [| x' y xs ys Hxy _ IH]; simpl; [contradiction |].
  intros [<- | Hin].
  - exists y. auto.
  - destruct (IH Hin) as (y' & Hy' & HR). exists y'. auto.
Qed.

Lemma mapM_total (f : A -> result B) (xs : list A) :
  Forall (fun x => exists y, f x = Ok y) xs -> exists ys, mapM f xs = Ok ys.
Proof.
  induction 1 as [| x xs (y & Hy) _ (ys & Hys)]; simpl.
  - now exists [].
  - rewrite Hy, Hys. simpl. now exists (y :: ys).
Qed.

Lemma filterM_ok (p : A -> bool) (q : A -> result bool) (xs : list A) :
  Forall (fun x => q x = Ok (p x)) xs -> filterM q xs = Ok (filter p xs).
Proof.
  induction 1 as [| x xs Hx _ IH]; simpl.
  - reflexivity.
  - rewrite Hx, IH. reflexivity.
Qed.

Lemma filterM_raise (q : A -> result bool) (e : exn) (xs : list A) :
  xs <> [] -> (forall x, q x = Raise e) -> filterM q xs = Raise e.
Proof.
  intros Hne Hq. destruct xs as [| x xs]; [congruence |].
  simpl. now rewrite Hq.
Qed.

End MonadFacts.

Section DictFacts.

Context {V : Type} (dflt : V).

Lemma mem_In (k : string) (ks : list string) : mem k ks = true <-> In k ks.
Proof.
  unfold mem. rewrite existsb_exists. split.
  - intros (x & Hin & Heq). apply String.eqb_eq in Heq. now subst.
  - intros Hin. exists k. split; [exact Hin | apply String.eqb_refl].
Qed.

Lemma get_update (f : V -> V) (d : dict V) (k k' : string) :
  get (update dflt f d k) k'
  = if String.eqb k k'
    then Some (f match get d k with Some v => v | None => dflt end)
    else get d k'.
Proof.
  induction d as [| [k0 v0] d IH]; simpl.
  - destruct (String.eqb k k'); reflexivity.
  - destruct (String.eqb_spec k0 k) as [-> | Hne]; simpl.
    + destruct (String.eqb k k'); reflexivity.
    + rewrite IH. destruct (String.eqb_spec k k') as [Heq | Hne'].
      * subst k'. apply String.eqb_neq in Hne. now rewrite Hne.
      * reflexivity.
Qed.

Lemma keys_update (f : V -> V) (d : dict V) (k : string) :
  keys (update dflt f d k)
  = if mem k (keys d) then keys d else keys d ++ [k].
Proof.
  unfold keys, mem. induction d as [| [k0 v0] d IH]; simpl.
  - reflexivity.
  - rewrite (String.eqb_sym k k0).
    destruct (String.eqb k0 k); simpl; [reflexivity |].
    rewrite IH. now destruct (existsb _ _).
Qed.

Lemma get_In (d : dict V) (k : string) (v : V) :
  NoDup (keys d) -> In (k, v) d -> get d k = Some v.
Proof.
  unfold keys. induction d as [| [k0 v0] d IH]; simpl; intros Hnd Hin.
  - contradiction.
  - inversion Hnd as [| ? ? Hnotin Hnd']; subst.
    destruct Hin as [Heq | Hin].
    + injection Heq as -> ->. now rewrite String.eqb_refl.
    + destruct (String.eqb_spec k0 k) as [-> | Hne].
      * exfalso. apply Hnotin. now apply (in_map fst) in Hin.
      * now apply IH.
Qed.

Lemma In_get (d : dict V) (k : string) (v : V) :
  get d k = Some v -> In (k, v) d.
Proof.
  induction d as [| [k0 v0] d IH]; simpl; intros H.
  - discriminate.
  - destruct (String.eqb_spec k0 k) as [-> | Hne].
    + injection H as ->. now left.
    + right. now apply IH.
Qed.

End DictFacts.

Lemma filter_twice {A} (p q : A -> bool) (l : list A) :
  filter p (filter q l) = filter (fun x => q x && p x)%bool l.
Proof.
  induction l as [| x l IH]; simpl; [reflexivity |].
  destruct (q x); simpl; [destruct (p x) |]; now rewrite IH.
Qed.

Lemma first_seen_In (k : string) (l : list string) :
  In k (first_seen l) <-> In k l.
Proof.
  induction l as [| x l IH]; simpl; [tauto |].
  rewrite filter_In, IH.
  destruct (String.eqb_spec x k) as [-> | Hne]; simpl.
  - tauto.
  - split; [tauto |]. intros [Heq | Hin]; [contradiction | tauto].
Qed.

Lemma first_seen_NoDup (l : list string) : NoDup (first_seen l).
Proof.
  induction l as [| x l IH]; simpl; constructor.
  - rewrite filter_In. intros [_ Hx]. now rewrite String.eqb_refl in Hx.
  - now apply NoDup_filter.
Qed.

Section FoldFacts.

Context {E V : Type} (dflt : V) (g : E -> V -> V) (key : E -> string).

(** The keys of a dictionary filled in a loop come in the order in which
    they were first met. *)
Lemma keys_fold_left (es : list E) (d : dict V) :
  keys (fold_left (fun d e => update dflt (g e) d (key e)) es d)
  = keys d
    ++ filter (fun k => negb (mem k (keys d))) (first_seen (map key es)).
Proof.
  revert d. induction es as [| e es IH]; intros d; simpl.
  - now rewrite app_nil_r.
  - rewrite IH, keys_update.
    destruct (mem (key e) (keys d)) eqn:Hmem; simpl.
    + f_equal. rewrite filter_twice. apply filter_ext_in. intros k _.
      destruct (String.eqb_spec (key e) k) as [<- | Hne]; simpl.
      * now rewrite Hmem.
      * reflexivity.
    + rewrite <- app_assoc. simpl. do 2 f_equal.
      rewrite filter_twice. apply filter_ext. intros k.
      unfold mem. rewrite existsb_app. simpl.
      rewrite (String.eqb_sym k (key e)), orb_false_r, negb_orb.
      apply andb_comm.
Qed.

Lemma keys_fold_left_nil (es : list E) :
  keys (fold_left (fun d e => update dflt (g e) d (key e)) es [])
  = first_seen (map key es).
Proof.
  rewrite keys_fold_left. simpl.
  induction (first_seen (map key es)) as [| x l IH]; simpl; congruence.
Qed.

End FoldFacts.

(* ===================================================================== *)
(** ** Pricing *)
(* ===================================================================== *)

Lemma tiered_cost_nonpositive (total : Z) (base tiered : option Q) :
  total <= 0 ->
  calculate_tiered_cost total base tiered TIERED_THRESHOLD = 0%Q.
Proof.
  intros Hle. unfold calculate_tiered_cost.
  destruct (Z.leb_spec total 0); [reflexivity | lia].
Qed.

Lemma tiered_cost_above (total : Z) (base : option Q) (tp : Q) :
  total > TIERED_THRESHOLD ->
  (calculate_tiered_cost total base (Some tp) TIERED_THRESHOLD
   == inject_Z TIERED_THRESHOLD * rate_or_zero base
      + inject_Z (total - TIERED_THRESHOLD) * tp)%Q.
Proof.
  intros Hgt. unfold calculate_tiered_cost, TIERED_THRESHOLD in *.
  destruct (Z.leb_spec total 0); [lia |].
  destruct (Z.gtb_spec total 200000); [| lia].
  rewrite Z.min_r, Z.max_r by lia.
  destruct base as [bp |]; simpl; ring.
Qed.

Lemma tiered_cost_base (total : Z) (base tiered : option Q) :
  0 < total ->
  total <= TIERED_THRESHOLD \/ tiered = None ->
  (calculate_tiered_cost total base tiered TIERED_THRESHOLD
   == inject_Z total * rate_or_zero base)%Q.
Proof.
  intros Hpos Hcase. unfold calculate_tiered_cost, TIERED_THRESHOLD in *.
  destruct (Z.leb_spec total 0); [lia |].
  assert (Hflat : (if total >? 200000 then tiered else None) = None).
  { destruct Hcase as [Hle | ->].
    - destruct (Z.gtb_spec total 200000); [lia | reflexivity].
    - now destruct (total >? 200000). }
  rewrite Hflat. destruct base; simpl; ring.
Qed.

(** C2. [calculate_tiered_cost] is 0 for a non-positive count; above the
    200,000 threshold with a tiered rate it bills the threshold at the base
    rate (0 when absent) and the excess at the tiered rate; otherwise it
    bills every token at the base rate (0 when absent). [calculate_cost] is
    the sum of the four category costs under the resolved table, and 0 when
    the model is unspecified or no table resolves. *)
Theorem calculate_cost_tiered_sum :
  (forall total base tiered,
      total <= 0 ->
      calculate_tiered_cost total base tiered TIERED_THRESHOLD = 0%Q)
  /\ (forall total base tp,
         total > 200000 ->
         (calculate_tiered_cost total base (Some tp) TIERED_THRESHOLD
          == 200000 * rate_or_zero base + inject_Z (total - 200000) * tp)%Q)
  /\ (forall total base tiered,
         0 < total ->
         total <= 200000 \/ tiered = None ->
         (calculate_tiered_cost total base tiered TIERED_THRESHOLD
          == inject_Z total * rate_or_zero base)%Q)
  /\ (forall i o cc cr m p,
         get_model_pricing m = Some p ->
         calculate_cost i o cc cr (Some m)
         = (category_cost p i "input" "input_above_200k"
            + category_cost p o "output" "output_above_200k"
            + category_cost p cc "cache_creation" "cache_creation_above_200k"
            + category_cost p cr "cache_read" "cache_read_above_200k")%Q)
  /\ (forall i o cc cr, calculate_cost i o cc cr None = 0%Q)
  /\ (forall i o cc cr m,
         get_model_pricing m = None ->
         calculate_cost i o cc cr (Some m) = 0%Q).
Proof.
  repeat split.
  - apply tiered_cost_nonpositive.
  - intros total base tp Hgt. now apply tiered_cost_above.
  - intros total base tiered Hpos Hcase. now apply tiered_cost_base.
  - intros i o cc cr m p Hp. unfold calculate_cost. now rewrite Hp.
  - intros i o cc cr m Hp. unfold calculate_cost. now rewrite Hp.
Qed.

(** The 250,000 input tokens of the end-to-end scenario, on Opus 4: the
    first 200,000 at 15 dollars per million and the rest at 30. *)
Lemma calculate_cost_tiered_sum_witness :
  get_model_pricing "claude-opus-4-20250514" <> None
  /\ (calculate_cost 250000 0 0 0 (Some "claude-opus-4-20250514"%string)
      == 9 # 2)%Q.
Proof.
  split; [discriminate |].
  destruct calculate_cost_tiered_sum as (_ & _ & _ & Hsum & _).
  rewrite (Hsum 250000 0 0 0 "claude-opus-4-20250514"%string _ eq_refl).
  reflexivity.
Defined.

(* ===================================================================== *)
(** ** The loader *)
(* ===================================================================== *)

Section LoaderFacts.

Variable parse_time : string -> result datetime.

Lemma parse_line_append (pf st : string) (l : line) (e : LoadedUsageEntry) :
  parse_line parse_time pf st l = Append e ->
  exists obj, l = Object obj
              /\ entry_counts e = record_counts obj
              /\ entry_counts e <> (0, 0, 0, 0).
Proof.
  destruct l as [ | | | obj]; simpl; try discriminate.
  intros H. exists obj. split; [reflexivity |].
  destruct (is_assistant (o_type obj)); simpl in H; [| discriminate].
  unfold record_counts, record_usage.
  destruct (o_message obj) as [msg |]; simpl in H; [| discriminate].
  destruct (m_usage msg) as [u |]; simpl in H; [| discriminate].
  destruct u as [| kv u']; [discriminate |].
  remember (kv :: u') as u eqn:Hu.
  destruct ((get_or u "input_tokens" 0 =? 0)
            && (get_or u "output_tokens" 0 =? 0)
            && (get_or u "cache_creation_input_tokens" 0 =? 0)
            && (get_or u "cache_read_input_tokens" 0 =? 0))%bool eqn:Hz;
    [discriminate |].
  destruct (parse_time _) as [ts | ex]; [| discriminate].
  injection H as <-. unfold entry_counts; simpl. split; [reflexivity |].
  intros Heq. injection Heq as H1 H2 H3 H4.
  rewrite H1, H2, H3, H4 in Hz. discriminate.
Qed.

Lemma parse_line_zero (pf st : string) (l : line) :
  zero_token_record l -> parse_line parse_time pf st l = Continue.
Proof.
  intros (obj & -> & Hz).
  destruct (parse_line parse_time pf st (Object obj)) as [| e |] eqn:Hp.
  - reflexivity.
  - apply parse_line_append in Hp as (obj' & Hobj & Hc & Hnz).
    injection Hobj as <-. congruence.
  - simpl in Hp.
    destruct (is_assistant (o_type obj)); simpl in Hp; [| discriminate].
    destruct (match m_usage _ with Some u => u | None => [] end);
      [discriminate |].
    destruct (_ && _)%bool; [discriminate |].
    destruct (parse_time _); discriminate.
Qed.

Lemma parse_lines_invariant (P : LoadedUsageEntry -> Prop) (pf st : string) :
  (forall l e, parse_line parse_time pf st l = Append e -> P e) ->
  forall ls acc, Forall P acc -> Forall P (parse_lines parse_time pf st ls acc).
Proof.
  intros Hstep ls. induction ls as [| l ls IH]; intros acc Hacc; simpl.
  - exact Hacc.
  - destruct (parse_line parse_time pf st l) as [| e |] eqn:Hl.
    + now apply IH.
    + apply IH. apply Forall_app. split; [exact Hacc |].
      constructor; [now apply (Hstep l) | constructor].
    + exact Hacc.
Qed.

Lemma parse_lines_zero (pf st : string) (ls : list line)
  (acc : list LoadedUsageEntry) :
  Forall zero_token_record ls ->
  parse_lines parse_time pf st ls acc = acc.
Proof.
  intros Hz. revert acc. induction Hz as [| l ls Hl _ IH]; intros acc; simpl.
  - reflexivity.
  - rewrite (parse_line_zero pf st l Hl). apply IH.
Qed.

Lemma parse_usage_nonzero (f : jsonl_file) :
  Forall (fun e => entry_counts e <> (0, 0, 0, 0))
         (parse_usage_from_jsonl parse_time f).
Proof.
  unfold parse_usage_from_jsonl.
  destruct (lines f) as [ls |]; [| constructor].
  apply parse_lines_invariant; [| constructor].
  intros l e H. now apply parse_line_append in H as (obj & _ & _ & Hnz).
Qed.

End LoaderFacts.

(** C6. The loader emits an entry for a record only if one of its four
    token counts is non-zero: every emitted entry carries the counts of its
    record and they are not all zero, a record whose counts are all zero is
    skipped, a file of such records alone loads as the empty list, and no
    entry of [get_all_usage_entries] has four zero counts. *)
Theorem loader_discards_zero_token_records
  (parse_time : string -> result datetime) :
  (forall pf st l e,
      parse_line parse_time pf st l = Append e ->
      exists obj, l = Object obj
                  /\ entry_counts e = record_counts obj
                  /\ entry_counts e <> (0, 0, 0, 0))
  /\ (forall f,
         Forall (fun e => entry_counts e <> (0, 0, 0, 0))
                (parse_usage_from_jsonl parse_time f))
  /\ (forall pf st l,
         zero_token_record l -> parse_line parse_time pf st l = Continue)
  /\ (forall f ls,
         lines f = Some ls ->
         Forall zero_token_record ls ->
         parse_usage_from_jsonl parse_time f = [])
  /\ (forall files entries,
         get_all_usage_entries parse_time files = Ok entries ->
         Forall (fun e => entry_counts e <> (0, 0, 0, 0)) entries).
Proof.
  split; [| split; [| split; [| split]]].
  - apply parse_line_append.
  - apply parse_usage_nonzero.
  - apply parse_line_zero.
  - intros f ls Hf Hz. unfold parse_usage_from_jsonl. rewrite Hf.
    now apply parse_lines_zero.
  - intros files entries. unfold get_all_usage_entries.
    assert (Hall : Forall (fun e => entry_counts e <> (0, 0, 0, 0))
                     (flat_map (parse_usage_from_jsonl parse_time) files)).
    { apply Forall_flat_map, Forall_forall.
      intros f _. apply parse_usage_nonzero. }
    revert Hall. generalize (flat_map (parse_usage_from_jsonl parse_time) files).
    intros loaded Hall. unfold sorted_by_timestamp.
    destruct loaded as [| e0 rest].
    + intros H. injection H as <-. constructor.
    + destruct (forallb _ _); [| discriminate].
      intros H. injection H as <-.
      exact (Permutation_Forall
               (Permutation_sym (sorted_asc_perm entry_le (e0 :: rest)))
               Hall).
Qed.

(** A file of two records without tokens loads as the empty list; the
    same record with 12 tokens is loaded. *)
Lemma loader_discards_zero_token_records_witness :
  let f := {| parent_name := "-home-dev-app"; stem := "s1";
              lines := Some [record_with 0 0; record_with 0 0] |} in
  parse_usage_from_jsonl fromisoformat_basic f = []
  /\ exists e,
       parse_line fromisoformat_basic "-home-dev-app" "s1" (record_with 12 0)
       = Append e
       /\ entry_counts e <> (0, 0, 0, 0).
Proof.
  intros f.
  destruct (loader_discards_zero_token_records fromisoformat_basic)
    as (Hemit & _ & _ & Hempty & _).
  split.
  - apply (Hempty f [record_with 0 0; record_with 0 0] eq_refl).
    repeat constructor; eexists; split; reflexivity.
  - destruct (parse_line fromisoformat_basic "-home-dev-app" "s1"
                (record_with 12 0)) as [| e |] eqn:Hp;
      [vm_compute in Hp; discriminate | | vm_compute in Hp; discriminate].
    exists e. split; [reflexivity |].
    destruct (Hemit _ _ _ _ Hp) as (obj & _ & _ & Hnz). exact Hnz.
Defined.

(* ===================================================================== *)
(** ** Grouping *)
(* ===================================================================== *)

Section GroupFacts.

Variable key : LoadedUsageEntry -> string.

Lemma group_by_keys (entries : list LoadedUsageEntry) :
  keys (group_by key entries) = first_seen (map key entries).
Proof.
  unfold group_by.
  apply (keys_fold_left_nil [] (fun e l => l ++ [e]) key).
Qed.

Lemma group_by_get_from (entries : list LoadedUsageEntry)
  (d : dict (list LoadedUsageEntry)) (k : string) :
  get (fold_left
         (fun d entry => update [] (fun l => l ++ [entry]) d (key entry))
         entries d) k
  = match get d k, partition_of key k entries with
    | None, [] => None
    | None, l => Some l
    | Some l0, l => Some (l0 ++ l)
    end.
Proof.
  revert d. induction entries as [| e es IH]; intros d; simpl.
  - destruct (get d k); [now rewrite app_nil_r | reflexivity].
  - rewrite IH, get_update.
    destruct (String.eqb_spec (key e) k) as [-> | Hne].
    + destruct (get d k) as [l0 |]; simpl.
      * now rewrite <- app_assoc.
      * reflexivity.
    + reflexivity.
Qed.

Lemma group_by_In (entries : list LoadedUsageEntry) (k : string)
  (es : list LoadedUsageEntry) :
  In (k, es) (group_by key entries) ->
  es = partition_of key k entries /\ es <> [].
Proof.
  intros Hin. apply get_In in Hin.
  - unfold group_by in Hin. rewrite group_by_get_from in Hin. simpl in Hin.
    destruct (partition_of key k entries); [discriminate |].
    injection Hin as <-. split; [reflexivity | discriminate].
  - rewrite group_by_keys. apply first_seen_NoDup.
Qed.

Lemma group_by_complete (entries : list LoadedUsageEntry)
  (e : LoadedUsageEntry) :
  In e entries ->
  In (key e, partition_of key (key e) entries) (group_by key entries).
Proof.
  intros Hin. apply In_get. unfold group_by.
  rewrite group_by_get_from. simpl.
  assert (Hp : In e (partition_of key (key e) entries)).
  { apply filter_In. split; [exact Hin | apply String.eqb_refl]. }
  destruct (partition_of key (key e) entries); [contradiction | reflexivity].
Qed.

End GroupFacts.

(* ===================================================================== *)
(** ** Model breakdowns *)
(* ===================================================================== *)

Lemma breakdown_models (entries : list LoadedUsageEntry) :
  map mb_model (_aggregate_model_breakdowns entries)
  = first_seen (map model entries).
Proof.
  unfold _aggregate_model_breakdowns. rewrite map_map.
  rewrite <- (keys_fold_left_nil zero_totals add_entry model entries).
  unfold keys, model_data_of. apply map_ext. now intros [m data].
Qed.

(** C8, as the code has it. The breakdown list has exactly one row per
    distinct model of the entries, and the rows come in the order in which
    the models first appear in the entries. *)
Theorem model_breakdowns_first_appearance (entries : list LoadedUsageEntry) :
  map mb_model (_aggregate_model_breakdowns entries)
  = first_seen (map model entries)
  /\ NoDup (map mb_model (_aggregate_model_breakdowns entries))
  /\ (forall m, In m (map mb_model (_aggregate_model_breakdowns entries))
                <-> In m (map model entries)).
Proof.
  rewrite breakdown_models. split; [reflexivity |]. split.
  - apply first_seen_NoDup.
  - intros m. apply first_seen_In.
Qed.

(** C8, as stated, fails: two entries, Sonnet first and Opus second, give
    the rows in that order, which is not the order of the names. *)
Lemma model_breakdowns_sorted_counterexample :
  let entries :=
    [ input_only (utc 2025 6 2 9 0) 10 "claude-sonnet-4-20250514" "s1";
      input_only (utc 2025 6 2 9 5) 10 "claude-opus-4-20250514" "s1" ] in
  map mb_model (_aggregate_model_breakdowns entries)
  = [ "claude-sonnet-4-20250514"; "claude-opus-4-20250514" ]%string
  /\ sorted_by_name (map mb_model (_aggregate_model_breakdowns entries))
     = false.
Proof. split; reflexivity. Qed.

(** Three entries over two models, the second model first seen last. *)
Lemma model_breakdowns_first_appearance_witness :
  map mb_model
    (_aggregate_model_breakdowns
       [ input_only (utc 2025 6 2 9 0) 10 "claude-sonnet-4-20250514" "s1";
         input_only (utc 2025 6 2 9 5) 10 "claude-opus-4-20250514" "s1";
         input_only (utc 2025 6 2 9 9) 10 "claude-sonnet-4-20250514" "s1" ])
  = [ "claude-sonnet-4-20250514"; "claude-opus-4-20250514" ]%string.
Proof.
  rewrite (proj1 (model_breakdowns_first_appearance _)). reflexivity.
Defined.
(* ===================================================================== *)
(** ** Aggregate rows *)
(* ===================================================================== *)

Lemma daily_row_cost (entries : list LoadedUsageEntry) (row : DailyUsage) :
  In row (aggregate_by_daily entries) ->
  d_total_cost row
  = entry_costs (partition_of date_key (d_date row) entries).
Proof.
  unfold aggregate_by_daily. rewrite in_map_iff.
  intros ([k es] & <- & Hin). apply sorted_desc_In in Hin.
  apply group_by_In in Hin as [-> _]. reflexivity.
Qed.

Lemma monthly_row_cost (entries : list LoadedUsageEntry)
  (row : MonthlyUsage) :
  In row (aggregate_by_monthly entries) ->
  mo_total_cost row
  = entry_costs (partition_of month_key (mo_month row) entries).
Proof.
  unfold aggregate_by_monthly. rewrite in_map_iff.
  intros ([k es] & <- & Hin). apply sorted_desc_In in Hin.
  apply group_by_In in Hin as [-> _]. reflexivity.
Qed.

Lemma session_row_ok (k : string) (es : list LoadedUsageEntry)
  (row : SessionUsage) :
  session_row (k, es) = Ok row ->
  split_colon k = (s_project_path row, s_session_id row)
  /\ s_total_cost row = entry_costs es
  /\ s_input_tokens row = sum_int (map input_tokens es).
Proof.
  unfold session_row. destruct (split_colon k) as [p sid].
  destruct es as [| e0 rest]; [discriminate |].
  destruct (max_by_timestamp e0 rest) as [last_entry | ex]; [| discriminate].
  simpl. intros H. injection H as <-. simpl. repeat split.
Qed.

Lemma session_row_cost (entries : list LoadedUsageEntry)
  (rows : list SessionUsage) (row : SessionUsage) :
  aggregate_by_session entries = Ok rows ->
  In row rows ->
  exists k,
    In k (map session_key entries)
    /\ split_colon k = (s_project_path row, s_session_id row)
    /\ s_total_cost row = entry_costs (partition_of session_key k entries).
Proof.
  unfold aggregate_by_session.
  destruct (mapM session_row _) as [unsorted | ex] eqn:Hm; [| discriminate].
  simpl. intros H Hin. injection H as <-.
  apply sorted_desc_In in Hin. apply mapM_ok in Hm.
  destruct (Forall2_In_r _ _ _ _ Hm Hin) as ([k es] & Hg & Hrow).
  assert (Hk : In k (keys (group_by session_key entries))).
  { now apply (in_map fst) in Hg. }
  rewrite group_by_keys, first_seen_In in Hk.
  apply group_by_In in Hg as [-> _].
  apply session_row_ok in Hrow as (Hsplit & Hcost & _).
  exists k. auto.
Qed.

Lemma max_by_timestamp_total (kind : bool) (rest : list LoadedUsageEntry) :
  forall best,
    is_aware (timestamp best) = kind ->
    Forall (fun e => is_aware (timestamp e) = kind) rest ->
    exists m, max_by_timestamp best rest = Ok m.
Proof.
  induction rest as [| e rest IH]; intros best Hbest Hrest; simpl.
  - now exists best.
  - apply Forall_cons_iff in Hrest as [He Hrest'].
    unfold gt, same_kind. rewrite He, Hbest, Bool.eqb_reflx. simpl.
    apply IH; [| exact Hrest'].
    now destruct (instant (timestamp e) >? instant (timestamp best)).
Qed.

Lemma uniform_kind (entries : list LoadedUsageEntry) (e0 : LoadedUsageEntry) :
  uniform entries -> In e0 entries ->
  Forall (fun e => is_aware (timestamp e) = is_aware (timestamp e0)) entries.
Proof.
  intros Hu H0. apply Forall_forall. intros e He.
  specialize (Hu e e0 He H0). unfold same_kind in Hu.
  now apply Bool.eqb_prop in Hu.
Qed.

Lemma aggregate_by_session_total (entries : list LoadedUsageEntry) :
  uniform entries -> exists rows, aggregate_by_session entries = Ok rows.
Proof.
  intros Hu. unfold aggregate_by_session.
  destruct (mapM_total session_row (group_by session_key entries))
    as (rows & Hrows).
  - apply Forall_forall. intros [k es] Hin.
    apply group_by_In in Hin as [-> Hne].
    unfold session_row. destruct (split_colon k) as [p sid].
    destruct (partition_of session_key k entries) as [| e0 rest] eqn:Hp;
      [congruence |].
    assert (Hsub : forall e, In e (e0 :: rest) -> In e entries).
    { intros e He. rewrite <- Hp in He. now apply filter_In in He. }
    destruct (max_by_timestamp_total (is_aware (timestamp e0)) rest e0 eq_refl)
      as (m & ->).
    + apply Forall_forall. intros e He.
      pose proof (uniform_kind entries e0 Hu (Hsub e0 (or_introl eq_refl)))
        as Hall.
      rewrite Forall_forall in Hall. apply Hall, Hsub. now right.
    + simpl. eauto.
  - rewrite Hrows. simpl. eauto.
Qed.

Lemma daily_row_exists (entries : list LoadedUsageEntry)
  (e : LoadedUsageEntry) :
  In e entries ->
  exists row, In row (aggregate_by_daily entries) /\ d_date row = date_key e.
Proof.
  intros Hin.
  exists (daily_row (date_key e, partition_of date_key (date_key e) entries)).
  split; [| reflexivity].
  unfold aggregate_by_daily. apply in_map, sorted_desc_In.
  now apply group_by_complete.
Qed.

Lemma monthly_row_exists (entries : list LoadedUsageEntry)
  (e : LoadedUsageEntry) :
  In e entries ->
  exists row,
    In row (aggregate_by_monthly entries) /\ mo_month row = month_key e.
Proof.
  intros Hin.
  exists (monthly_row
            (month_key e, partition_of month_key (month_key e) entries)).
  split; [| reflexivity].
  unfold aggregate_by_monthly. apply in_map, sorted_desc_In.
  now apply group_by_complete.
Qed.

(** C1. In every daily, monthly and session row the total cost is the sum
    of the costs of the entries of its partition, each entry costed on its
    own (its [cost_usd] when present, the price of its own token counts
    otherwise); every entry falls in a row; and the total is not the price
    of the summed token counts: two Opus entries of 150,000 input tokens on
    one day cost 4.50 together, where 300,000 tokens at once cost 6. *)
Theorem aggregate_cost_is_sum_of_entry_costs :
  (forall entries row,
      In row (aggregate_by_daily entries) ->
      d_total_cost row
      = entry_costs (partition_of date_key (d_date row) entries))
  /\ (forall entries row,
         In row (aggregate_by_monthly entries) ->
         mo_total_cost row
         = entry_costs (partition_of month_key (mo_month row) entries))
  /\ (forall entries rows row,
         aggregate_by_session entries = Ok rows ->
         In row rows ->
         exists k,
           In k (map session_key entries)
           /\ split_colon k = (s_project_path row, s_session_id row)
           /\ s_total_cost row
              = entry_costs (partition_of session_key k entries))
  /\ (forall entries e,
         In e entries ->
         (exists row,
             In row (aggregate_by_daily entries) /\ d_date row = date_key e)
         /\ (exists row,
                In row (aggregate_by_monthly entries)
                /\ mo_month row = month_key e))
  /\ (forall entries,
         uniform entries ->
         exists rows, aggregate_by_session entries = Ok rows)
  /\ (forall e c,
         cost_usd e = Some c -> _calculate_entry_cost e = c)
  /\ (forall e,
         cost_usd e = None ->
         _calculate_entry_cost e
         = calculate_cost (input_tokens e) (output_tokens e)
             (cache_creation_tokens e) (cache_read_tokens e)
             (Some (model e)))
  /\ (exists entries row,
         In row (aggregate_by_daily entries)
         /\ (d_total_cost row == 9 # 2)%Q
         /\ (calculate_cost (d_input_tokens row) (d_output_tokens row)
               (d_cache_creation_tokens row) (d_cache_read_tokens row)
               (Some "claude-opus-4-20250514"%string) == 6)%Q).
Proof.
  split; [exact daily_row_cost |].
  split; [exact monthly_row_cost |].
  split; [exact session_row_cost |].
  split; [intros entries e Hin; split;
          [now apply daily_row_exists | now apply monthly_row_exists] |].
  split; [exact aggregate_by_session_total |].
  split; [intros e c H; unfold _calculate_entry_cost; now rewrite H |].
  split; [intros e H; unfold _calculate_entry_cost; now rewrite H |].
  pose (es := [ input_only (utc 2025 6 2 9 0) 150000
                  "claude-opus-4-20250514" "s1";
                input_only (utc 2025 6 2 9 5) 150000
                  "claude-opus-4-20250514" "s1" ]).
  exists es, (daily_row ("2025-06-02"%string, es)).
  split; [vm_compute; left; reflexivity |].
  split; vm_compute; reflexivity.
Qed.

(** Three entries on two days: the row of 2 June sums the costs of its two
    entries, the third entry is not part of it. *)
Lemma aggregate_cost_is_sum_of_entry_costs_witness :
  let opus := "claude-opus-4-20250514"%string in
  let e1 := input_only (utc 2025 6 2 9 0) 150000 opus "s1" in
  let e2 := input_only (utc 2025 6 2 9 5) 150000 opus "s1" in
  let e3 := input_only (utc 2025 6 3 9 0) 1000 "claude-3-haiku-20240307" "s2" in
  exists row,
    In row (aggregate_by_daily [e1; e2; e3])
    /\ d_date row = "2025-06-02"%string
    /\ d_total_cost row = entry_costs [e1; e2].
Proof.
  intros opus e1 e2 e3.
  exists (daily_row ("2025-06-02"%string, [e1; e2])).
  assert (Hin : In (daily_row ("2025-06-02"%string, [e1; e2]))
                   (aggregate_by_daily [e1; e2; e3])).
  { vm_compute. right. left. reflexivity. }
  split; [exact Hin |]. split; [reflexivity |].
  exact (proj1 aggregate_cost_is_sum_of_entry_costs [e1; e2; e3] _ Hin).
Defined.

(* ===================================================================== *)
(** ** Session listing *)
(* ===================================================================== *)

Lemma aggregate_by_session_length (entries : list LoadedUsageEntry)
  (rows : list SessionUsage) :
  aggregate_by_session entries = Ok rows ->
  List.length rows = List.length (first_seen (map session_key entries)).
Proof.
  unfold aggregate_by_session.
  destruct (mapM session_row _) as [unsorted | ex] eqn:Hm; [| discriminate].
  simpl. intros H. injection H as <-.
  rewrite sorted_desc_length. apply mapM_ok, Forall2_length in Hm.
  rewrite <- Hm, <- group_by_keys. unfold keys. now rewrite length_map.
Qed.

Lemma slice_to_nonneg {A} (l : list A) (n : Z) :
  0 <= n -> slice_to l n = firstn (Z.to_nat n) l.
Proof.
  intros Hn. unfold slice_to. destruct (Z.ltb_spec n 0); [lia | reflexivity].
Qed.

(** C10. [get_session_usage] reports as [total] the number of all distinct
    [project_path:session_id] partitions, returns the first [limit] session
    rows (all of them when there are fewer), and sums the token totals and
    the total cost over the returned rows only; on entries of one kind it
    always answers. *)
Theorem session_usage_total_counts_all_sessions :
  (forall entries limit r,
      get_session_usage entries limit = Ok r ->
      exists rows,
        aggregate_by_session entries = Ok rows
        /\ sr_total r
           = Z.of_nat (List.length (first_seen (map session_key entries)))
        /\ sr_total r = Z.of_nat (List.length rows)
        /\ sr_data r = slice_to rows limit
        /\ (0 <= limit ->
            sr_data r = firstn (Z.to_nat limit) rows
            /\ List.length (sr_data r)
               = Nat.min (Z.to_nat limit) (List.length rows))
        /\ tc_input_tokens (sr_totals r)
           = sum_int (map s_input_tokens (sr_data r))
        /\ tc_output_tokens (sr_totals r)
           = sum_int (map s_output_tokens (sr_data r))
        /\ tc_cache_creation_tokens (sr_totals r)
           = sum_int (map s_cache_creation_tokens (sr_data r))
        /\ tc_cache_read_tokens (sr_totals r)
           = sum_int (map s_cache_read_tokens (sr_data r))
        /\ sr_total_cost r = sum_float (map s_total_cost (sr_data r)))
  /\ (forall entries limit,
         uniform entries ->
         exists r, get_session_usage entries limit = Ok r).
Proof.
  split.
  - intros entries limit r. unfold get_session_usage.
    destruct (aggregate_by_session entries) as [rows | ex] eqn:Hrows;
      [| discriminate].
    simpl. intros H. injection H as <-. simpl. exists rows.
    split; [reflexivity |].
    split; [now rewrite (aggregate_by_session_length entries rows) |].
    split; [reflexivity |]. split; [reflexivity |].
    split; [| repeat split].
    intros Hlimit. rewrite (slice_to_nonneg rows limit Hlimit).
    split; [reflexivity | apply length_firstn].
  - intros entries limit Hu.
    destruct (aggregate_by_session_total entries Hu) as (rows & Hrows).
    unfold get_session_usage. rewrite Hrows. simpl. eauto.
Qed.

Lemma three_sessions_uniform : uniform three_sessions.
Proof.
  intros a b Ha Hb. unfold three_sessions in *. simpl in Ha, Hb.
  repeat match goal with
         | H : _ \/ _ |- _ => destruct H as [<- | H]
         | H : False |- _ => destruct H
         end; reflexivity.
Qed.

(** Three sessions and a limit of two: the total is three, two rows are
    returned and the token total leaves the third session out. *)
Lemma session_usage_total_counts_all_sessions_witness :
  exists r,
    get_session_usage three_sessions 2 = Ok r
    /\ sr_total r = 3
    /\ List.length (sr_data r) = 2%nat
    /\ tc_input_tokens (sr_totals r)
       = sum_int (map s_input_tokens (sr_data r)).
Proof.
  destruct (proj2 session_usage_total_counts_all_sessions three_sessions 2
              three_sessions_uniform) as (r & Hr).
  destruct (proj1 session_usage_total_counts_all_sessions three_sessions 2 r
              Hr)
    as (rows & Hrows & Htotal & Hlen & _ & Hfirst & Hinput & _).
  exists r. split; [exact Hr |].
  split; [rewrite Htotal; vm_compute; reflexivity |].
  split; [| exact Hinput].
  rewrite (proj2 (Hfirst ltac:(lia))).
  apply (f_equal Z.to_nat) in Hlen. rewrite Nat2Z.id in Hlen.
  rewrite <- Hlen, Htotal. vm_compute. reflexivity.
Defined.

(* ===================================================================== *)
(** ** Blocks: construction *)
(* ===================================================================== *)

Lemma same_kind_add (a b : datetime) (td : timedelta) :
  same_kind a (add b td) = same_kind a b.
Proof. reflexivity. Qed.

Lemma instant_add (d : datetime) (td : timedelta) :
  instant (add d td) = instant d + td.
Proof. unfold instant, add. simpl. destruct (utcoffset d); lia. Qed.

Lemma sub_ok (a b : datetime) (td : timedelta) :
  sub a b = Ok td -> same_kind a b = true /\ td = instant a - instant b.
Proof.
  unfold sub. destruct (same_kind a b); [| discriminate].
  intros H. injection H as <-. auto.
Qed.

Lemma create_block_ok (start now : datetime)
  (entries : list LoadedUsageEntry) (b : SessionBlock) :
  _create_block start entries now = Ok b ->
  exists p,
    project_block (block_end start) now entries (b_is_active b)
      (block_tokens entries) (entry_costs entries) = Ok p
    /\ same_kind now (block_last start entries) = true
    /\ b_is_active b
       = ((instant now - instant (block_last start entries)
           <? hours SESSION_DURATION_HOURS)
          && (instant now <? instant (block_end start)))%bool
    /\ b = {| b_id := isoformat start;
              b_start_time := isoformat start;
              b_end_time := isoformat (block_end start);
              b_actual_end_time :=
                Some (isoformat (block_last start entries));
              b_is_active := b_is_active b;
              b_is_gap := false;
              b_input_tokens := sum_int (map input_tokens entries);
              b_output_tokens := sum_int (map output_tokens entries);
              b_cache_creation_tokens :=
                sum_int (map cache_creation_tokens entries);
              b_cache_read_tokens :=
                sum_int (map cache_read_tokens entries);
              b_cost_usd := entry_costs entries;
              b_models := first_seen (map model entries);
              b_burn_rate_tokens_per_minute := burn_rate_tokens p;
              b_burn_rate_cost_per_hour := burn_rate_cost p;
              b_projected_total_tokens := projected_tokens p;
              b_projected_total_cost := projected_cost p;
              b_remaining_minutes := remaining_minutes p |}.
Proof.
  unfold _create_block. fold (block_last start entries) (block_end start).
  fold (block_tokens entries) (entry_costs entries).
  destruct (sub now (block_last start entries)) as [idle | ex] eqn:Hidle;
    [| discriminate].
  apply sub_ok in Hidle as [Hkind ->]. cbn [bind].
  destruct (instant now - instant (block_last start entries)
            <? hours SESSION_DURATION_HOURS) eqn:Hfresh.
  - unfold lt. destruct (same_kind now (block_end start)); [| discriminate].
    cbn [bind].
    destruct (project_block _ _ _ _ _ _) as [p | ex] eqn:Hp; [| discriminate].
    cbn [bind]. intros H. injection H as <-. cbn [b_is_active]. exists p.
    split; [exact Hp |]. split; [exact Hkind |]. split; reflexivity.
  - cbn [bind].
    destruct (project_block _ _ _ _ _ _) as [p | ex] eqn:Hp; [| discriminate].
    cbn [bind]. intros H. injection H as <-. cbn [b_is_active]. exists p.
    split; [exact Hp |]. split; [exact Hkind |]. split; reflexivity.
Qed.


Lemma truediv_guarded (a b : Q) :
  float_gt b 0 = true -> truediv a b = Ok (a / b)%Q.
Proof.
  unfold float_gt, truediv. intros Hgt. apply negb_true_iff in Hgt.
  destruct (Qeq_bool b 0) eqn:Hz; [| reflexivity].
  apply Qeq_bool_iff in Hz.
  assert (Hle : Qle_bool b 0 = true).
  { apply Qle_bool_iff. rewrite Hz. apply Qle_refl. }
  congruence.
Qed.

Lemma last_of_cons {A} (x : A) (l : list A) :
  exists y, last_of (x :: l) = Some y.
Proof.
  unfold last_of. simpl. destruct (rev l) as [| y r]; simpl; eauto.
Qed.



Lemma create_block_total (start now : datetime)
  (entries : list LoadedUsageEntry) :
  same_kind now start = true ->
  Forall (fun e => same_kind_as now e = true) entries ->
  exists b, _create_block start entries now = Ok b.
Proof.
  intros Hstart Hall.
  assert (Hlast : same_kind now (block_last start entries) = true).
  { unfold block_last, last_of.
    destruct (rev entries) as [| e r] eqn:Hrev; [exact Hstart |].
    rewrite Forall_forall in Hall. apply Hall, in_rev.
    rewrite Hrev. now left. }
  unfold _create_block. fold (block_last start entries) (block_end start).
  unfold sub at 1. rewrite Hlast. cbn [bind].
  assert (Hact : exists a,
             (if instant now - instant (block_last start entries)
                 <? hours SESSION_DURATION_HOURS
              then lt now (block_end start) else Ok false) = Ok a).
  { destruct (_ <? _); [| eauto].
    unfold lt, block_end. rewrite same_kind_add, Hstart. eauto. }
  destruct Hact as (a & ->). cbn [bind].
  assert (Hp : exists p,
             project_block (block_end start) now entries a
               (sum_int (map input_tokens entries)
                + sum_int (map output_tokens entries)
                + sum_int (map cache_creation_tokens entries)
                + sum_int (map cache_read_tokens entries))
               (sum_float (map _calculate_entry_cost entries)) = Ok p).
  { unfold project_block.
    destruct (a && _)%bool; [| eauto].
    destruct entries as [| first_entry rest]; [eauto |].
    destruct (last_of_cons first_entry rest) as (last_entry & Hl).
    rewrite Hl.
    assert (Hin : In last_entry (first_entry :: rest)).
    { unfold last_of in Hl. apply in_rev.
      destruct (rev (first_entry :: rest)); [discriminate |].
      injection Hl as ->. now left. }
    rewrite Forall_forall in Hall.
    pose proof (Hall _ Hin) as Hk1.
    pose proof (Hall first_entry (or_introl eq_refl)) as Hk2.
    unfold same_kind_as, same_kind in Hk1, Hk2.
    apply Bool.eqb_prop in Hk1, Hk2.
    unfold sub at 1, same_kind. rewrite <- Hk1, <- Hk2, Bool.eqb_reflx.
    cbn [bind].
    destruct (float_gt _ 0) eqn:Hgt; [| eauto].
    rewrite !(truediv_guarded _ _ Hgt). cbn [bind].
    unfold sub, block_end. unfold same_kind in *.
    assert (Hs : Bool.eqb (is_aware (add start (hours SESSION_DURATION_HOURS)))
                          (is_aware now) = true).
    { apply Bool.eqb_prop in Hstart. change (is_aware (add start _))
        with (is_aware start). rewrite Hstart. apply Bool.eqb_reflx. }
    rewrite Hs. cbn [bind]. eauto. }
  destruct Hp as (p & ->). cbn [bind]. eauto.
Qed.

(* ===================================================================== *)
(** ** Blocks: activity *)
(* ===================================================================== *)

(** C4. A block made by [_create_block] is active exactly when [now] is
    before its nominal end (start plus five hours) and less than five hours
    have passed since its last entry. So three hours after the last entry,
    inside the window, the block is active; six hours after it, it is not. *)
Theorem block_active_iff (start now : datetime)
  (entries : list LoadedUsageEntry) (b : SessionBlock)
  (Hb : _create_block start entries now = Ok b) :
  b_is_gap b = false
  /\ b_end_time b = isoformat (add start (hours 5))
  /\ (b_is_active b = true
      <-> instant now < instant (add start (hours 5))
          /\ instant now - instant (block_last start entries) < hours 5)
  /\ (instant now - instant (block_last start entries) = hours 3 ->
      instant now < instant (add start (hours 5)) ->
      b_is_active b = true)
  /\ (instant now - instant (block_last start entries) = hours 6 ->
      b_is_active b = false).
Proof.
  apply create_block_ok in Hb as (p & _ & _ & Hactive & Hrec).
  change (add start (hours 5)) with (block_end start).
  change (hours 5) with (hours SESSION_DURATION_HOURS).
  assert (Hiff : b_is_active b = true
                 <-> instant now < instant (block_end start)
                     /\ instant now - instant (block_last start entries)
                        < hours SESSION_DURATION_HOURS).
  { rewrite Hactive, andb_true_iff, !Z.ltb_lt. tauto. }
  split; [now rewrite Hrec |]. split; [now rewrite Hrec |].
  split; [exact Hiff |]. split.
  - intros H3 Hend. apply Hiff. split; [exact Hend |].
    rewrite H3. reflexivity.
  - intros H6. apply not_true_is_false. intros Ht.
    apply Hiff in Ht as [_ Hlt]. rewrite H6 in Hlt. discriminate Hlt.
Qed.

Lemma two_entries_kinds :
  Forall (fun e => same_kind_as (utc 2025 6 2 13 3) e = true) two_entries.
Proof. repeat constructor. Qed.

(** Three hours after the last of two entries, inside the window. *)
Lemma block_active_iff_witness :
  let start := utc 2025 6 2 10 0 in
  let now := utc 2025 6 2 13 3 in
  exists b,
    _create_block start two_entries now = Ok b /\ b_is_active b = true.
Proof.
  intros start now.
  destruct (create_block_total start now two_entries eq_refl
              two_entries_kinds) as (b & Hb).
  exists b. split; [exact Hb |].
  apply (block_active_iff start now two_entries b Hb).
  - vm_compute. reflexivity.
  - vm_compute. reflexivity.
Defined.

(* ===================================================================== *)
(** ** Blocks: burn rate and projection *)
(* ===================================================================== *)




(* ===================================================================== *)
(** ** Blocks: segmentation *)
(* ===================================================================== *)

Lemma float_gt_ms (d : timedelta) :
  float_gt (total_seconds d * 1000) session_duration_ms = (hours 5 <? d).
Proof.
  unfold float_gt, total_seconds, session_duration_ms, US_PER_SECOND.
  destruct (Z.ltb_spec (hours 5) d) as [Hgt | Hle];
    unfold hours, US_PER_HOUR, US_PER_MINUTE, US_PER_SECOND in *.
  - apply negb_true_iff. destruct (Qle_bool _ _) eqn:Hq; [| reflexivity].
    apply Qle_bool_iff in Hq. unfold Qle in Hq. cbn in Hq. lia.
  - apply negb_false_iff, Qle_bool_iff. unfold Qle. cbn. lia.
Qed.

Lemma last_of_snoc {A} (l : list A) (x : A) : last_of (l ++ [x]) = Some x.
Proof. unfold last_of. now rewrite rev_app_distr. Qed.

Lemma last_of_nonempty (start : datetime) (es : list LoadedUsageEntry) :
  es <> [] ->
  exists le, last_of es = Some le
             /\ timestamp le = block_last start es /\ In le es.
Proof.
  intros Hne. unfold block_last, last_of.
  destruct (rev es) as [| le r] eqn:Hrev.
  - apply (f_equal (@rev _)) in Hrev. rewrite rev_involutive in Hrev.
    now subst.
  - exists le. repeat split. apply in_rev. rewrite Hrev. now left.
Qed.

Lemma same_kind_trans (a b c : datetime) :
  same_kind a b = true -> same_kind a c = true -> same_kind b c = true.
Proof.
  unfold same_kind. intros H1 H2.
  apply Bool.eqb_prop in H1, H2. rewrite <- H1, <- H2. apply Bool.eqb_reflx.
Qed.

Lemma create_block_renders (start now : datetime)
  (es : list LoadedUsageEntry) :
  same_kind now start = true ->
  Forall (fun e => same_kind_as now e = true) es ->
  exists b, _create_block start es now = Ok b
            /\ renders now (Activity start es) b.
Proof.
  intros Hs Hes. destruct (create_block_total start now es Hs Hes) as (b & Hb).
  exists b. split; [exact Hb |]. simpl. split; [exact Hb |].
  apply create_block_ok in Hb as (p & _ & _ & _ & ->). repeat split.
Qed.

Lemma create_gap_block_renders (prev next : datetime) :
  same_kind next prev = true ->
  hours 5 < instant next - instant prev ->
  exists g, _create_gap_block prev next = Ok (Some g)
            /\ renders prev (Idle (add prev (hours 5)) next) g.
Proof.
  intros Hk Hgap. unfold _create_gap_block, sub. rewrite Hk. cbn [bind].
  change (hours SESSION_DURATION_HOURS) with (hours 5).
  destruct (Z.leb_spec (instant next - instant prev) (hours 5)); [lia |].
  eexists. split; [reflexivity |]. simpl. repeat split.
Qed.

Lemma segment_entry_refines (now : datetime) (st : segmenter)
  (sp : spec_state) (e : LoadedUsageEntry) :
  agrees now st sp ->
  same_kind_as now e = true ->
  exists st' new,
    segment_entry now st e = Ok st'
    /\ agrees now st' (snd (spec_step sp e))
    /\ blocks st' = blocks st ++ new
    /\ Forall2 (renders now) (fst (spec_step sp e)) new.
Proof.
  intros Hag He. unfold segment_entry, _floor_to_hour.
  assert (Hopen : forall bs,
             agrees now
               (mkSegmenter bs (Some (floor_hour (timestamp e))) [e])
               (Some (floor_hour (timestamp e), [e]))).
  { intros bs. simpl. repeat split; try discriminate; [exact He |].
    now constructor. }
  destruct sp as [[start es] |]; simpl in Hag.
  - destruct Hag as (Hstart & Hes & Hne & Hks & Hkes).
    rewrite Hstart, Hes.
    destruct (last_of_nonempty start es Hne) as (le & Hlast & Hts & Hin).
    rewrite Hlast.
    assert (Hkle : same_kind now (timestamp le) = true).
    { rewrite Forall_forall in Hkes. now apply Hkes. }
    unfold sub.
    rewrite (same_kind_trans now (timestamp e) start He Hks),
      (same_kind_trans now (timestamp e) (timestamp le) He Hkle).
    cbn [bind]. rewrite !float_gt_ms, Hts.
    unfold spec_step.
    destruct ((hours 5 <? instant (timestamp e) - instant start)
              || (hours 5 <? instant (timestamp e)
                             - instant (block_last start es)))%bool eqn:Hclose.
    + destruct (create_block_renders start now es Hks Hkes)
        as (b & Hb & Hrb).
      rewrite Hb. cbn [bind].
      destruct (Z.ltb_spec (hours 5)
                  (instant (timestamp e) - instant (block_last start es)))
        as [Hgap | Hnogap].
      * destruct (create_gap_block_renders (timestamp le) (timestamp e))
          as (g & Hg & Hrg).
        { exact (same_kind_trans now (timestamp e) (timestamp le) He Hkle). }
        { now rewrite Hts. }
        rewrite Hts in Hg, Hrg. rewrite Hg. cbn [bind].
        eexists. exists [b; g]. split; [reflexivity |].
        split; [apply Hopen |]. split.
        -- cbn [blocks]. now rewrite <- app_assoc.
        -- cbn [fst]. constructor; [exact Hrb |].
           constructor; [exact Hrg | constructor].
      * cbn [bind]. eexists. exists [b]. split; [reflexivity |].
        split; [apply Hopen |]. split; [reflexivity |].
        cbn [fst]. constructor; [exact Hrb | constructor].
    + eexists. exists []. split; [reflexivity |]. split.
      * simpl. repeat split; try assumption.
        -- intros Habs. now destruct es.
        -- apply Forall_app. split; [exact Hkes |]. now constructor.
      * split; [cbn [blocks]; now rewrite app_nil_r | constructor].
  - rewrite Hag. eexists. exists []. split; [reflexivity |].
    split; [apply Hopen |].
    split; [cbn [blocks]; now rewrite app_nil_r | constructor].
Qed.

Lemma foldM_refines (now : datetime) (entries : list LoadedUsageEntry) :
  forall st sp,
    agrees now st sp ->
    Forall (fun e => same_kind_as now e = true) entries ->
    exists st' new,
      foldM (segment_entry now) entries st = Ok st'
      /\ agrees now st' (snd (spec_fold sp entries))
      /\ blocks st' = blocks st ++ new
      /\ Forall2 (renders now) (fst (spec_fold sp entries)) new.
Proof.
  induction entries as [| e rest IH]; intros st sp Hag Hk.
  - exists st, []. simpl. split; [reflexivity |]. split; [exact Hag |].
    split; [now rewrite app_nil_r | constructor].
  - apply Forall_cons_iff in Hk as [He Hrest].
    destruct (segment_entry_refines now st sp e Hag He)
      as (st1 & new1 & Hstep & Hag1 & Hb1 & Hr1).
    simpl. rewrite Hstep. cbn [bind].
    destruct (spec_step sp e) as [out1 sp1]. simpl in Hag1, Hr1.
    destruct (IH st1 sp1 Hag1 Hrest) as (st2 & new2 & Hfold & Hag2 & Hb2 & Hr2).
    destruct (spec_fold sp1 rest) as [out2 sp2]. simpl in Hag2, Hr2.
    exists st2, (new1 ++ new2). split; [exact Hfold |].
    split; [exact Hag2 |]. split.
    + now rewrite Hb2, Hb1, app_assoc.
    + simpl. now apply Forall2_app.
Qed.

Lemma sorted_by_timestamp_ok (now : datetime)
  (entries : list LoadedUsageEntry) :
  Forall (fun e => same_kind_as now e = true) entries ->
  sorted_by_timestamp entries = Ok (sorted_asc entry_le entries).
Proof.
  intros Hk. unfold sorted_by_timestamp.
  destruct entries as [| e0 rest]; [reflexivity |].
  assert (Hall : forallb (same_kind_as (timestamp e0)) (e0 :: rest) = true).
  { apply forallb_forall. intros e He. rewrite Forall_forall in Hk.
    apply (same_kind_trans now); [apply (Hk e0); now left | now apply Hk]. }
  now rewrite Hall.
Qed.

Lemma identify_session_blocks_refines (entries : list LoadedUsageEntry)
  (now : datetime) :
  Forall (fun e => same_kind_as now e = true) entries ->
  exists bs,
    identify_session_blocks entries now = Ok bs
    /\ Forall2 (renders now)
         (spec_segments (sorted_asc entry_le entries)) bs.
Proof.
  intros Hk. unfold identify_session_blocks.
  destruct entries as [| e0 rest] eqn:Hentries.
  { exists []. split; [reflexivity | constructor]. }
  rewrite <- Hentries in *. clear Hentries e0 rest.
  rewrite (sorted_by_timestamp_ok now entries Hk). cbn [bind].
  assert (Hsorted : Forall (fun e => same_kind_as now e = true)
                      (sorted_asc entry_le entries)).
  { eapply Permutation_Forall; [| exact Hk].
    apply Permutation_sym, sorted_asc_perm. }
  destruct (foldM_refines now (sorted_asc entry_le entries)
              (mkSegmenter [] None []) None eq_refl Hsorted)
    as (st & new & Hfold & Hag & Hbs & Hr).
  rewrite Hfold. cbn [bind]. unfold spec_segments.
  destruct (spec_fold None (sorted_asc entry_le entries)) as [out sp].
  simpl in Hag, Hr, Hbs. rewrite Hbs.
  destruct sp as [[start es] |]; simpl in Hag.
  - destruct Hag as (-> & -> & Hne & Hks & Hkes).
    destruct es as [| e es']; [congruence |].
    destruct (create_block_renders start now (e :: es') Hks Hkes)
      as (b & Hb & Hrb).
    rewrite Hb. cbn [bind]. eexists. split; [reflexivity |].
    apply Forall2_app; [exact Hr |]. constructor; [exact Hrb | constructor].
  - rewrite Hag. simpl. rewrite app_nil_r.
    exists new. split; [| exact Hr].
    now destruct (current_block_entries st).
Qed.




(* ===================================================================== *)
(** ** Date range of the daily report *)
(* ===================================================================== *)

Lemma strptime_Ymd_naive (s : string) (d : datetime) :
  strptime_Ymd s = Ok d -> is_aware d = false.
Proof.
  unfold strptime_Ymd, of_date.
  destruct (split_on _ s) as [| ys [| ms [| ds [| ? ?]]]]; try discriminate.
  destruct (_ && _ && _)%bool; [| discriminate].
  destruct (number ys) as [y |]; [| discriminate].
  destruct (number ms) as [m |]; [| discriminate].
  destruct (number ds) as [dd |]; [| discriminate].
  destruct (_ && _)%bool; [| discriminate].
  intros H. injection H as <-. reflexivity.
Qed.

Lemma given_nonempty (s : string) : s <> EmptyString -> given (Some s) = Some s.
Proof. destruct s; [congruence | reflexivity]. Qed.

(** On naive timestamps the filter keeps exactly the entries from the
    start of [start_date] to the end of [end_date]. *)
Lemma filter_by_date_range_naive (entries : list LoadedUsageEntry)
  (sd ed : string) (start_dt end_dt : datetime) :
  Forall (fun e => is_aware (timestamp e) = false) entries ->
  sd <> EmptyString -> ed <> EmptyString ->
  strptime_Ymd sd = Ok start_dt ->
  strptime_Ymd ed = Ok end_dt ->
  filter_by_date_range entries (Some sd) (Some ed)
  = Ok (filter (in_date_range start_dt end_dt) entries).
Proof.
  intros Hnaive Hsd Hed Hs He. unfold filter_by_date_range.
  rewrite (given_nonempty sd Hsd), (given_nonempty ed Hed), Hs, He.
  cbn [bind].
  pose proof (strptime_Ymd_naive sd start_dt Hs) as Hns.
  pose proof (strptime_Ymd_naive ed end_dt He) as Hne.
  rewrite (filterM_ok
             (fun e => instant start_dt <=? instant (timestamp e))).
  - cbn [bind].
    rewrite (filterM_ok
               (fun e => instant (timestamp e) <? instant end_dt + days 1)).
    + rewrite filter_twice. reflexivity.
    + apply Forall_forall. intros e Hin. apply filter_In in Hin as [Hin _].
      rewrite Forall_forall in Hnaive. specialize (Hnaive e Hin).
      unfold lt, same_kind. change (is_aware (add end_dt (days 1)))
        with (is_aware end_dt). rewrite Hnaive, Hne. cbn [Bool.eqb].
      now rewrite instant_add.
  - apply Forall_forall. intros e Hin.
    rewrite Forall_forall in Hnaive. specialize (Hnaive e Hin).
    unfold ge, same_kind. rewrite Hnaive, Hns. cbn [Bool.eqb].
    now rewrite Z.geb_leb.
Qed.

(** On aware timestamps, the kind the loader produces from log lines, an
    end date makes the filter raise as soon as there is an entry. *)
Lemma filter_by_date_range_aware (entries : list LoadedUsageEntry)
  (ed : string) (end_dt : datetime) :
  entries <> [] ->
  Forall (fun e => is_aware (timestamp e) = true) entries ->
  ed <> EmptyString ->
  strptime_Ymd ed = Ok end_dt ->
  filter_by_date_range entries None (Some ed) = Raise TypeError.
Proof.
  intros Hne Haware Hed He. unfold filter_by_date_range.
  rewrite (given_nonempty ed Hed), He. cbn [given bind].
  pose proof (strptime_Ymd_naive ed end_dt He) as Hn.
  destruct entries as [| e rest]; [congruence |].
  apply Forall_cons_iff in Haware as [Ha _].
  cbn [filterM]. unfold lt at 1, same_kind.
  change (is_aware (add end_dt (days 1))) with (is_aware end_dt).
  now rewrite Ha, Hn.
Qed.

(** C9 at the failing input: one entry logged at 2025-01-15T10:00:00.000Z and
    the end date 2025-01-15. The entry is before the start of 16 January,
    and the report is not produced: the comparison of its aware timestamp
    with the naive bound raises [TypeError]. *)
Theorem daily_usage_end_date_raises :
  exists e,
    logged_entry = Ok e
    /\ is_aware (timestamp e) = true
    /\ strftime_Ymd (timestamp e) = "2025-01-15"%string
    /\ get_daily_usage [e] None (Some "2025-01-15"%string) = Raise TypeError
    /\ get_daily_usage [e] (Some "2025-01-15"%string) None = Raise TypeError
    /\ exists r, get_daily_usage [e] None None = Ok r
                 /\ map d_date (dr_data r) = ["2025-01-15"%string].
Proof.
  eexists. split; [vm_compute; reflexivity |].
  split; [reflexivity |].
  split; [vm_compute; reflexivity |].
  split; [vm_compute; reflexivity |].
  split; [vm_compute; reflexivity |].
  eexists. split; vm_compute; reflexivity.
Qed.

(* ===================================================================== *)
(** ** The per-session summary cache *)
(* ===================================================================== *)

Section CacheFacts.

Import SessionService.

Variable md5_hexdigest : string -> string.
Variable str_float : Q -> string.
Variable projects_dir : string.

Local Abbreviation hash_of := (stat_hash md5_hexdigest str_float).
Local Abbreviation valid utcnow fs folder sid c :=
  (fresh utcnow c
   /\ unchanged md5_hexdigest str_float projects_dir fs folder sid c).
Local Abbreviation cached_summary :=
  (get_cached_summary md5_hexdigest str_float projects_dir).

Lemma get_file_hash_found (fs : filesystem) (path : string) (f : file) :
  fs path = Some f ->
  get_file_hash md5_hexdigest str_float fs path = Ok (hash_of f).
Proof. intros H. unfold get_file_hash. now rewrite H. Qed.

(** The two outcomes of a lookup that finds the row [c]. *)
Lemma cached_summary_cases (rows : list SessionCache) (fs : filesystem)
  (utcnow : datetime) (sid folder : string) (c : SessionCache) :
  scalar_one_or_none (select_where rows sid folder) = Ok (Some c) ->
  same_kind utcnow (cached_at c) = true ->
  (valid utcnow fs folder sid c
   /\ exists s, cached_summary (Some rows) fs utcnow sid folder = Ok (Some s)
                /\ ss_id s = session_id c
                /\ ss_project_folder s = project_folder c
                /\ ss_summary s = summary c
                /\ ss_size_bytes s = size_bytes c)
  \/ (~ valid utcnow fs folder sid c
      /\ cached_summary (Some rows) fs utcnow sid folder = Ok None).
Proof.
  intros Hfound Hkind. unfold get_cached_summary, fresh, unchanged.
  rewrite Hfound. cbn [bind]. unfold sub. rewrite Hkind. cbn [bind].
  change (minutes CACHE_TTL_MINUTES) with (minutes 5).
  destruct (Z.gtb_spec (instant utcnow - instant (cached_at c)) (minutes 5))
    as [Hstale | Hfresh].
  { right. split; [| reflexivity]. intros [Hf _]. lia. }
  destruct (fs (session_path projects_dir folder sid)) as [f |] eqn:Hfile.
  2: { right. split; [| reflexivity]. intros [_ (f & Hf & _)]. discriminate. }
  rewrite (get_file_hash_found fs _ f Hfile). cbn [bind].
  destruct (String.eqb_spec (hash_of f) (file_hash c)) as [Heq | Hneq].
  - left. split; [split; [lia | now exists f] |].
    eexists. split; [reflexivity |]. repeat split.
  - right. split; [| reflexivity]. intros [_ (f' & Hf' & Hh)]. congruence.
Qed.

(** C7. For the cache row found under [(session_id, project_folder)], the
    cached summary is returned exactly when at most five minutes have
    passed since [cached_at] and the source file exists with a hash equal
    to the stored one; in every other case nothing is returned. The hash is
    a function of the size and the modification time of the file alone. *)
Theorem cached_summary_valid_iff (rows : list SessionCache)
  (fs : filesystem) (utcnow : datetime) (sid folder : string)
  (c : SessionCache)
  (Hfound : scalar_one_or_none (select_where rows sid folder) = Ok (Some c))
  (Hkind : same_kind utcnow (cached_at c) = true) :
  let answer := cached_summary (Some rows) fs utcnow sid folder in
  ((exists s, answer = Ok (Some s)) <-> valid utcnow fs folder sid c)
  /\ (~ valid utcnow fs folder sid c -> answer = Ok None)
  /\ (forall s, answer = Ok (Some s) ->
                ss_id s = session_id c
                /\ ss_project_folder s = project_folder c
                /\ ss_summary s = summary c
                /\ ss_size_bytes s = size_bytes c)
  /\ (forall f f' : file, f_stat f = f_stat f' -> hash_of f = hash_of f').
Proof.
  intros answer.
  pose proof (cached_summary_cases rows fs utcnow sid folder c Hfound Hkind)
    as Hcases.
  fold answer in Hcases.
  split; [| split; [| split]].
  - split.
    + intros (s & Hs). destruct Hcases as [(Hv & _) | (_ & Hnone)].
      * exact Hv.
      * rewrite Hnone in Hs. discriminate.
    + intros Hvalid. destruct Hcases as [(_ & s & Hs & _) | (Hnot & _)].
      * now exists s.
      * contradiction.
  - intros Hnot. destruct Hcases as [(Hv & _) | (_ & Hnone)].
    + contradiction.
    + exact Hnone.
  - intros s Hs.
    destruct Hcases as [(_ & s' & Hs' & Hfields) | (_ & Hnone)].
    + rewrite Hs' in Hs. injection Hs as <-. exact Hfields.
    + rewrite Hnone in Hs. discriminate.
  - intros f f' Hst. unfold stat_hash. now rewrite Hst.
Qed.

End CacheFacts.

(** Two minutes after the row was written, with the file as it was. *)
Lemma cached_summary_valid_iff_witness :
  let utcnow := naive (wall (utc 2025 1 15 10 2)) in
  exists s,
    SessionService.get_cached_summary sample_digest sample_str_float
      "/home/dev/.claude/projects" (Some [sample_row]) sample_fs utcnow
      "s1" "-home-dev-app" = Ok (Some s).
Proof.
  intros utcnow.
  apply (cached_summary_valid_iff sample_digest sample_str_float
           "/home/dev/.claude/projects" [sample_row] sample_fs utcnow
           "s1" "-home-dev-app" sample_row eq_refl eq_refl).
  split.
  - vm_compute. discriminate.
  - eexists. split; vm_compute; reflexivity.
Defined.

(* ===================================================================== *)
(** ** Pricing: bounds and monotonicity *)
(* ===================================================================== *)

Lemma inject_Z_sub (x y : Z) : (inject_Z (x - y) == inject_Z x - inject_Z y)%Q.
Proof. unfold Z.sub. rewrite inject_Z_plus, inject_Z_opp. reflexivity. Qed.

Ltac z2q :=
  repeat match goal with
         | H : (_ <= _)%Z |- _ => rewrite Zle_Qle in H
         | H : (_ < _)%Z |- _ => rewrite Zlt_Qlt in H
         end;
  rewrite ?inject_Z_sub, ?inject_Z_plus in *.

Ltac qabs :=
  change (inject_Z 0) with 0%Q in *;
  repeat match goal with
         | H : ?T |- _ =>
             lazymatch T with
             | (_ <= _)%Q => revert H
             | (_ < _)%Q => revert H
             | _ => clear H
             end
         end;
  repeat match goal with
         | |- context [inject_Z ?z] => generalize (inject_Z z); intro
         | |- context [rate_or_zero ?z] => generalize (rate_or_zero z); intro
         end;
  intros.

Lemma tiered_cost_cases (total : Z) (base tiered : option Q) (thr : Z) :
  (total <= 0 /\ calculate_tiered_cost total base tiered thr = 0%Q)
  \/ (0 < total /\ thr < total /\ exists tp, tiered = Some tp
      /\ (calculate_tiered_cost total base tiered thr
          == inject_Z thr * rate_or_zero base
             + (inject_Z total - inject_Z thr) * tp)%Q)
  \/ (0 < total /\ (total <= thr \/ tiered = None)
      /\ (calculate_tiered_cost total base tiered thr
          == inject_Z total * rate_or_zero base)%Q).
Proof.
  unfold calculate_tiered_cost.
  destruct (Z.leb_spec total 0); [left; auto |].
  right. destruct (Z.gtb_spec total thr).
  - destruct tiered as [tp |].
    + left. repeat split; try lia. exists tp. split; [reflexivity |].
      rewrite Z.min_r, Z.max_r by lia.
      destruct base; simpl; rewrite inject_Z_sub; ring.
    + right. repeat split; auto. destruct base; simpl; ring.
  - right. repeat split; try lia. destruct base; simpl; ring.
Qed.

Ltac tiered_cases a base tiered thr H :=
  destruct (tiered_cost_cases a base tiered thr)
    as [(? & H) | [(? & ? & ? & ? & H) | (? & [? | ?] & H)]].

Lemma tiered_cost_nonneg (base tiered : option Q) (thr a : Z) :
  (0 <= rate_or_zero base)%Q -> (0 <= rate_or_zero tiered)%Q ->
  0 <= thr ->
  (0 <= calculate_tiered_cost a base tiered thr)%Q.
Proof.
  intros Hb Ht Hthr.
  tiered_cases a base tiered thr Ea; rewrite Ea; subst;
    simpl in Ht; z2q; qabs; nra.
Qed.

(** X1. With non-negative rates and a non-negative threshold,
    [calculate_tiered_cost] is never negative and never decreases when the
    token count grows. *)
Theorem tiered_cost_monotone (base tiered : option Q) (thr a b : Z) :
  (0 <= rate_or_zero base)%Q -> (0 <= rate_or_zero tiered)%Q ->
  0 <= thr -> a <= b ->
  (0 <= calculate_tiered_cost a base tiered thr)%Q
  /\ (calculate_tiered_cost a base tiered thr
      <= calculate_tiered_cost b base tiered thr)%Q.
Proof.
  intros Hb Ht Hthr Hab.
  tiered_cases a base tiered thr Ea; tiered_cases b base tiered thr Eb;
    rewrite Ea, Eb; try lia; subst; try congruence;
    repeat match goal with
           | H : Some _ = Some _ |- _ => injection H as <-
           end;
    simpl in Ht; z2q; qabs; split; nra.
Qed.

Lemma tiered_cost_monotone_witness :
  (0 <= calculate_tiered_cost 150000 (Some (3 # 1000000))
          (Some (6 # 1000000)) 200000)%Q
  /\ (calculate_tiered_cost 150000 (Some (3 # 1000000))
        (Some (6 # 1000000)) 200000
      <= calculate_tiered_cost 250000 (Some (3 # 1000000))
           (Some (6 # 1000000)) 200000)%Q.
Proof.
  apply tiered_cost_monotone; simpl; try lia; discriminate.
Defined.

Lemma first_match_In {V} (f : string -> bool) (table : dict V) (v : V) :
  first_match f table = Some v -> exists k, In (k, v) table /\ f k = true.
Proof.
  induction table as [| [k v'] t IH]; simpl; [discriminate |].
  destruct (f k) eqn:Hf.
  - intros H. injection H as <-. exists k. auto.
  - intros H. destruct (IH H) as (k' & Hin & Hk). exists k'. auto.
Qed.

Lemma first_match_found {V} (f : string -> bool) (table : dict V) (k : string)
  (v : V) :
  In (k, v) table -> f k = true -> first_match f table <> None.
Proof.
  induction table as [| [k' v'] t IH]; simpl; [contradiction |].
  intros [Heq | Hin] Hf.
  - injection Heq as -> ->. rewrite Hf. discriminate.
  - destruct (f k'); [discriminate | now apply IH].
Qed.

Lemma first_some_In {A B} (f : A -> option B) (l : list A) (y : B) :
  first_some f l = Some y -> exists x, In x l /\ f x = Some y.
Proof.
  induction l as [| x l IH]; simpl; [discriminate |].
  destruct (f x) as [y' |] eqn:Hf.
  - intros H. injection H as <-. exists x. auto.
  - intros H. destruct (IH H) as (x' & Hin & Hx). exists x'. auto.
Qed.

Lemma get_model_pricing_in_table (m : string) (p : pricing) :
  get_model_pricing m = Some p -> exists key, In (key, p) MODEL_PRICING.
Proof.
  unfold get_model_pricing.
  destruct (get MODEL_PRICING m) as [p0 |] eqn:H1.
  { intros H. injection H as <-. exists m. now apply In_get. }
  destruct (first_some _ PROVIDER_PREFIXES) as [p0 |] eqn:H2.
  { intros H. injection H as <-.
    apply first_some_In in H2 as (prefix & _ & Hget).
    apply In_get in Hget. eexists. exact Hget. }
  destruct (first_match _ MODEL_PRICING) as [p0 |] eqn:H3.
  { intros H. injection H as <-.
    apply first_match_In in H3 as (k & Hin & _). now exists k. }
  intros H. apply first_match_In in H as (k & Hin & _). now exists k.
Qed.

Lemma table_rates_ok :
  forall key p, In (key, p) MODEL_PRICING -> rates_ok p = true.
Proof.
  assert (H : forallb (fun kv => rates_ok (snd kv)) MODEL_PRICING = true)
    by (vm_compute; reflexivity).
  rewrite forallb_forall in H. intros key p Hin. exact (H (key, p) Hin).
Qed.

Lemma rate_pair_ok_spec (p : pricing) (base tiered : string) :
  rate_pair_ok p base tiered = true ->
  (0 <= rate_or_zero (get p base))%Q
  /\ (0 <= rate_or_zero (get p tiered))%Q
  /\ (forall tp, get p tiered = Some tp -> rate_or_zero (get p base) <= tp)%Q.
Proof.
  unfold rate_pair_ok. rewrite andb_true_iff, Qle_bool_iff.
  intros [Hb Ht]. split; [exact Hb |].
  destruct (get p tiered) as [tp |]; simpl.
  - apply Qle_bool_iff in Ht.
    split; [apply Qle_trans with (y := rate_or_zero (get p base)); assumption |].
    intros tp' H. now injection H as <-.
  - split; [apply Qle_refl | discriminate].
Qed.

(** X2. [calculate_cost] is never negative, whatever the token counts
    (negative ones included) and whatever the model name: every table of
    [MODEL_PRICING] holds non-negative rates only. *)
Theorem calculate_cost_nonnegative (i o cc cr : Z) (model : option string) :
  (0 <= calculate_cost i o cc cr model)%Q.
Proof.
  unfold calculate_cost. destruct model as [m |]; [| apply Qle_refl].
  destruct (get_model_pricing m) as [p |] eqn:Hp; [| apply Qle_refl].
  apply get_model_pricing_in_table in Hp as (key & Hin).
  apply table_rates_ok in Hin. unfold rates_ok in Hin.
  rewrite !andb_true_iff in Hin. destruct Hin as [[[H1 H2] H3] H4].
  apply rate_pair_ok_spec in H1 as (B1 & T1 & _), H2 as (B2 & T2 & _),
    H3 as (B3 & T3 & _), H4 as (B4 & T4 & _).
  assert (Hthr : 0 <= TIERED_THRESHOLD) by (unfold TIERED_THRESHOLD; lia).
  pose proof (tiered_cost_nonneg _ _ _ i B1 T1 Hthr).
  pose proof (tiered_cost_nonneg _ _ _ o B2 T2 Hthr).
  pose proof (tiered_cost_nonneg _ _ _ cc B3 T3 Hthr).
  pose proof (tiered_cost_nonneg _ _ _ cr B4 T4 Hthr).
  cbv zeta. lra.
Qed.

(** X4. A model name that contains a name of [get_supported_models], or
    is contained in one (the empty name is), always resolves to a pricing
    table, and every table [get_model_pricing] returns is one of
    [MODEL_PRICING]. *)
Theorem get_model_pricing_resolves (m key : string) :
  In key get_supported_models ->
  contains key m || contains m key = true ->
  exists key' p',
    get_model_pricing m = Some p' /\ In (key', p') MODEL_PRICING.
Proof.
  intros Hkey Hc.
  apply in_map_iff in Hkey as ([key0 p] & Hfst & Hin).
  cbn [fst] in Hfst. subst key0.
  assert (Hsome : exists p', get_model_pricing m = Some p');
    [| destruct Hsome as (p' & Hp');
       destruct (get_model_pricing_in_table m p' Hp') as (key' & Hin');
       now exists key', p'].
  unfold get_model_pricing.
  destruct (get MODEL_PRICING m); [eauto |].
  destruct (first_some _ _); [eauto |].
  destruct (first_match _ MODEL_PRICING) eqn:H3; [eauto |].
  destruct (first_match (fun k => contains k m || contains m k) MODEL_PRICING)
    eqn:H4; [eauto |].
  exfalso.
  exact (first_match_found (fun k => contains k m || contains m k)
           MODEL_PRICING key p Hin Hc H4).
Qed.

Lemma get_model_pricing_resolves_witness :
  exists key' p',
    get_model_pricing "us.claude-3-opus-20240229-v1" = Some p'
    /\ In (key', p') MODEL_PRICING.
Proof.
  apply (get_model_pricing_resolves _ "claude-3-opus-20240229").
  - vm_compute. tauto.
  - vm_compute. reflexivity.
Defined.

(* ===================================================================== *)
(** ** Loader: damaged lines, provenance and order *)
(* ===================================================================== *)

Section SortedFacts.

Context {A : Type} (key : A -> Z).

Local Abbreviation le := (fun a b : A => key a <= key b).
Local Abbreviation leb := (fun a b : A => key a <=? key b).

Lemma insert_asc_sorted (x : A) (l : list A) :
  StronglySorted le l -> StronglySorted le (insert_asc leb x l).
Proof.
  induction l as [| y l IH]; simpl; intros Hs.
  - repeat constructor.
  - apply StronglySorted_inv in Hs as [Hs Hy].
    destruct (Z.leb_spec (key x) (key y)) as [Hle | Hgt].
    + constructor; [now constructor |].
      constructor; [exact Hle |].
      eapply Forall_impl; [| exact Hy]. cbv beta. intros; lia.
    + constructor; [now apply IH |].
      apply (Permutation_Forall (Permutation_sym (insert_asc_perm leb x l))).
      constructor; [lia | exact Hy].
Qed.

Lemma sorted_asc_sorted (l : list A) : StronglySorted le (sorted_asc leb l).
Proof.
  induction l as [| x l IH]; simpl; [constructor |].
  now apply insert_asc_sorted.
Qed.

End SortedFacts.

Lemma forallb_same_kind_uniform (e0 : LoadedUsageEntry)
  (es : list LoadedUsageEntry) :
  In e0 es ->
  forallb (same_kind_as (timestamp e0)) es = true <-> uniform es.
Proof.
  intros Hin. rewrite forallb_forall. unfold same_kind_as, uniform. split.
  - intros H a b Ha Hb.
    apply (same_kind_trans (timestamp e0)); now apply H.
  - intros H e He. now apply H.
Qed.

Section LoaderOrder.

Variable parse_time : string -> result datetime.

Lemma parse_lines_app (pf st : string) (ls1 ls2 : list line) :
  forall acc,
    parse_lines parse_time pf st (ls1 ++ ls2) acc
    = if existsb
           (fun l => match parse_line parse_time pf st l with
                     | Abort => true
                     | _ => false
                     end) ls1
      then parse_lines parse_time pf st ls1 acc
      else parse_lines parse_time pf st ls2
             (parse_lines parse_time pf st ls1 acc).
Proof.
  induction ls1 as [| l ls1 IH]; intros acc; simpl; [reflexivity |].
  destruct (parse_line parse_time pf st l); simpl.
  - apply IH.
  - apply IH.
  - reflexivity.
Qed.

Lemma parse_lines_cons_abort (pf st : string) (ls1 ls2 : list line)
  (acc : list LoadedUsageEntry) :
  parse_lines parse_time pf st (ls1 ++ NotAnObject :: ls2) acc
  = parse_lines parse_time pf st ls1 acc.
Proof.
  rewrite parse_lines_app. destruct (existsb _ ls1); reflexivity.
Qed.

Lemma parse_lines_cons_continue (pf st : string) (l : line)
  (ls1 ls2 : list line) (acc : list LoadedUsageEntry) :
  parse_line parse_time pf st l = Continue ->
  parse_lines parse_time pf st (ls1 ++ l :: ls2) acc
  = parse_lines parse_time pf st (ls1 ++ ls2) acc.
Proof.
  intros Hl. rewrite !parse_lines_app. simpl. now rewrite Hl.
Qed.

End LoaderOrder.

(** X5. In [parse_usage_from_jsonl] a blank line or a line that is not
    JSON changes nothing, whereas a line that decodes to something other
    than an object ends the reading of the file: the entries before it are
    kept, every record after it is lost. *)
Theorem loader_skips_and_stops (parse_time : string -> result datetime)
  (pf st : string) (before after : list line) :
  parse_usage_from_jsonl parse_time
    (mkFile pf st (Some (before ++ Blank :: after)))
  = parse_usage_from_jsonl parse_time (mkFile pf st (Some (before ++ after)))
  /\ parse_usage_from_jsonl parse_time
       (mkFile pf st (Some (before ++ Undecodable :: after)))
     = parse_usage_from_jsonl parse_time
         (mkFile pf st (Some (before ++ after)))
  /\ parse_usage_from_jsonl parse_time
       (mkFile pf st (Some (before ++ NotAnObject :: after)))
     = parse_usage_from_jsonl parse_time (mkFile pf st (Some before)).
Proof.
  unfold parse_usage_from_jsonl. cbn [lines parent_name stem].
  split; [| split].
  - now apply parse_lines_cons_continue.
  - now apply parse_lines_cons_continue.
  - apply parse_lines_cons_abort.
Qed.

Lemma parse_lines_origin (parse_time : string -> result datetime)
  (pf st : string) (ls : list line) :
  forall acc,
    Forall (fun e => In e acc
                     \/ exists l, In l ls
                                  /\ parse_line parse_time pf st l = Append e)
      (parse_lines parse_time pf st ls acc).
Proof.
  induction ls as [| l ls IH]; intros acc; simpl.
  - apply Forall_forall. auto.
  - destruct (parse_line parse_time pf st l) as [| e0 |] eqn:Hl.
    + eapply Forall_impl; [| apply IH].
      intros e [Hacc | (l' & Hin & Hl')]; [now left |].
      right. exists l'. auto.
    + eapply Forall_impl; [| apply IH].
      intros e [Hacc | (l' & Hin & Hl')].
      * apply in_app_or in Hacc as [Hacc | [<- | []]]; [now left |].
        right. exists l. auto.
      * right. exists l'. auto.
    + apply Forall_forall. auto.
Qed.

(** X6. Every entry loaded from a file comes from one record of the file:
    it carries the name of the file's directory as its project, the four
    token counts, the cost and the version of that record, and as its
    session id the [sessionId] of that record when it is a non-empty
    string and the stem of the file otherwise; the session id of an entry
    is never absent. *)
Theorem loader_attributes_entries (parse_time : string -> result datetime)
  (f : jsonl_file) (e : LoadedUsageEntry) :
  In e (parse_usage_from_jsonl parse_time f) ->
  exists ls obj,
    lines f = Some ls
    /\ In (Object obj) ls
    /\ project_path e = parent_name f
    /\ entry_counts e = record_counts obj
    /\ cost_usd e = o_costUSD obj
    /\ version e = o_version obj
    /\ exists sid,
         session_id e = Some sid
         /\ ((o_sessionId obj = Some sid /\ sid <> EmptyString)
             \/ ((o_sessionId obj = None
                  \/ o_sessionId obj = Some EmptyString)
                 /\ sid = stem f)).
Proof.
  unfold parse_usage_from_jsonl.
  destruct (lines f) as [ls |] eqn:Hls; [| contradiction].
  intros Hin.
  pose proof (parse_lines_origin parse_time (parent_name f) (stem f) ls [])
    as Horigin.
  rewrite Forall_forall in Horigin.
  destruct (Horigin e Hin) as [[] | (l & Hl & Hparse)].
  destruct (parse_line_append parse_time _ _ l e Hparse)
    as (obj & -> & Hcounts & _).
  exists ls, obj. split; [reflexivity |]. split; [exact Hl |].
  simpl in Hparse.
  destruct (is_assistant (o_type obj)); simpl in Hparse; [| discriminate].
  destruct (match m_usage _ with Some u => u | None => [] end);
    [discriminate |].
  destruct (_ && _)%bool; [discriminate |].
  destruct (parse_time _); [| discriminate].
  injection Hparse as Hparse. rewrite <- Hparse in Hcounts |- *.
  cbn [project_path session_id cost_usd version].
  split; [reflexivity |]. split; [exact Hcounts |].
  split; [reflexivity |]. split; [reflexivity |].
  destruct (o_sessionId obj) as [[| c r] |]; cbn [or_else].
  - exists (stem f). split; [reflexivity |]. right. auto.
  - exists (String c r). split; [reflexivity |]. left.
    split; [reflexivity | discriminate].
  - exists (stem f). split; [reflexivity |]. right. auto.
Qed.

(** A record that names its session and one that does not, in the file
    [a.jsonl]: the entries belong to the sessions [s1] and [a]. *)
Lemma loader_attributes_entries_witness :
  let f := {| parent_name := "-home-dev-app"; stem := "a";
              lines := Some [ record_with 12 0;
                              record_at "2025-01-15T10:00:00.000Z" 5 ] |} in
  exists e1 e2,
    parse_usage_from_jsonl fromisoformat_basic f = [e1; e2]
    /\ project_path e1 = "-home-dev-app"%string
    /\ session_id e1 = Some "s1"%string
    /\ session_id e2 = Some "a"%string.
Proof.
  intros f.
  destruct (parse_usage_from_jsonl fromisoformat_basic f)
    as [| e1 [| e2 [| e3 l]]] eqn:Hp;
    try (vm_compute in Hp; discriminate).
  exists e1, e2. split; [reflexivity |].
  destruct (loader_attributes_entries fromisoformat_basic f e1)
    as (ls & obj & _ & _ & Hpp & _).
  { rewrite Hp. now left. }
  split; [exact Hpp |].
  vm_compute in Hp. injection Hp as <- <-. split; reflexivity.
Defined.

(** X7. [get_all_usage_entries] answers exactly when the loaded timestamps
    are all naive or all aware, and raises [TypeError] otherwise; its
    answer holds the entries of all files, each once, in ascending order of
    their timestamps. *)
Theorem loader_entries_ascending (parse_time : string -> result datetime)
  (files : list jsonl_file) :
  let loaded := flat_map (parse_usage_from_jsonl parse_time) files in
  (uniform loaded ->
   exists es, get_all_usage_entries parse_time files = Ok es
              /\ Permutation loaded es /\ ascending es)
  /\ (~ uniform loaded ->
      get_all_usage_entries parse_time files = Raise TypeError).
Proof.
  intros loaded. unfold get_all_usage_entries. fold loaded.
  generalize loaded. clear loaded. intros loaded.
  unfold sorted_by_timestamp. destruct loaded as [| e0 rest].
  - split.
    + intros _. exists []. repeat split; constructor.
    + intros H. exfalso. apply H. intros a b [].
  - pose proof (forallb_same_kind_uniform e0 (e0 :: rest) (or_introl eq_refl))
      as Hu.
    destruct (forallb (same_kind_as (timestamp e0)) (e0 :: rest)).
    + split; [| intros H; exfalso; apply H, Hu; reflexivity].
      intros _. eexists. split; [reflexivity |]. split.
      * apply Permutation_sym, sorted_asc_perm.
      * apply (sorted_asc_sorted (fun e => instant (timestamp e))).
    + split; [| reflexivity].
      intros H. apply Hu in H. discriminate.
Qed.

Lemma loader_entries_ascending_witness :
  exists es,
    get_all_usage_entries fromisoformat_basic two_files = Ok es
    /\ map input_tokens es = [5; 7]
    /\ ascending es.
Proof.
  destruct (loader_entries_ascending fromisoformat_basic two_files)
    as (Hok & _).
  destruct Hok as (es & Hes & _ & Hasc).
  { intros a b Ha Hb. vm_compute in Ha, Hb.
    destruct Ha as [<- | [<- | []]]; destruct Hb as [<- | [<- | []]];
      reflexivity. }
  exists es. split; [exact Hes |]. split; [| exact Hasc].
  vm_compute in Hes. injection Hes as <-. reflexivity.
Defined.

(* ===================================================================== *)
(** ** Reports: order of the rows and conservation of tokens *)
(* ===================================================================== *)

Lemma ltb_lt (a b : string) : String.ltb a b = true <-> String_as_OT.lt a b.
Proof.
  unfold String.ltb. rewrite <- String_as_OT.cmp_lt. unfold String_as_OT.cmp.
  destruct (String.compare a b); split; congruence.
Qed.

Lemma ltb_trans (a b c : string) :
  String.ltb a b = true -> String.ltb b c = true -> String.ltb a c = true.
Proof. rewrite !ltb_lt. apply String_as_OT.lt_trans. Qed.

Lemma leb_ltb (a b : string) :
  String.leb a b = true -> a <> b -> String.ltb a b = true.
Proof.
  unfold String.leb, String.ltb. intros H Hne.
  destruct (String.compare a b) eqn:Hc; try congruence.
  apply String.compare_eq_iff in Hc. contradiction.
Qed.

Lemma leb_false_ltb (a b : string) :
  String.leb a b = false -> String.ltb b a = true.
Proof.
  unfold String.leb, String.ltb. rewrite (String.compare_antisym a b).
  destruct (String.compare b a); simpl; congruence.
Qed.

Lemma ltb_leb (a b : string) : String.ltb a b = true -> String.leb a b = true.
Proof.
  unfold String.leb, String.ltb. destruct (String.compare a b); congruence.
Qed.

Lemma leb_trans (a b c : string) :
  String.leb a b = true -> String.leb b c = true -> String.leb a c = true.
Proof.
  intros Hab Hbc.
  destruct (string_dec a b) as [-> | Hne]; [exact Hbc |].
  destruct (string_dec b c) as [<- | Hne']; [exact Hab |].
  apply ltb_leb. eapply ltb_trans; apply leb_ltb; eassumption.
Qed.

Section DescendingFacts.

Context {A : Type} (key : A -> string).

Local Abbreviation leb := (fun a b : A => String.leb (key a) (key b)).

Lemma insert_desc_strict (x : A) (l : list A) :
  ~ In (key x) (map key l) ->
  newest_first key l -> newest_first key (insert_desc leb x l).
Proof.
  unfold newest_first.
  induction l as [| y l IH]; simpl; intros Hnew Hs.
  - repeat constructor.
  - apply StronglySorted_inv in Hs as [Hs Hy].
    destruct (String.leb (key y) (key x)) eqn:Hle.
    + assert (Hyx : String.ltb (key y) (key x) = true).
      { apply leb_ltb; [exact Hle |]. intros Heq. apply Hnew. now left. }
      constructor; [now constructor |].
      constructor; [exact Hyx |].
      eapply Forall_impl; [| exact Hy]. intros z Hz.
      now apply (ltb_trans _ (key y)).
    + constructor; [apply IH; [tauto | exact Hs] |].
      apply (Permutation_Forall (Permutation_sym (insert_desc_perm leb x l))).
      constructor; [now apply leb_false_ltb | exact Hy].
Qed.

Lemma sorted_desc_strict (l : list A) :
  NoDup (map key l) -> newest_first key (sorted_desc leb l).
Proof.
  induction l as [| x l IH]; simpl; intros Hnd.
  - constructor.
  - inversion Hnd as [| ? ? Hnotin Hnd']; subst.
    apply insert_desc_strict; [| now apply IH].
    intros Hin. apply Hnotin.
    apply (Permutation_in _ (Permutation_map key (sorted_desc_perm leb l))).
    exact Hin.
Qed.

Lemma insert_desc_weak (x : A) (l : list A) :
  latest_first key l -> latest_first key (insert_desc leb x l).
Proof.
  unfold latest_first.
  induction l as [| y l IH]; simpl; intros Hs.
  - repeat constructor.
  - apply StronglySorted_inv in Hs as [Hs Hy].
    destruct (String.leb (key y) (key x)) eqn:Hle.
    + constructor; [now constructor |].
      constructor; [exact Hle |].
      eapply Forall_impl; [| exact Hy]. intros z Hz.
      now apply (leb_trans _ (key y)).
    + constructor; [now apply IH |].
      apply (Permutation_Forall (Permutation_sym (insert_desc_perm leb x l))).
      constructor; [now apply ltb_leb, leb_false_ltb | exact Hy].
Qed.

Lemma sorted_desc_weak (l : list A) : latest_first key (sorted_desc leb l).
Proof.
  induction l as [| x l IH]; simpl; [constructor |].
  now apply insert_desc_weak.
Qed.

End DescendingFacts.

Lemma StronglySorted_map {A B} (f : A -> B) (R : B -> B -> Prop)
  (l : list A) :
  StronglySorted (fun a b => R (f a) (f b)) l -> StronglySorted R (map f l).
Proof.
  induction 1 as [| x l Hs IH Hx]; simpl; constructor; [exact IH |].
  apply Forall_map. exact Hx.
Qed.

(** *** Sums *)

Lemma fold_add_shift (l : list Z) (a : Z) :
  fold_left Z.add l a = a + sum_int l.
Proof.
  unfold sum_int. revert a. induction l as [| x l IH]; intros a; simpl.
  - lia.
  - rewrite (IH (a + x)), (IH x). lia.
Qed.

Lemma sum_int_cons (x : Z) (l : list Z) : sum_int (x :: l) = x + sum_int l.
Proof. unfold sum_int at 1. simpl. apply fold_add_shift. Qed.

Lemma sum_int_app (l1 l2 : list Z) :
  sum_int (l1 ++ l2) = sum_int l1 + sum_int l2.
Proof.
  induction l1 as [| x l1 IH]; [reflexivity |].
  simpl app. rewrite !sum_int_cons, IH. lia.
Qed.

Lemma sum_int_perm (l1 l2 : list Z) :
  Permutation l1 l2 -> sum_int l1 = sum_int l2.
Proof.
  induction 1; rewrite ?sum_int_cons in *; try lia.
Qed.

Lemma sum_int_flat_map {A B} (f : B -> Z) (g : A -> list B) (l : list A) :
  sum_int (map (fun a => sum_int (map f (g a))) l)
  = sum_int (map f (flat_map g l)).
Proof.
  induction l as [| a l IH]; [reflexivity |].
  simpl. rewrite sum_int_cons, map_app, sum_int_app, IH. reflexivity.
Qed.

(** *** Groups *)

Section GroupPartition.

Variable key : LoadedUsageEntry -> string.

Lemma update_append_perm (d : dict (list LoadedUsageEntry))
  (e : LoadedUsageEntry) (k : string) :
  Permutation (flat_map snd (update [] (fun l => l ++ [e]) d k))
    (flat_map snd d ++ [e]).
Proof.
  induction d as [| [k0 l0] d IH]; simpl.
  - apply Permutation_refl.
  - destruct (String.eqb k0 k); simpl.
    + rewrite <- !app_assoc. apply Permutation_app_head.
      apply Permutation_app_comm.
    + rewrite <- !app_assoc. now apply Permutation_app_head.
Qed.

Lemma group_by_fold_perm (entries : list LoadedUsageEntry) :
  forall d,
    Permutation
      (flat_map snd
         (fold_left
            (fun d entry => update [] (fun l => l ++ [entry]) d (key entry))
            entries d))
      (flat_map snd d ++ entries).
Proof.
  induction entries as [| e es IH]; intros d; simpl.
  - now rewrite app_nil_r.
  - eapply perm_trans; [apply IH |].
    eapply perm_trans;
      [apply Permutation_app_tail, update_append_perm |].
    now rewrite <- app_assoc.
Qed.

(** The groups hold every entry exactly once. *)
Lemma group_by_perm (entries : list LoadedUsageEntry) :
  Permutation (flat_map snd (group_by key entries)) entries.
Proof. apply (group_by_fold_perm entries []). Qed.

Lemma group_by_NoDup (entries : list LoadedUsageEntry) :
  NoDup (map fst (group_by key entries)).
Proof.
  change (map fst (group_by key entries)) with (keys (group_by key entries)).
  rewrite group_by_keys. apply first_seen_NoDup.
Qed.

(** The sum of a field over the rows made of the groups, in any order of
    the groups, is its sum over the entries. *)
Lemma grouped_sum (f : LoadedUsageEntry -> Z)
  (entries : list LoadedUsageEntry)
  (groups : list (string * list LoadedUsageEntry)) :
  Permutation groups (group_by key entries) ->
  sum_int (map (fun item => sum_int (map f (snd item))) groups)
  = sum_int (map f entries).
Proof.
  intros Hp. rewrite sum_int_flat_map. apply sum_int_perm.
  apply Permutation_map.
  eapply perm_trans; [| apply group_by_perm].
  apply Permutation_flat_map. exact Hp.
Qed.

End GroupPartition.

Lemma daily_row_snd (item : string * list LoadedUsageEntry) :
  d_date (daily_row item) = fst item
  /\ d_input_tokens (daily_row item) = sum_int (map input_tokens (snd item))
  /\ d_output_tokens (daily_row item)
     = sum_int (map output_tokens (snd item))
  /\ d_cache_creation_tokens (daily_row item)
     = sum_int (map cache_creation_tokens (snd item))
  /\ d_cache_read_tokens (daily_row item)
     = sum_int (map cache_read_tokens (snd item)).
Proof. destruct item. repeat split. Qed.

Lemma monthly_row_snd (item : string * list LoadedUsageEntry) :
  mo_month (monthly_row item) = fst item
  /\ mo_input_tokens (monthly_row item)
     = sum_int (map input_tokens (snd item))
  /\ mo_output_tokens (monthly_row item)
     = sum_int (map output_tokens (snd item))
  /\ mo_cache_creation_tokens (monthly_row item)
     = sum_int (map cache_creation_tokens (snd item))
  /\ mo_cache_read_tokens (monthly_row item)
     = sum_int (map cache_read_tokens (snd item)).
Proof. destruct item. repeat split. Qed.

Lemma daily_sum (f : LoadedUsageEntry -> Z) (g : DailyUsage -> Z)
  (entries : list LoadedUsageEntry) :
  (forall item, g (daily_row item) = sum_int (map f (snd item))) ->
  sum_int (map g (aggregate_by_daily entries)) = sum_int (map f entries).
Proof.
  intros Hg. unfold aggregate_by_daily. rewrite map_map.
  rewrite (map_ext _ _ Hg).
  apply (grouped_sum date_key). apply sorted_desc_perm.
Qed.

Lemma monthly_sum (f : LoadedUsageEntry -> Z) (g : MonthlyUsage -> Z)
  (entries : list LoadedUsageEntry) :
  (forall item, g (monthly_row item) = sum_int (map f (snd item))) ->
  sum_int (map g (aggregate_by_monthly entries)) = sum_int (map f entries).
Proof.
  intros Hg. unfold aggregate_by_monthly. rewrite map_map.
  rewrite (map_ext _ _ Hg).
  apply (grouped_sum month_key). apply sorted_desc_perm.
Qed.

Lemma StronglySorted_impl {A} (R R' : A -> A -> Prop) (l : list A) :
  (forall a b, R a b -> R' a b) -> StronglySorted R l -> StronglySorted R' l.
Proof.
  intros Himp. induction 1 as [| x l Hs IH Hx]; constructor; [exact IH |].
  eapply Forall_impl; [| exact Hx]. intros b. apply Himp.
Qed.

Lemma rows_newest_first {R} (row : string * list LoadedUsageEntry -> R)
  (name : R -> string) (key : LoadedUsageEntry -> string)
  (entries : list LoadedUsageEntry) :
  (forall item, name (row item) = fst item) ->
  newest_first name (map row (sorted_desc key_leb (group_by key entries)))
  /\ Permutation
       (map name (map row (sorted_desc key_leb (group_by key entries))))
       (first_seen (map key entries)).
Proof.
  intros Hname. split.
  - apply StronglySorted_map.
    pose proof (sorted_desc_strict (@fst string (list LoadedUsageEntry))
                  (group_by key entries) (group_by_NoDup key entries)) as Hs.
    revert Hs. apply StronglySorted_impl. intros a b.
    now rewrite !Hname.
  - rewrite map_map, (map_ext _ _ Hname), <- group_by_keys.
    apply Permutation_map, sorted_desc_perm.
Qed.

(** X8. The rows of [aggregate_by_daily] come in strictly decreasing order
    of their date strings, one row for each date on which an entry falls;
    the rows of [aggregate_by_monthly] likewise for the months. *)
Theorem daily_and_monthly_rows_newest_first
  (entries : list LoadedUsageEntry) :
  newest_first d_date (aggregate_by_daily entries)
  /\ Permutation (map d_date (aggregate_by_daily entries))
       (first_seen (map date_key entries))
  /\ newest_first mo_month (aggregate_by_monthly entries)
  /\ Permutation (map mo_month (aggregate_by_monthly entries))
       (first_seen (map month_key entries)).
Proof.
  destruct (rows_newest_first daily_row d_date date_key entries) as [H1 H2].
  { intros item. apply daily_row_snd. }
  destruct (rows_newest_first monthly_row mo_month month_key entries)
    as [H3 H4].
  { intros item. apply monthly_row_snd. }
  auto.
Qed.

(** X9. Without a date range the totals of [get_daily_usage], and without
    a month range those of [get_monthly_usage], are the token sums of all
    entries: grouping loses and duplicates nothing. *)
Theorem daily_and_monthly_totals_conserved
  (entries : list LoadedUsageEntry) :
  (exists r, get_daily_usage entries None None = Ok r
             /\ dr_totals r = token_totals entries)
  /\ (exists r, get_monthly_usage entries None None = Ok r
                /\ mr_totals r = token_totals entries).
Proof.
  split; eexists; (split; [reflexivity |]); cbn [dr_totals mr_totals];
    unfold token_totals; f_equal.
  - apply daily_sum. intros item. apply daily_row_snd.
  - apply daily_sum. intros item. apply daily_row_snd.
  - apply daily_sum. intros item. apply daily_row_snd.
  - apply daily_sum. intros item. apply daily_row_snd.
  - apply monthly_sum. intros item. apply monthly_row_snd.
  - apply monthly_sum. intros item. apply monthly_row_snd.
  - apply monthly_sum. intros item. apply monthly_row_snd.
  - apply monthly_sum. intros item. apply monthly_row_snd.
Qed.

(* ===================================================================== *)
(** ** Model breakdowns, session rows and the summary *)
(* ===================================================================== *)

Lemma model_data_get_from (entries : list LoadedUsageEntry)
  (d : dict model_totals) (m : string) :
  get (fold_left
         (fun model_data entry =>
            update zero_totals (add_entry entry) model_data (model entry))
         entries d) m
  = match get d m, partition_of model m entries with
    | None, [] => None
    | None, l => Some (fold_left (fun t e => add_entry e t) l zero_totals)
    | Some t, l => Some (fold_left (fun t e => add_entry e t) l t)
    end.
Proof.
  revert d. induction entries as [| e es IH]; intros d; simpl.
  - destruct (get d m); reflexivity.
  - rewrite IH, get_update.
    destruct (String.eqb_spec (model e) m) as [-> | Hne].
    + destruct (get d m) as [t |]; reflexivity.
    + reflexivity.
Qed.

Lemma add_entries_totals (l : list LoadedUsageEntry) (t : model_totals) :
  let t' := fold_left (fun t e => add_entry e t) l t in
  t_input_tokens t' = t_input_tokens t + sum_int (map input_tokens l)
  /\ t_output_tokens t' = t_output_tokens t + sum_int (map output_tokens l)
  /\ t_cache_creation_tokens t'
     = t_cache_creation_tokens t + sum_int (map cache_creation_tokens l)
  /\ t_cache_read_tokens t'
     = t_cache_read_tokens t + sum_int (map cache_read_tokens l)
  /\ t_cost t' = fold_left Qplus (map _calculate_entry_cost l) (t_cost t).
Proof.
  revert t. induction l as [| e l IH]; intros t; simpl.
  - unfold sum_int. simpl. repeat split; lia.
  - destruct (IH (add_entry e t)) as (H1 & H2 & H3 & H4 & H5).
    rewrite H1, H2, H3, H4, H5, !sum_int_cons. simpl. repeat split; lia.
Qed.

(** X10. Each row of [_aggregate_model_breakdowns] carries the token sums
    and the cost of exactly the entries of its model, and there is a row
    only for a model that has an entry. *)
Theorem model_breakdown_subtotals (entries : list LoadedUsageEntry)
  (b : ModelBreakdown) :
  In b (_aggregate_model_breakdowns entries) ->
  let own := partition_of model (mb_model b) entries in
  own <> []
  /\ mb_input_tokens b = sum_int (map input_tokens own)
  /\ mb_output_tokens b = sum_int (map output_tokens own)
  /\ mb_cache_creation_tokens b = sum_int (map cache_creation_tokens own)
  /\ mb_cache_read_tokens b = sum_int (map cache_read_tokens own)
  /\ mb_cost b = entry_costs own.
Proof.
  unfold _aggregate_model_breakdowns. rewrite in_map_iff.
  intros ([m data] & <- & Hin). cbn [mb_model mb_input_tokens
    mb_output_tokens mb_cache_creation_tokens mb_cache_read_tokens mb_cost].
  apply get_In in Hin.
  2:{ unfold model_data_of.
      rewrite (keys_fold_left_nil zero_totals add_entry model).
      apply first_seen_NoDup. }
  unfold model_data_of in Hin. rewrite model_data_get_from in Hin.
  cbn [get] in Hin.
  destruct (partition_of model m entries) as [| e0 own] eqn:Hown;
    [discriminate |].
  injection Hin as <-. split; [discriminate |].
  destruct (add_entries_totals (e0 :: own) zero_totals)
    as (H1 & H2 & H3 & H4 & H5).
  cbn [fold_left] in H1, H2, H3, H4, H5.
  rewrite H1, H2, H3, H4, H5. cbn [zero_totals t_input_tokens
    t_output_tokens t_cache_creation_tokens t_cache_read_tokens t_cost].
  repeat split; reflexivity.
Qed.

Lemma model_breakdown_subtotals_witness :
  exists b,
    In b (_aggregate_model_breakdowns three_sessions)
    /\ mb_input_tokens b = 150.
Proof.
  destruct (_aggregate_model_breakdowns three_sessions) as [| b l] eqn:Hb;
    [vm_compute in Hb; discriminate |].
  exists b. split; [now left |].
  destruct (model_breakdown_subtotals three_sessions b) as (_ & Hi & _).
  { rewrite Hb. now left. }
  rewrite Hi. vm_compute in Hb. injection Hb as <- _. reflexivity.
Defined.

(** *** Session keys *)

Lemma contains_colon_cons (c : ascii) (s : string) :
  contains ":" (String c s) = false ->
  Ascii.eqb c ":"%char = false /\ contains ":" s = false.
Proof.
  cbn [contains String.prefix]. rewrite orb_false_iff. intros [Hp Hs].
  split; [| exact Hs].
  destruct (Ascii.eqb_spec c ":"%char) as [-> | Hne]; [| reflexivity].
  simpl in Hp. destruct s; discriminate.
Qed.

Lemma split_colon_key (p s : string) :
  contains ":" p = false -> split_colon (p ++ ":" ++ s) = (p, s).
Proof.
  induction p as [| c p IH]; intros Hc.
  - reflexivity.
  - apply contains_colon_cons in Hc as [Hc Hp].
    cbn [String.append split_colon]. rewrite Hc.
    cbn [String.append] in IH. now rewrite (IH Hp).
Qed.

Lemma split_colon_session_key (e : LoadedUsageEntry) :
  contains ":" (project_path e) = false ->
  split_colon (session_key e) = (project_path e, str_of (session_id e)).
Proof. apply split_colon_key. Qed.

Lemma session_entries_partition (entries : list LoadedUsageEntry)
  (e : LoadedUsageEntry) :
  colon_free entries -> In e entries ->
  partition_of session_key (session_key e) entries
  = session_entries (project_path e) (session_id e) entries.
Proof.
  intros Hfree Hin. unfold partition_of, session_entries.
  apply filter_ext_in. intros e' Hin'.
  unfold colon_free in Hfree. rewrite Forall_forall in Hfree.
  pose proof (split_colon_session_key e (Hfree e Hin)) as He.
  pose proof (split_colon_session_key e' (Hfree e' Hin')) as He'.
  destruct (String.eqb_spec (session_key e') (session_key e)) as [Heq | Hne].
  - rewrite Heq, He in He'. injection He' as <- <-.
    now rewrite !String.eqb_refl.
  - destruct (String.eqb_spec (project_path e') (project_path e))
      as [Hp | Hp]; [| reflexivity].
    destruct (String.eqb_spec (str_of (session_id e'))
                (str_of (session_id e))) as [Hs | Hs]; [| reflexivity].
    exfalso. apply Hne. unfold session_key. now rewrite Hp, Hs.
Qed.

Lemma max_by_timestamp_spec (rest : list LoadedUsageEntry) :
  forall best m,
    max_by_timestamp best rest = Ok m ->
    In m (best :: rest)
    /\ Forall (fun e => instant (timestamp e) <= instant (timestamp m))
         (best :: rest).
Proof.
  induction rest as [| e rest IH]; intros best m; simpl.
  - intros H. injection H as <-. split; [now left |].
    constructor; [lia | constructor].
  - unfold gt. destruct (same_kind _ _); [| discriminate]. cbn [bind].
    intros H. apply IH in H as [Hin Hall].
    apply Forall_cons_iff in Hall as [Hbest Hrest].
    destruct (Z.gtb_spec (instant (timestamp e)) (instant (timestamp best)))
      as [Hgt | Hle].
    + split.
      * destruct Hin as [<- | Hin]; [right; now left | right; now right].
      * constructor; [lia |]. constructor; [exact Hbest | exact Hrest].
    + split.
      * destruct Hin as [<- | Hin]; [now left | right; now right].
      * constructor; [exact Hbest |]. constructor; [lia | exact Hrest].
Qed.

Lemma session_row_fields (k : string) (es : list LoadedUsageEntry)
  (row : SessionUsage) :
  session_row (k, es) = Ok row ->
  split_colon k = (s_project_path row, s_session_id row)
  /\ s_input_tokens row = sum_int (map input_tokens es)
  /\ s_output_tokens row = sum_int (map output_tokens es)
  /\ s_cache_creation_tokens row = sum_int (map cache_creation_tokens es)
  /\ s_cache_read_tokens row = sum_int (map cache_read_tokens es)
  /\ exists m, In m es
               /\ s_last_activity row = date_key m
               /\ Forall (fun e => instant (timestamp e)
                                   <= instant (timestamp m)) es.
Proof.
  unfold session_row. destruct (split_colon k) as [project session].
  destruct es as [| e0 rest]; [discriminate |].
  destruct (max_by_timestamp e0 rest) as [m | ex] eqn:Hm; [| discriminate].
  cbn [bind]. intros H. injection H as <-.
  cbn [s_project_path s_session_id s_input_tokens s_output_tokens
       s_cache_creation_tokens s_cache_read_tokens s_last_activity].
  repeat split; try reflexivity.
  apply max_by_timestamp_spec in Hm as [Hin Hall]. exists m. auto.
Qed.

Lemma aggregate_by_session_rows (entries : list LoadedUsageEntry)
  (rows : list SessionUsage) (row : SessionUsage) :
  aggregate_by_session entries = Ok rows -> In row rows ->
  exists e, In e entries
            /\ session_row
                 (session_key e,
                  partition_of session_key (session_key e) entries)
               = Ok row.
Proof.
  unfold aggregate_by_session.
  destruct (mapM session_row (group_by session_key entries))
    as [made | ex] eqn:Hm; [| discriminate].
  cbn [bind]. intros H Hin. injection H as <-.
  apply sorted_desc_In in Hin.
  apply mapM_ok in Hm.
  destruct (Forall2_In_r _ _ _ _ Hm Hin) as ([k es] & Hkin & Hrow).
  destruct (group_by_In session_key entries k es Hkin) as [Hes Hne].
  destruct es as [| e es']; [contradiction |].
  assert (He : In e (partition_of session_key k entries))
    by (rewrite <- Hes; now left).
  apply filter_In in He as [He Hk]. apply String.eqb_eq in Hk.
  exists e. split; [exact He |]. rewrite Hk, <- Hes. exact Hrow.
Qed.

(** X11. When no project name holds a colon, every row of
    [aggregate_by_session] carries the project and the session id of one of
    the entries, and its four token sums are those of exactly the entries
    of that session of that project. *)
Theorem session_rows_identify_sessions (entries : list LoadedUsageEntry)
  (rows : list SessionUsage) (row : SessionUsage) :
  colon_free entries ->
  aggregate_by_session entries = Ok rows ->
  In row rows ->
  exists e,
    In e entries
    /\ s_project_path row = project_path e
    /\ s_session_id row = str_of (session_id e)
    /\ let own := session_entries (project_path e) (session_id e) entries in
       s_input_tokens row = sum_int (map input_tokens own)
       /\ s_output_tokens row = sum_int (map output_tokens own)
       /\ s_cache_creation_tokens row
          = sum_int (map cache_creation_tokens own)
       /\ s_cache_read_tokens row = sum_int (map cache_read_tokens own).
Proof.
  intros Hfree Hagg Hin.
  destruct (aggregate_by_session_rows entries rows row Hagg Hin)
    as (e & He & Hrow).
  apply session_row_fields in Hrow as (Hsplit & H1 & H2 & H3 & H4 & _).
  rewrite (session_entries_partition entries e Hfree He) in H1, H2, H3, H4.
  unfold colon_free in Hfree. rewrite Forall_forall in Hfree.
  rewrite (split_colon_session_key e (Hfree e He)) in Hsplit.
  injection Hsplit as Hp Hs.
  exists e. cbv zeta. repeat split; auto.
Qed.

Lemma session_rows_identify_sessions_witness :
  exists rows row,
    aggregate_by_session three_sessions = Ok rows
    /\ In row rows
    /\ exists e, In e three_sessions
                 /\ s_project_path row = project_path e
                 /\ s_session_id row = str_of (session_id e).
Proof.
  destruct (aggregate_by_session three_sessions) as [[| row rows] | ex]
    eqn:Hagg; try (vm_compute in Hagg; discriminate).
  exists (row :: rows), row. split; [reflexivity |]. split; [now left |].
  destruct (session_rows_identify_sessions three_sessions (row :: rows) row)
    as (e & He & Hp & Hs & _).
  - repeat constructor.
  - exact Hagg.
  - now left.
  - exists e. auto.
Defined.



(* ===================================================================== *)
(** ** The usage summary *)
(* ===================================================================== *)

Lemma min_datetime_spec (rest : list datetime) :
  forall best m,
    min_datetime best rest = Ok m ->
    In m (best :: rest)
    /\ Forall (fun d => instant m <= instant d) (best :: rest)
    /\ Forall (fun d => same_kind best d = true) rest.
Proof.
  induction rest as [| d rest IH]; intros best m; simpl.
  - intros H. injection H as <-. split; [now left |].
    split; constructor; [lia | constructor].
  - unfold lt. destruct (same_kind d best) eqn:Hk; [| discriminate].
    cbn [bind]. intros H. apply IH in H as (Hin & Hall & Hkind).
    apply Forall_cons_iff in Hall as [Hbest Hrest].
    assert (Hdb : same_kind best d = true).
    { unfold same_kind in *.
      destruct (is_aware d), (is_aware best); try discriminate; reflexivity. }
    destruct (Z.ltb_spec (instant d) (instant best)) as [Hlt | Hge].
    + split; [| split].
      * destruct Hin as [<- | Hin]; [right; now left | right; now right].
      * constructor; [lia |]. constructor; [exact Hbest | exact Hrest].
      * constructor; [exact Hdb |].
        eapply Forall_impl; [| exact Hkind]. intros x Hx.
        apply (same_kind_trans d); [exact Hk | exact Hx].
    + split; [| split].
      * destruct Hin as [<- | Hin]; [now left | right; now right].
      * constructor; [exact Hbest |]. constructor; [lia | exact Hrest].
      * constructor; [exact Hdb | exact Hkind].
Qed.

Lemma max_datetime_spec (rest : list datetime) :
  forall best m,
    max_datetime best rest = Ok m ->
    In m (best :: rest)
    /\ Forall (fun d => instant d <= instant m) (best :: rest).
Proof.
  induction rest as [| d rest IH]; intros best m; simpl.
  - intros H. injection H as <-. split; [now left |].
    constructor; [lia | constructor].
  - unfold gt. destruct (same_kind d best); [| discriminate].
    cbn [bind]. intros H. apply IH in H as (Hin & Hall).
    apply Forall_cons_iff in Hall as [Hbest Hrest].
    destruct (Z.gtb_spec (instant d) (instant best)) as [Hgt | Hle].
    + split.
      * destruct Hin as [<- | Hin]; [right; now left | right; now right].
      * constructor; [lia |]. constructor; [exact Hbest | exact Hrest].
    + split.
      * destruct Hin as [<- | Hin]; [now left | right; now right].
      * constructor; [exact Hbest |]. constructor; [lia | exact Hrest].
Qed.

(** What an answer of [get_usage_summary] tells about a non-empty list of
    entries. *)
Lemma get_usage_summary_ok (e0 : LoadedUsageEntry)
  (rest : list LoadedUsageEntry) (s : UsageSummary) :
  get_usage_summary (e0 :: rest) = Ok s ->
  exists first_date last_date,
    min_datetime (timestamp e0) (map timestamp rest) = Ok first_date
    /\ max_datetime (timestamp e0) (map timestamp rest) = Ok last_date
    /\ s = {| us_total_cost :=
                sum_float (map _calculate_entry_cost (e0 :: rest));
              us_total_input_tokens :=
                sum_int (map input_tokens (e0 :: rest));
              us_total_output_tokens :=
                sum_int (map output_tokens (e0 :: rest));
              us_total_cache_creation_tokens :=
                sum_int (map cache_creation_tokens (e0 :: rest));
              us_total_cache_read_tokens :=
                sum_int (map cache_read_tokens (e0 :: rest));
              us_total_tokens :=
                sum_int (map input_tokens (e0 :: rest))
                + sum_int (map output_tokens (e0 :: rest))
                + sum_int (map cache_creation_tokens (e0 :: rest))
                + sum_int (map cache_read_tokens (e0 :: rest));
              us_project_count :=
                Z.of_nat
                  (List.length (first_seen (map project_path (e0 :: rest))));
              us_session_count :=
                Z.of_nat
                  (List.length (first_seen (map session_key (e0 :: rest))));
              us_models_used := first_seen (map model (e0 :: rest));
              us_date_range_start := Some (strftime_Ymd first_date);
              us_date_range_end := Some (strftime_Ymd last_date) |}.
Proof.
  unfold get_usage_summary.
  destruct (min_datetime _ _) as [first_date | ex]; [| discriminate].
  destruct (max_datetime _ _) as [last_date | ex]; [| discriminate].
  cbn [bind]. intros H. injection H as <-.
  exists first_date, last_date. auto.
Qed.

Lemma summary_uniform (entries : list LoadedUsageEntry) (s : UsageSummary) :
  get_usage_summary entries = Ok s -> uniform entries.
Proof.
  destruct entries as [| e0 rest]; [intros _ a b [] |].
  intros H. apply get_usage_summary_ok in H as (fd & ld & Hmin & _ & _).
  apply min_datetime_spec in Hmin as (_ & _ & Hkind).
  rewrite Forall_map in Hkind.
  assert (Hall : forall e, In e (e0 :: rest) ->
                           same_kind (timestamp e0) (timestamp e) = true).
  { intros e [<- | He].
    - unfold same_kind. now destruct (is_aware _).
    - rewrite Forall_forall in Hkind. now apply Hkind. }
  intros a b Ha Hb. apply (same_kind_trans (timestamp e0)); now apply Hall.
Qed.

Lemma session_rows_sum (f : LoadedUsageEntry -> Z) (g : SessionUsage -> Z)
  (entries : list LoadedUsageEntry) (rows : list SessionUsage) :
  (forall item row,
      session_row item = Ok row -> g row = sum_int (map f (snd item))) ->
  aggregate_by_session entries = Ok rows ->
  sum_int (map g rows) = sum_int (map f entries).
Proof.
  intros Hg. unfold aggregate_by_session.
  destruct (mapM session_row (group_by session_key entries))
    as [made | ex] eqn:Hm; [| discriminate].
  cbn [bind]. intros H. injection H as <-.
  rewrite (sum_int_perm _ _
             (Permutation_map g (sorted_desc_perm last_activity_leb made))).
  rewrite <- (grouped_sum session_key f entries
                (group_by session_key entries) (Permutation_refl _)).
  apply mapM_ok in Hm. f_equal.
  induction Hm as [| item row items made' Hrow _ IH]; [reflexivity |].
  simpl. now rewrite IH, (Hg item row Hrow).
Qed.

(** X13. An answer of [get_usage_summary] agrees with the session report
    on the same entries: [aggregate_by_session] answers too, [session_count]
    is the number of its rows, and the four token totals of the summary are
    the sums of the rows' token counts. *)
Theorem summary_agrees_with_session_report
  (entries : list LoadedUsageEntry) (s : UsageSummary) :
  get_usage_summary entries = Ok s ->
  exists rows,
    aggregate_by_session entries = Ok rows
    /\ us_session_count s = Z.of_nat (List.length rows)
    /\ us_total_input_tokens s = sum_int (map s_input_tokens rows)
    /\ us_total_output_tokens s = sum_int (map s_output_tokens rows)
    /\ us_total_cache_creation_tokens s
       = sum_int (map s_cache_creation_tokens rows)
    /\ us_total_cache_read_tokens s
       = sum_int (map s_cache_read_tokens rows).
Proof.
  intros Hs.
  destruct (aggregate_by_session_total entries (summary_uniform _ _ Hs))
    as (rows & Hrows).
  exists rows. split; [exact Hrows |].
  rewrite (aggregate_by_session_length entries rows Hrows).
  rewrite (session_rows_sum input_tokens s_input_tokens entries rows),
    (session_rows_sum output_tokens s_output_tokens entries rows),
    (session_rows_sum cache_creation_tokens s_cache_creation_tokens
       entries rows),
    (session_rows_sum cache_read_tokens s_cache_read_tokens entries rows);
    try exact Hrows;
    try (intros [k es] row Hrow;
         apply session_row_fields in Hrow as (_ & H1 & H2 & H3 & H4 & _);
         assumption).
  destruct entries as [| e0 rest].
  - injection Hs as <-. repeat split.
  - apply get_usage_summary_ok in Hs as (fd & ld & _ & _ & ->).
    repeat split.
Qed.

Lemma summary_agrees_with_session_report_witness :
  exists s rows,
    get_usage_summary three_sessions = Ok s
    /\ aggregate_by_session three_sessions = Ok rows
    /\ us_session_count s = 3
    /\ us_session_count s = Z.of_nat (List.length rows).
Proof.
  destruct (get_usage_summary three_sessions) as [s | ex] eqn:Hs;
    [| vm_compute in Hs; discriminate].
  destruct (summary_agrees_with_session_report three_sessions s Hs)
    as (rows & Hrows & Hcount & _).
  exists s, rows. repeat split; try assumption.
  vm_compute in Hs. injection Hs as <-. reflexivity.
Defined.

(** X14. When no project name holds a colon, the [project_count] of the
    summary is at most its [session_count]. *)
Theorem summary_projects_at_most_sessions
  (entries : list LoadedUsageEntry) (s : UsageSummary) :
  colon_free entries ->
  get_usage_summary entries = Ok s ->
  us_project_count s <= us_session_count s.
Proof.
  intros Hfree Hs.
  assert (Hlen : (List.length (first_seen (map project_path entries))
                  <= List.length (first_seen (map session_key entries)))%nat).
  { rewrite <- (length_map (fun k => fst (split_colon k))
                  (first_seen (map session_key entries))).
    apply NoDup_incl_length; [apply first_seen_NoDup |].
    intros p Hp. apply first_seen_In, in_map_iff in Hp as (e & <- & He).
    apply in_map_iff. exists (session_key e). split.
    - unfold colon_free in Hfree. rewrite Forall_forall in Hfree.
      now rewrite (split_colon_session_key e (Hfree e He)).
    - apply first_seen_In, in_map. exact He. }
  destruct entries as [| e0 rest].
  - injection Hs as <-. simpl. lia.
  - apply get_usage_summary_ok in Hs as (fd & ld & _ & _ & ->).
    cbn [us_project_count us_session_count]. lia.
Qed.

Lemma summary_projects_at_most_sessions_witness :
  exists s,
    get_usage_summary three_sessions = Ok s
    /\ us_project_count s <= us_session_count s.
Proof.
  destruct (get_usage_summary three_sessions) as [s | ex] eqn:Hs;
    [| vm_compute in Hs; discriminate].
  exists s. split; [reflexivity |].
  apply (summary_projects_at_most_sessions three_sessions);
    [repeat constructor | exact Hs].
Defined.

(** X15. The date range of the summary of a non-empty list of entries
    runs from the date of an entry that none is earlier than to the date of
    an entry that none is later than. *)
Theorem summary_date_range (entries : list LoadedUsageEntry)
  (s : UsageSummary) :
  entries <> [] ->
  get_usage_summary entries = Ok s ->
  exists first last,
    In first entries /\ In last entries
    /\ (forall e, In e entries ->
                  instant (timestamp first) <= instant (timestamp e)
                  /\ instant (timestamp e) <= instant (timestamp last))
    /\ us_date_range_start s = Some (date_key first)
    /\ us_date_range_end s = Some (date_key last).
Proof.
  intros Hne Hs. destruct entries as [| e0 rest]; [contradiction |].
  apply get_usage_summary_ok in Hs as (fd & ld & Hmin & Hmax & ->).
  apply min_datetime_spec in Hmin as (Hfin & Hfall & _).
  apply max_datetime_spec in Hmax as (Hlin & Hlall).
  change (timestamp e0 :: map timestamp rest)
    with (map timestamp (e0 :: rest)) in *.
  apply in_map_iff in Hfin as (first & <- & Hfirst).
  apply in_map_iff in Hlin as (last & <- & Hlast).
  exists first, last. split; [exact Hfirst |]. split; [exact Hlast |].
  split; [| split; reflexivity].
  rewrite Forall_map, Forall_forall in Hfall, Hlall.
  intros e He. split; [now apply Hfall | now apply Hlall].
Qed.

Lemma summary_date_range_witness :
  exists s,
    get_usage_summary three_sessions = Ok s
    /\ us_date_range_start s = Some "2025-06-01"%string
    /\ us_date_range_end s = Some "2025-06-03"%string.
Proof.
  destruct (get_usage_summary three_sessions) as [s | ex] eqn:Hs;
    [| vm_compute in Hs; discriminate].
  destruct (summary_date_range three_sessions s) as (f & l & _).
  { discriminate. }
  { exact Hs. }
  exists s. split; [reflexivity |].
  vm_compute in Hs. injection Hs as <-. split; reflexivity.
Defined.

(* ===================================================================== *)
(** ** Blocks: conservation, activity and gaps *)
(* ===================================================================== *)

Ltac destruct_idle :=
  match goal with
  | |- context [if ?c then [Idle _ _] else []] => destruct c
  end.

Lemma spec_fold_entries (entries : list LoadedUsageEntry) :
  forall st,
    flat_map segment_entries (fst (spec_fold st entries))
      ++ open_entries (snd (spec_fold st entries))
    = open_entries st ++ entries.
Proof.
  induction entries as [| e es IH]; intros st; simpl.
  - now rewrite app_nil_r.
  - destruct (spec_step st e) as [out st1] eqn:Hstep.
    specialize (IH st1).
    destruct (spec_fold st1 es) as [out' st2]. cbn [fst snd] in *.
    rewrite flat_map_app, <- app_assoc, IH.
    unfold spec_step in Hstep. destruct st as [[start cur] |].
    + destruct (_ || _)%bool.
      * injection Hstep as <- <-. cbn [open_entries].
        destruct_idle; simpl; now rewrite ?app_nil_r.
      * injection Hstep as <- <-. simpl. now rewrite <- app_assoc.
    + injection Hstep as <- <-. reflexivity.
Qed.

Lemma spec_segments_entries (entries : list LoadedUsageEntry) :
  flat_map segment_entries (spec_segments entries) = entries.
Proof.
  unfold spec_segments.
  pose proof (spec_fold_entries entries None) as H.
  destruct (spec_fold None entries) as [out st]. cbn [fst snd] in H.
  cbn [open_entries app] in H. rewrite flat_map_app, <- H. f_equal.
  destruct st as [[start es] |]; simpl; now rewrite ?app_nil_r.
Qed.

Lemma renders_tokens (now : datetime) (seg : segment) (b : SessionBlock) :
  renders now seg b ->
  b_is_gap b = segment_is_gap seg
  /\ b_input_tokens b = sum_int (map input_tokens (segment_entries seg))
  /\ b_output_tokens b = sum_int (map output_tokens (segment_entries seg))
  /\ b_cache_creation_tokens b
     = sum_int (map cache_creation_tokens (segment_entries seg))
  /\ b_cache_read_tokens b
     = sum_int (map cache_read_tokens (segment_entries seg)).
Proof.
  destruct seg as [start es | from to]; simpl.
  - intros (Hb & Hgap & _).
    apply create_block_ok in Hb as (p & _ & _ & _ & ->).
    repeat split.
  - intros (Hgap & _ & _ & _ & _ & _ & Hz & _). injection Hz as -> -> -> ->.
    repeat split; assumption.
Qed.

Lemma rendered_sum (now : datetime) (f : LoadedUsageEntry -> Z)
  (g : SessionBlock -> Z) (segs : list segment) (bs : list SessionBlock) :
  (forall seg b, renders now seg b ->
                 g b = sum_int (map f (segment_entries seg))) ->
  Forall2 (renders now) segs bs ->
  sum_int (map g bs) = sum_int (map f (flat_map segment_entries segs)).
Proof.
  intros Hg. induction 1 as [| seg b segs bs Hr _ IH]; [reflexivity |].
  simpl. rewrite sum_int_cons, map_app, sum_int_app, IH, (Hg seg b Hr).
  reflexivity.
Qed.

Lemma sum_int_filter_zero {A} (f : A -> Z) (p : A -> bool) (l : list A) :
  (forall x, In x l -> p x = false -> f x = 0) ->
  sum_int (map f (filter p l)) = sum_int (map f l).
Proof.
  induction l as [| x l IH]; intros Hz; [reflexivity |].
  simpl. destruct (p x) eqn:Hp; simpl; rewrite ?sum_int_cons, IH;
    try (intros y Hy; apply Hz; now right).
  - reflexivity.
  - rewrite (Hz x (or_introl eq_refl) Hp). lia.
Qed.

Lemma identified_sum (now : datetime) (f : LoadedUsageEntry -> Z)
  (g : SessionBlock -> Z) (entries : list LoadedUsageEntry)
  (bs : list SessionBlock) :
  (forall seg b, renders now seg b ->
                 g b = sum_int (map f (segment_entries seg))) ->
  Forall (fun e => same_kind_as now e = true) entries ->
  identify_session_blocks entries now = Ok bs ->
  sum_int (map g bs) = sum_int (map f entries)
  /\ sum_int (map g (filter (fun b => negb (b_is_gap b)) bs))
     = sum_int (map f entries).
Proof.
  intros Hg Hkind Hbs.
  destruct (identify_session_blocks_refines entries now Hkind)
    as (bs' & Hbs' & Hren).
  rewrite Hbs in Hbs'. injection Hbs' as <-.
  assert (Hsum : sum_int (map g bs) = sum_int (map f entries)).
  { rewrite (rendered_sum now f g _ _ Hg Hren), spec_segments_entries.
    apply sum_int_perm, Permutation_map, sorted_asc_perm. }
  split; [exact Hsum |]. rewrite <- Hsum.
  apply sum_int_filter_zero. intros b Hb Hgap.
  apply negb_false_iff in Hgap.
  destruct (Forall2_In_r _ _ _ _ Hren Hb) as (seg & _ & Hr).
  rewrite (Hg seg b Hr).
  apply renders_tokens in Hr as (Hflag & _).
  rewrite Hgap in Hflag. destruct seg; [discriminate | reflexivity].
Qed.

(** X16. When the timestamps are of the kind of the clock, the blocks of
    [identify_session_blocks] hold every entry exactly once: unfiltered,
    the totals of [get_block_usage] are the token sums of all entries, gap
    blocks adding nothing. *)
Theorem block_usage_totals_conserved
  (fromisoformat : string -> result datetime)
  (entries : list LoadedUsageEntry) (now now2 : datetime) :
  Forall (fun e => same_kind_as now e = true) entries ->
  exists r,
    get_block_usage fromisoformat entries now now2 false false = Ok r
    /\ br_totals r = token_totals entries.
Proof.
  intros Hkind.
  destruct (identify_session_blocks_refines entries now Hkind)
    as (bs & Hbs & _).
  unfold get_block_usage. rewrite Hbs. cbn [bind].
  eexists. split; [reflexivity |]. cbn [br_totals]. unfold token_totals.
  f_equal.
  - apply (identified_sum now input_tokens b_input_tokens entries bs);
      [| exact Hkind | exact Hbs].
    intros seg b Hr. now apply renders_tokens in Hr.
  - apply (identified_sum now output_tokens b_output_tokens entries bs);
      [| exact Hkind | exact Hbs].
    intros seg b Hr. now apply renders_tokens in Hr.
  - apply (identified_sum now cache_creation_tokens b_cache_creation_tokens
             entries bs); [| exact Hkind | exact Hbs].
    intros seg b Hr. now apply renders_tokens in Hr.
  - apply (identified_sum now cache_read_tokens b_cache_read_tokens
             entries bs); [| exact Hkind | exact Hbs].
    intros seg b Hr. now apply renders_tokens in Hr.
Qed.

Lemma block_usage_totals_conserved_witness :
  exists r,
    get_block_usage fromisoformat_basic three_entries (utc 2025 1 15 11 0)
      (utc 2025 1 15 11 0) false false = Ok r
    /\ br_totals r = token_totals three_entries.
Proof.
  apply block_usage_totals_conserved. repeat constructor.
Defined.

(** *** Only the last block can be active *)

Lemma spec_step_closed (now : datetime) (st : spec_state)
  (e : LoadedUsageEntry) :
  instant (timestamp e) <= instant now ->
  Forall (closed_before now) (fst (spec_step st e)).
Proof.
  intros Hnow. unfold spec_step. destruct st as [[start es] |];
    [| constructor].
  destruct (_ || _)%bool eqn:Hc; [| constructor]. cbn [fst].
  constructor.
  - cbn [closed_before]. apply orb_true_iff in Hc as [Hc | Hc];
      apply Z.ltb_lt in Hc; [left | right]; lia.
  - destruct_idle; repeat constructor.
Qed.

Lemma spec_fold_closed (now : datetime) (entries : list LoadedUsageEntry) :
  not_after now entries ->
  forall st, Forall (closed_before now) (fst (spec_fold st entries)).
Proof.
  induction 1 as [| e es He _ IH]; intros st; simpl; [constructor |].
  pose proof (spec_step_closed now st e He) as Hstep.
  destruct (spec_step st e) as [out st1]. specialize (IH st1).
  destruct (spec_fold st1 es) as [out' st2]. cbn [fst] in *.
  apply Forall_app. split; assumption.
Qed.

Lemma renders_closed_inactive (now : datetime) (seg : segment)
  (b : SessionBlock) :
  renders now seg b -> closed_before now seg -> b_is_active b = false.
Proof.
  destruct seg as [start es | from to]; cbn [renders closed_before].
  - intros (Hb & _) Hclosed.
    apply create_block_ok in Hb as (p & _ & _ & Hact & _).
    rewrite Hact. unfold block_end. rewrite instant_add.
    change (hours SESSION_DURATION_HOURS) with (hours 5).
    apply andb_false_iff.
    destruct Hclosed as [Hs | Hl]; [right | left]; apply Z.ltb_ge; lia.
  - intros (_ & Hact & _) _. exact Hact.
Qed.

Lemma spec_close_length (st : spec_state) :
  (List.length (spec_close st) <= 1)%nat.
Proof. destruct st as [[start es] |]; simpl; lia. Qed.

Lemma removelast_incl_front {A} (l1 l2 : list A) (x : A) :
  (List.length l2 <= 1)%nat -> In x (removelast (l1 ++ l2)) -> In x l1.
Proof.
  intros Hlen. destruct l2 as [| y [| z l2]]; simpl in Hlen; try lia.
  - rewrite app_nil_r. revert x.
    induction l1 as [| a [| b l1] IH]; intros x; simpl; try tauto.
    intros [<- | Hin]; [now left | right]. now apply IH.
  - now rewrite removelast_last.
Qed.

(** X17. When no entry is later than the clock, every block of
    [identify_session_blocks] but the last one is inactive: a later entry
    closed it, so its nominal end or its five idle hours have passed. *)
Theorem only_last_block_active (entries : list LoadedUsageEntry)
  (now : datetime) (bs : list SessionBlock) :
  Forall (fun e => same_kind_as now e = true) entries ->
  not_after now entries ->
  identify_session_blocks entries now = Ok bs ->
  Forall (fun b => b_is_active b = false) (removelast bs).
Proof.
  intros Hkind Hnow Hbs.
  destruct (identify_session_blocks_refines entries now Hkind)
    as (bs' & Hbs' & Hren).
  rewrite Hbs in Hbs'. injection Hbs' as <-.
  assert (Hsorted : not_after now (sorted_asc entry_le entries)).
  { apply (Permutation_Forall
             (Permutation_sym (sorted_asc_perm entry_le entries))).
    exact Hnow. }
  pose proof (spec_fold_closed now _ Hsorted None) as Hclosed.
  unfold spec_segments in Hren.
  destruct (spec_fold None (sorted_asc entry_le entries)) as [out st].
  cbn [fst] in Hclosed.
  apply Forall2_app_inv_l in Hren as (bs1 & bs2 & Hr1 & Hr2 & ->).
  apply Forall_forall. intros b Hb.
  apply removelast_incl_front in Hb.
  - destruct (Forall2_In_r _ _ _ _ Hr1 Hb) as (seg & Hseg & Hr).
    apply (renders_closed_inactive now seg b Hr).
    rewrite Forall_forall in Hclosed. now apply Hclosed.
  - rewrite <- (Forall2_length Hr2). apply spec_close_length.
Qed.

Lemma only_last_block_active_witness :
  exists bs,
    identify_session_blocks three_entries (utc 2025 1 15 11 0) = Ok bs
    /\ map b_is_active bs = [false; false; true]
    /\ Forall (fun b => b_is_active b = false) (removelast bs).
Proof.
  destruct (identify_session_blocks three_entries (utc 2025 1 15 11 0))
    as [bs | ex] eqn:Hbs; [| vm_compute in Hbs; discriminate].
  exists bs. split; [reflexivity |]. split.
  - vm_compute in Hbs. injection Hbs as <-. reflexivity.
  - apply (only_last_block_active three_entries (utc 2025 1 15 11 0));
      [repeat constructor | | exact Hbs].
    repeat constructor; vm_compute; discriminate.
Defined.

(** *** Gap blocks *)

Lemma gaps_enclosed_head (x : bool) (l : list bool) :
  gaps_enclosed (x :: l) -> x = false.
Proof. inversion 1; reflexivity. Qed.

Lemma spec_fold_open (entries : list LoadedUsageEntry) :
  forall st, st <> None -> snd (spec_fold st entries) <> None.
Proof.
  induction entries as [| e es IH]; intros st Hst; simpl; [exact Hst |].
  destruct (spec_step st e) as [out st1] eqn:Hstep.
  specialize (IH st1).
  destruct (spec_fold st1 es) as [out' st2]. cbn [snd] in *. apply IH.
  unfold spec_step in Hstep. destruct st as [[start cur] |].
  - destruct (_ || _)%bool; injection Hstep as _ <-; discriminate.
  - injection Hstep as _ <-. discriminate.
Qed.

Lemma spec_fold_gaps (entries : list LoadedUsageEntry) :
  forall st,
    snd (spec_fold st entries) <> None ->
    gaps_enclosed (map segment_is_gap (fst (spec_fold st entries)) ++ [false]).
Proof.
  induction entries as [| e es IH]; intros st; simpl.
  - intros _. constructor.
  - destruct (spec_step st e) as [out st1] eqn:Hstep.
    specialize (IH st1).
    assert (Hst1 : st1 <> None).
    { unfold spec_step in Hstep. destruct st as [[start cur] |].
      - destruct (_ || _)%bool; injection Hstep as _ <-; discriminate.
      - injection Hstep as _ <-. discriminate. }
    pose proof (spec_fold_open es st1 Hst1) as Hopen.
    destruct (spec_fold st1 es) as [out' st2]. cbn [fst snd] in *.
    intros _. specialize (IH Hopen).
    rewrite map_app, <- app_assoc.
    destruct (map segment_is_gap out' ++ [false]) as [| x l] eqn:Hflags.
    { destruct (map segment_is_gap out'); discriminate. }
    pose proof (gaps_enclosed_head x l IH) as ->.
    unfold spec_step in Hstep. destruct st as [[start cur] |].
    + destruct (_ || _)%bool.
      * injection Hstep as <- _.
        destruct_idle; simpl; now constructor.
      * injection Hstep as <- _. exact IH.
    + injection Hstep as <- _. exact IH.
Qed.

Lemma spec_segments_gaps (entries : list LoadedUsageEntry) :
  gaps_enclosed (map segment_is_gap (spec_segments entries)).
Proof.
  unfold spec_segments.
  pose proof (spec_fold_gaps entries None) as H.
  destruct (spec_fold None entries) as [out [[start es] |]] eqn:Hfold;
    cbn [fst snd spec_close] in *.
  - rewrite map_app. apply H. discriminate.
  - destruct entries as [| e es].
    + simpl in Hfold. injection Hfold as <-. constructor.
    + exfalso. simpl in Hfold.
      pose proof (spec_fold_open es (Some (floor_hour (timestamp e), [e])))
        as Hopen.
      destruct (spec_fold (Some (floor_hour (timestamp e), [e])) es)
        as [out' st2].
      injection Hfold as _ ->. apply Hopen; [discriminate | reflexivity].
Qed.

(** X18. In the answer of [identify_session_blocks] every gap block stands
    between two blocks of activity: the first and the last block are no
    gaps, and no two gap blocks are adjacent. *)
Theorem gap_blocks_enclosed (entries : list LoadedUsageEntry)
  (now : datetime) (bs : list SessionBlock) :
  Forall (fun e => same_kind_as now e = true) entries ->
  identify_session_blocks entries now = Ok bs ->
  gaps_enclosed (map b_is_gap bs).
Proof.
  intros Hkind Hbs.
  destruct (identify_session_blocks_refines entries now Hkind)
    as (bs' & Hbs' & Hren).
  rewrite Hbs in Hbs'. injection Hbs' as <-.
  replace (map b_is_gap bs)
    with (map segment_is_gap (spec_segments (sorted_asc entry_le entries))).
  - apply spec_segments_gaps.
  - clear Hbs.
    induction Hren as [| seg b segs bs' Hr _ IH]; [reflexivity |].
    simpl. rewrite IH. f_equal.
    apply renders_tokens in Hr as (Hflag & _). now rewrite Hflag.
Qed.

Lemma gap_blocks_enclosed_witness :
  exists bs,
    identify_session_blocks three_entries (utc 2025 1 15 11 0) = Ok bs
    /\ map b_is_gap bs = [false; true; false]
    /\ gaps_enclosed (map b_is_gap bs).
Proof.
  destruct (identify_session_blocks three_entries (utc 2025 1 15 11 0))
    as [bs | ex] eqn:Hbs; [| vm_compute in Hbs; discriminate].
  exists bs. split; [reflexivity |]. split.
  - vm_compute in Hbs. injection Hbs as <-. reflexivity.
  - apply (gap_blocks_enclosed three_entries (utc 2025 1 15 11 0));
      [repeat constructor | exact Hbs].
Defined.

(** *** The block report *)

Lemma foldM_invariant {A S} (I : S -> Prop) (body : S -> A -> result S)
  (xs : list A) :
  (forall st x st', I st -> body st x = Ok st' -> I st') ->
  forall st st', I st -> foldM body xs st = Ok st' -> I st'.
Proof.
  intros Hstep. induction xs as [| x xs IH]; intros st st' Hst; simpl.
  - intros H. now injection H as <-.
  - destruct (body st x) as [st1 |] eqn:Hb; [| discriminate].
    cbn [bind]. apply IH. now apply (Hstep st x).
Qed.

Lemma filterM_incl {A} (q : A -> result bool) (xs ys : list A) :
  filterM q xs = Ok ys -> incl ys xs.
Proof.
  revert ys. induction xs as [| x xs IH]; intros ys; simpl.
  - intros H. injection H as <-. apply incl_refl.
  - destruct (q x) as [b |]; [| discriminate]. cbn [bind].
    destruct (filterM q xs) as [zs |]; [| discriminate]. cbn [bind].
    intros H. injection H as <-. specialize (IH zs eq_refl).
    destruct b; [apply incl_cons; [now left |] |]; now apply incl_tl.
Qed.

Lemma create_gap_block_inactive (prev next : datetime) (g : SessionBlock) :
  _create_gap_block prev next = Ok (Some g) -> b_is_active g = false.
Proof.
  unfold _create_gap_block. destruct (sub next prev); [| discriminate].
  cbn [bind]. destruct (_ <=? _); [discriminate |].
  intros H. injection H as <-. reflexivity.
Qed.

Lemma create_block_no_gap (start now : datetime)
  (es : list LoadedUsageEntry) (b : SessionBlock) :
  _create_block start es now = Ok b -> b_is_gap b = false.
Proof.
  intros H. apply create_block_ok in H as (p & _ & _ & _ & ->). reflexivity.
Qed.

Lemma segment_entry_gaps_inactive (now : datetime) (st st' : segmenter)
  (e : LoadedUsageEntry) :
  Forall (fun b => b_is_gap b = true -> b_is_active b = false) (blocks st) ->
  segment_entry now st e = Ok st' ->
  Forall (fun b => b_is_gap b = true -> b_is_active b = false) (blocks st').
Proof.
  intros Hst. unfold segment_entry.
  destruct (current_block_start st) as [start |].
  2:{ intros H. injection H as <-. exact Hst. }
  destruct (sub (timestamp e) start); [| discriminate]. cbn [bind].
  destruct (match last_of (current_block_entries st) with
            | Some le => _
            | None => _
            end) as [since_last |]; [| discriminate]. cbn [bind].
  destruct (_ || _)%bool.
  2:{ intros H. injection H as <-. exact Hst. }
  destruct (_create_block start _ now) as [block |] eqn:Hblock;
    [| discriminate]. cbn [bind].
  assert (H1 : Forall (fun b => b_is_gap b = true -> b_is_active b = false)
                 (blocks st ++ [block])).
  { apply Forall_app. split; [exact Hst |]. constructor; [| constructor].
    intros Hgap. apply create_block_no_gap in Hblock. congruence. }
  destruct (last_of (current_block_entries st)) as [le |].
  - destruct (float_gt since_last session_duration_ms).
    + destruct (_create_gap_block _ _) as [[g |] |] eqn:Hg;
        [| | discriminate]; cbn [bind]; intros H; injection H as <-;
        cbn [blocks]; [| exact H1].
      apply Forall_app. split; [exact H1 |]. constructor; [| constructor].
      intros _. now apply create_gap_block_inactive in Hg.
    + cbn [bind]. intros H. injection H as <-. exact H1.
  - cbn [bind]. intros H. injection H as <-. exact H1.
Qed.

Lemma identified_gaps_inactive (entries : list LoadedUsageEntry)
  (now : datetime) (bs : list SessionBlock) :
  identify_session_blocks entries now = Ok bs ->
  Forall (fun b => b_is_gap b = true -> b_is_active b = false) bs.
Proof.
  unfold identify_session_blocks. destruct entries as [| e0 rest].
  { intros H. injection H as <-. constructor. }
  destruct (sorted_by_timestamp (e0 :: rest)) as [sorted |];
    [| discriminate]. cbn [bind].
  destruct (foldM (segment_entry now) sorted (mkSegmenter [] None []))
    as [st |] eqn:Hfold; [| discriminate]. cbn [bind].
  apply (foldM_invariant
           (fun st => Forall (fun b => b_is_gap b = true ->
                                       b_is_active b = false) (blocks st)))
    in Hfold;
    [| intros s x s'; apply segment_entry_gaps_inactive | constructor].
  destruct (current_block_start st) as [start |];
    [| intros H; injection H as <-; exact Hfold].
  destruct (current_block_entries st) as [| e es];
    [intros H; injection H as <-; exact Hfold |].
  destruct (_create_block start (e :: es) now) as [block |] eqn:Hblock;
    [| discriminate]. cbn [bind]. intros H. injection H as <-.
  apply Forall_app. split; [exact Hfold |]. constructor; [| constructor].
  intros Hgap. apply create_block_no_gap in Hblock. congruence.
Qed.

(** X19. In an answer of [get_block_usage] the blocks come in
    non-increasing order of their start time strings; the active block,
    when there is one, is a block of the answer that is active and no gap,
    and when there is none no block of the answer is active; with
    [active] set every block of the answer is active. *)
Theorem block_usage_active_block
  (fromisoformat : string -> result datetime)
  (entries : list LoadedUsageEntry) (now now2 : datetime)
  (recent active : bool) (r : BlockUsageListResponse) :
  get_block_usage fromisoformat entries now now2 recent active = Ok r ->
  latest_first b_start_time (br_data r)
  /\ match br_active_block r with
     | Some b =>
         In b (br_data r) /\ b_is_active b = true /\ b_is_gap b = false
     | None => Forall (fun b => b_is_active b = false) (br_data r)
     end
  /\ (active = true -> Forall (fun b => b_is_active b = true) (br_data r)).
Proof.
  unfold get_block_usage.
  destruct (identify_session_blocks entries now) as [identified |] eqn:Hid;
    [| discriminate]. cbn [bind].
  apply identified_gaps_inactive in Hid.
  destruct (if recent then _ else _) as [blocks1 |] eqn:H1;
    [| discriminate]. cbn [bind].
  assert (Hincl1 : incl blocks1 identified).
  { destruct recent.
    - now apply filterM_incl in H1.
    - injection H1 as <-. apply incl_refl. }
  set (blocks2 := if active then filter b_is_active blocks1 else blocks1).
  assert (Hincl2 : incl blocks2 identified).
  { intros b Hb. apply Hincl1. subst blocks2.
    destruct active; [now apply filter_In in Hb | exact Hb]. }
  intros H. injection H as <-. cbn [br_data br_active_block].
  split; [apply (sorted_desc_weak b_start_time) |]. split.
  - destruct (find b_is_active blocks2) as [b |] eqn:Hfind.
    + apply find_some in Hfind as [Hb Hact].
      split; [now apply sorted_desc_In |]. split; [exact Hact |].
      rewrite Forall_forall in Hid. specialize (Hid b (Hincl2 b Hb)).
      destruct (b_is_gap b); [| reflexivity].
      rewrite (Hid eq_refl) in Hact. discriminate.
    + apply Forall_forall. intros b Hb. apply sorted_desc_In in Hb.
      exact (find_none _ _ Hfind b Hb).
  - intros ->. apply Forall_forall. intros b Hb.
    apply sorted_desc_In in Hb. subst blocks2.
    now apply filter_In in Hb.
Qed.

Lemma block_usage_active_block_witness :
  exists r b,
    get_block_usage fromisoformat_basic three_entries (utc 2025 1 15 11 0)
      (utc 2025 1 15 11 0) true false = Ok r
    /\ br_active_block r = Some b
    /\ In b (br_data r) /\ b_is_active b = true /\ b_is_gap b = false.
Proof.
  destruct (get_block_usage fromisoformat_basic three_entries
              (utc 2025 1 15 11 0) (utc 2025 1 15 11 0) true false)
    as [r | ex] eqn:Hr; [| vm_compute in Hr; discriminate].
  destruct (block_usage_active_block _ _ _ _ _ _ r Hr) as (_ & Hactive & _).
  destruct (br_active_block r) as [b |] eqn:Hb.
  - exists r, b. split; [reflexivity |]. split; [exact Hb | exact Hactive].
  - exfalso. vm_compute in Hr. injection Hr as <-. discriminate.
Defined.

(* ===================================================================== *)
(** ** Date and month ranges *)
(* ===================================================================== *)

(** X20. On entries with naive timestamps [get_daily_usage] with both
    bounds answers, and reports exactly the entries from midnight of the
    start date up to, but not including, midnight after the end date: the
    whole end day is covered, and the totals are the token sums of those
    entries. *)
Theorem daily_usage_naive_range (entries : list LoadedUsageEntry)
  (sd ed : string) (start_dt end_dt : datetime) :
  Forall (fun e => is_aware (timestamp e) = false) entries ->
  sd <> EmptyString -> ed <> EmptyString ->
  strptime_Ymd sd = Ok start_dt ->
  strptime_Ymd ed = Ok end_dt ->
  let selected := filter (in_date_range start_dt end_dt) entries in
  exists r,
    get_daily_usage entries (Some sd) (Some ed) = Ok r
    /\ dr_data r = aggregate_by_daily selected
    /\ dr_totals r = token_totals selected.
Proof.
  intros Hnaive Hsd Hed Hs He selected. unfold get_daily_usage.
  rewrite (filter_by_date_range_naive entries sd ed start_dt end_dt
             Hnaive Hsd Hed Hs He).
  cbn [bind]. fold selected. eexists. split; [reflexivity |].
  split; [reflexivity |]. cbn [dr_totals]. unfold token_totals. f_equal;
    apply daily_sum; intros item; apply daily_row_snd.
Qed.

Lemma daily_usage_naive_range_witness :
  exists r,
    get_daily_usage naive_entries (Some "2025-01-15"%string)
      (Some "2025-01-15"%string) = Ok r
    /\ map d_date (dr_data r) = ["2025-01-15"%string]
    /\ tc_input_tokens (dr_totals r) = 10.
Proof.
  destruct (daily_usage_naive_range naive_entries "2025-01-15" "2025-01-15"
              (naive (wall (utc 2025 1 15 0 0)))
              (naive (wall (utc 2025 1 15 0 0))))
    as (r & Hr & Hdata & Htotals);
    try (vm_compute; reflexivity); try discriminate.
  { repeat constructor. }
  exists r. split; [exact Hr |].
  rewrite Hdata, Htotals. split; vm_compute; reflexivity.
Defined.

Lemma filterM_first_raises {A} (q : A -> result bool) (e : exn) (x : A)
  (xs : list A) :
  q x = Raise e -> filterM q (x :: xs) = Raise e.
Proof. intros H. simpl. now rewrite H. Qed.

Lemma compare_aware_naive (a b : datetime) :
  is_aware a = true -> is_aware b = false ->
  ge a b = Raise TypeError /\ lt a b = Raise TypeError.
Proof.
  intros Ha Hb. unfold ge, lt, same_kind. now rewrite Ha, Hb.
Qed.

(** X21. On a non-empty list of entries with aware timestamps, which is
    what the loader makes of timestamps that end in [Z], every date bound
    of [get_daily_usage] that parses, every start month of
    [get_monthly_usage] that parses and every end month that parses and
    has a following month make the call raise [TypeError]: the bound is a
    naive datetime. *)
Theorem range_bounds_raise_on_aware_entries
  (entries : list LoadedUsageEntry) (bound : string) (d : datetime)
  (other : option string) :
  entries <> [] ->
  Forall (fun e => is_aware (timestamp e) = true) entries ->
  bound <> EmptyString ->
  (strptime_Ymd bound = Ok d ->
   get_daily_usage entries (Some bound) other = Raise TypeError
   /\ get_daily_usage entries None (Some bound) = Raise TypeError)
  /\ (strptime_Ymd (bound ++ "-01") = Ok d ->
      get_monthly_usage entries (Some bound) other = Raise TypeError
      /\ forall end_dt,
           (if month d =? 12
            then replace_year_month d (year d + 1) 1
            else replace_year_month d (year d) (month d + 1)) = Ok end_dt ->
           get_monthly_usage entries None (Some bound) = Raise TypeError).
Proof.
  intros Hne Haware Hbound.
  destruct entries as [| e rest]; [congruence |].
  apply Forall_cons_iff in Haware as [Ha _].
  split; intros Hd; pose proof (strptime_Ymd_naive _ d Hd) as Hn.
  - unfold get_daily_usage, filter_by_date_range.
    rewrite (given_nonempty bound Hbound), Hd. cbn [given bind]. split.
    + rewrite (filterM_first_raises _ TypeError);
        [reflexivity | now apply compare_aware_naive].
    + rewrite (filterM_first_raises _ TypeError); [reflexivity |].
      now apply compare_aware_naive.
  - unfold get_monthly_usage, filter_by_month_range.
    rewrite (given_nonempty bound Hbound), Hd. cbn [given bind]. split.
    + rewrite (filterM_first_raises _ TypeError);
        [reflexivity | now apply compare_aware_naive].
    + intros end_dt Hend. rewrite Hend. cbn [bind].
      rewrite (filterM_first_raises _ TypeError); [reflexivity |].
      apply compare_aware_naive; [exact Ha |].
      destruct (month d =? 12); unfold replace_year_month in Hend;
        destruct (of_date _ _ _); try discriminate;
        cbn [bind] in Hend; injection Hend as <-; exact Hn.
Qed.

Lemma range_bounds_raise_on_aware_entries_witness :
  get_monthly_usage three_entries (Some "2025-01"%string) None
  = Raise TypeError
  /\ get_monthly_usage three_entries None (Some "2025-12"%string)
     = Raise TypeError.
Proof.
  split.
  - destruct (range_bounds_raise_on_aware_entries three_entries "2025-01"
                (naive (wall (utc 2025 1 1 0 0))) None) as (_ & Hm);
      [discriminate | repeat constructor | discriminate |].
    apply Hm. vm_compute. reflexivity.
  - destruct (range_bounds_raise_on_aware_entries three_entries "2025-12"
                (naive (wall (utc 2025 12 1 0 0))) None) as (_ & Hm);
      [discriminate | repeat constructor | discriminate |].
    destruct Hm as (_ & Hend); [vm_compute; reflexivity |].
    apply (Hend (naive (wall (utc 2026 1 1 0 0)))). vm_compute. reflexivity.
Defined.

(* ===================================================================== *)
(** ** The query cache of the usage service *)
(* ===================================================================== *)

Lemma filter_none {A} (p : A -> bool) (l : list A) :
  (forall x, In x l -> p x = false) -> filter p l = [].
Proof.
  induction l as [| x l IH]; intros H; simpl; [reflexivity |].
  rewrite (H x (or_introl eq_refl)). apply IH. intros y Hy. apply H. now right.
Qed.

Lemma filter_all {A} (p : A -> bool) (l : list A) :
  (forall x, In x l -> p x = true) -> filter p l = l.
Proof.
  induction l as [| x l IH]; intros H; simpl; [reflexivity |].
  rewrite (H x (or_introl eq_refl)). f_equal. apply IH.
  intros y Hy. apply H. now right.
Qed.

Section QueryCacheFacts.

Context {D : Type}.

Implicit Types (rows : list (UsageCache D)) (row : UsageCache D).

Lemma select_key_absent rows (key : string) :
  ~ In key (map cache_key rows) -> select_key rows key = [].
Proof.
  unfold select_key. induction rows as [| r rows IH]; simpl; [reflexivity |].
  intros Hnot. destruct (String.eqb_spec (cache_key r) key) as [Heq | Hne].
  - exfalso. apply Hnot. now left.
  - apply IH. tauto.
Qed.

Lemma select_key_In rows (key : string) row :
  In row (select_key rows key) <-> In row rows /\ cache_key row = key.
Proof.
  unfold select_key. rewrite filter_In. now rewrite String.eqb_eq.
Qed.

Lemma select_key_unique rows (key : string) :
  NoDup (map cache_key rows) ->
  (select_key rows key = [] /\ ~ In key (map cache_key rows))
  \/ exists row, select_key rows key = [row] /\ cache_key row = key.
Proof.
  induction rows as [| r rows IH]; simpl; intros Hnd.
  - left. split; [reflexivity | tauto].
  - inversion Hnd as [| ? ? Hnotin Hnd']; subst.
    unfold select_key. cbn [filter].
    destruct (String.eqb_spec (cache_key r) key) as [Heq | Hne].
    + right. exists r. split; [| exact Heq].
      fold (select_key rows key). rewrite select_key_absent; [reflexivity |].
      now rewrite <- Heq.
    + fold (select_key rows key).
      destruct (IH Hnd') as [[Hnil Hnot] | (row & Hrow & Hk)].
      * left. split; [exact Hnil |]. intros [Heq | Hin]; tauto.
      * right. now exists row.
Qed.

Lemma select_key_app rows1 rows2 (key : string) :
  select_key (rows1 ++ rows2) key = select_key rows1 key ++ select_key rows2 key.
Proof. apply filter_app. Qed.

Lemma refreshed_key (clock : Z) (key : string) (value : D) row :
  cache_key (refreshed_row clock key value row) = cache_key row.
Proof. unfold refreshed_row. now destruct (String.eqb _ _). Qed.

Lemma select_key_refreshed (clock : Z) (key key' : string) (value : D) rows :
  select_key (map (refreshed_row clock key value) rows) key'
  = map (refreshed_row clock key value) (select_key rows key').
Proof.
  unfold select_key. induction rows as [| r rows IH]; simpl; [reflexivity |].
  rewrite refreshed_key. destruct (String.eqb _ key'); simpl; now rewrite IH.
Qed.

Lemma refreshed_other (clock : Z) (key key' : string) (value : D) rows :
  key' <> key ->
  map (refreshed_row clock key value) (select_key rows key')
  = select_key rows key'.
Proof.
  intros Hne. rewrite <- (map_id (select_key rows key')) at 2.
  apply map_ext_in. intros row Hin. apply select_key_In in Hin as [_ Hk].
  unfold refreshed_row. destruct (String.eqb_spec (cache_key row) key);
    [congruence | reflexivity].
Qed.

(** What a successful [save_to_cache] does to the table. *)
Lemma save_to_cache_cases rows (clock : Z) (key ctype : string) (value : D)
  (project : option string) (rows' : option (list (UsageCache D))) :
  save_to_cache (Some rows) clock key ctype value project = Ok rows' ->
  (exists row, select_key rows key = [row]
               /\ rows' = Some (map (refreshed_row clock key value) rows))
  \/ (select_key rows key = []
      /\ rows' = Some (rows ++ [ {| cache_key := key;
                                    cache_type := ctype;
                                    cache_project_path := project;
                                    data := value;
                                    cached_at := naive clock |} ])).
Proof.
  unfold save_to_cache, scalar_one_or_none.
  destruct (select_key rows key) as [| row [| row' l]]; cbn [bind];
    intros H; try discriminate; injection H as <-.
  - right. auto.
  - left. exists row. auto.
Qed.

Lemma get_from_cache_found rows (clock : Z) (key : string) row :
  select_key rows key = [row] ->
  get_from_cache (Some rows) clock key
  = Ok (if clock - wall (cached_at row) >? minutes CACHE_TTL_MINUTES
        then None else Some (data row)).
Proof.
  intros Hsel. unfold get_from_cache, scalar_one_or_none. rewrite Hsel.
  cbn [bind]. unfold sub, replace_tzinfo_utc, aware, same_kind, is_aware,
    instant. cbn [utcoffset wall Bool.eqb bind].
  rewrite !Z.sub_0_r. now destruct (_ >? _).
Qed.

End QueryCacheFacts.

(** X22. On a table whose keys are distinct, [save_to_cache] succeeds and
    keeps the keys distinct, and [get_from_cache] then answers the saved
    value for that key as long as the clock has advanced by no more than
    five minutes since the save, and nothing afterwards; it does not
    matter whether the row was inserted or updated. *)
Theorem usage_cache_round_trip {D : Type} (rows : list (UsageCache D))
  (clock clock' : Z) (key ctype : string) (value : D)
  (project : option string) :
  NoDup (map cache_key rows) ->
  exists rows',
    save_to_cache (Some rows) clock key ctype value project = Ok (Some rows')
    /\ NoDup (map cache_key rows')
    /\ get_from_cache (Some rows') clock' key
       = Ok (if clock' - clock >? minutes CACHE_TTL_MINUTES
             then None else Some value).
Proof.
  intros Hnd.
  destruct (select_key_unique rows key Hnd)
    as [[Hnil Hnot] | (row & Hrow & Hk)].
  - eexists. split; [| split].
    + unfold save_to_cache, scalar_one_or_none. rewrite Hnil. reflexivity.
    + rewrite map_app. cbn [map cache_key].
      apply NoDup_app; [exact Hnd | repeat constructor; simpl; tauto |].
      intros k Hin [<- | []]. contradiction.
    + rewrite (get_from_cache_found _ clock' key
                 {| cache_key := key; cache_type := ctype;
                    cache_project_path := project; data := value;
                    cached_at := naive clock |}); [reflexivity |].
      rewrite select_key_app, Hnil. unfold select_key. cbn [filter cache_key].
      now rewrite String.eqb_refl.
  - exists (map (refreshed_row clock key value) rows). split; [| split].
    + unfold save_to_cache, scalar_one_or_none. rewrite Hrow. reflexivity.
    + rewrite map_map.
      rewrite (map_ext _ cache_key); [exact Hnd |].
      intros r. apply refreshed_key.
    + erewrite get_from_cache_found;
        [| rewrite select_key_refreshed, Hrow; reflexivity].
      unfold refreshed_row. rewrite Hk, String.eqb_refl. reflexivity.
Qed.

Lemma usage_cache_round_trip_witness :
  exists rows',
    save_to_cache (Some sample_usage_rows) (minutes 60) "daily" "daily"
      "new"%string None = Ok (Some rows')
    /\ NoDup (map cache_key rows')
    /\ get_from_cache (Some rows') (minutes 65) "daily" = Ok (Some "new"%string)
    /\ get_from_cache (Some rows') (minutes 65 + 1) "daily" = Ok None.
Proof.
  destruct (usage_cache_round_trip sample_usage_rows (minutes 60)
              (minutes 65) "daily" "daily" "new"%string None)
    as (rows' & Hsave & Hnd & Hget).
  { repeat constructor; simpl; intuition discriminate. }
  exists rows'. split; [exact Hsave |]. split; [exact Hnd |].
  split; [exact Hget |].
  vm_compute in Hsave. injection Hsave as <-. vm_compute. reflexivity.
Defined.

(** X23. A successful [save_to_cache] under one key changes the answer of
    [get_from_cache] for no other key. *)
Theorem usage_cache_other_keys {D : Type} (rows : list (UsageCache D))
  (clock clock' : Z) (key key' ctype : string) (value : D)
  (project : option string) (rows' : option (list (UsageCache D))) :
  key' <> key ->
  save_to_cache (Some rows) clock key ctype value project = Ok rows' ->
  get_from_cache rows' clock' key' = get_from_cache (Some rows) clock' key'.
Proof.
  intros Hne Hsave.
  assert (Hsel : exists now', rows' = Some now'
                              /\ select_key now' key' = select_key rows key').
  { apply save_to_cache_cases in Hsave
      as [(row & _ & ->) | (_ & ->)]; eexists; (split; [reflexivity |]).
    - change (select_key (map (refreshed_row clock key value) rows) key'
              = select_key rows key').
      rewrite select_key_refreshed.
      apply (refreshed_other clock key key' value rows Hne).
    - rewrite select_key_app. unfold select_key at 2. cbn [filter cache_key].
      destruct (String.eqb_spec key key') as [Heq | _]; [congruence |].
      apply app_nil_r. }
  destruct Hsel as (now' & -> & Hsel).
  unfold get_from_cache. now rewrite Hsel.
Qed.

Lemma usage_cache_other_keys_witness :
  get_from_cache
    (Some (map (fun row : UsageCache string =>
                  if String.eqb (cache_key row) "daily"
                  then {| cache_key := cache_key row;
                          cache_type := cache_type row;
                          cache_project_path := cache_project_path row;
                          data := "new"%string;
                          cached_at := aware (minutes 60) 0 |}
                  else row) sample_usage_rows))
    (minutes 3) "summary:project:app"
  = get_from_cache (Some sample_usage_rows) (minutes 3)
      "summary:project:app".
Proof.
  apply (usage_cache_other_keys sample_usage_rows (minutes 60) (minutes 3)
           "daily" "summary:project:app" "daily" "new"%string None);
    [discriminate | reflexivity].
Defined.

(** X24. After [invalidate_cache], [get_from_cache] answers nothing for a
    key all of whose rows matched the filters, and answers as before for a
    key none of whose rows matched. An absent or empty filter matches every
    row, so a call with empty strings clears the table, while a row without
    a project is never removed by a project filter. *)
Theorem invalidate_cache_effect {D : Type} (rows : list (UsageCache D))
  (ctype project : option string) (clock : Z) (key : string) :
  ((forall row, In row rows -> cache_key row = key ->
                invalidated ctype project row = true) ->
   get_from_cache (invalidate_cache (Some rows) ctype project) clock key
   = Ok None)
  /\ ((forall row, In row rows -> cache_key row = key ->
                   invalidated ctype project row = false) ->
      get_from_cache (invalidate_cache (Some rows) ctype project) clock key
      = get_from_cache (Some rows) clock key)
  /\ (given ctype = None -> given project = None ->
      invalidate_cache (Some rows) ctype project = Some [])
  /\ (forall (row : UsageCache D) p,
         cache_project_path row = None -> given project = Some p ->
         invalidated ctype project row = false).
Proof.
  assert (Hsel : select_key
                   (filter (fun row => negb (invalidated ctype project row))
                      rows) key
                 = filter (fun row => negb (invalidated ctype project row))
                     (select_key rows key)).
  { unfold select_key. rewrite !filter_twice. apply filter_ext.
    intros row. apply andb_comm. }
  split; [| split; [| split]].
  - intros Hall. unfold invalidate_cache, get_from_cache. rewrite Hsel.
    replace (filter _ (select_key rows key)) with (@nil (UsageCache D));
      [reflexivity |].
    symmetry. apply filter_none. intros row Hin.
    apply select_key_In in Hin as [Hin Hk]. now rewrite (Hall row Hin Hk).
  - intros Hnone. unfold invalidate_cache, get_from_cache. rewrite Hsel.
    replace (filter _ (select_key rows key)) with (select_key rows key);
      [reflexivity |].
    symmetry. apply filter_all. intros row Hin.
    apply select_key_In in Hin as [Hin Hk]. now rewrite (Hnone row Hin Hk).
  - intros Ht Hp. unfold invalidate_cache. f_equal.
    apply filter_none. intros row _.
    unfold invalidated. now rewrite Ht, Hp.
  - intros row p Hrow Hp. unfold invalidated. rewrite Hp, Hrow.
    apply andb_false_r.
Qed.

Lemma invalidate_cache_effect_witness :
  get_from_cache (invalidate_cache (Some sample_usage_rows)
                    (Some "daily"%string) None) (minutes 1) "daily"
  = Ok None
  /\ get_from_cache (invalidate_cache (Some sample_usage_rows)
                       (Some "daily"%string) None) (minutes 1)
       "summary:project:app"
     = get_from_cache (Some sample_usage_rows) (minutes 1)
         "summary:project:app".
Proof.
  split.
  - apply (invalidate_cache_effect sample_usage_rows).
    intros row [<- | [<- | []]]; [reflexivity | discriminate].
  - apply (invalidate_cache_effect sample_usage_rows).
    intros row [<- | [<- | []]]; [discriminate | reflexivity].
Defined.

(* ===================================================================== *)
(** ** The session cache: saving and reading back *)
(* ===================================================================== *)

Lemma NoDup_map_eq {A B} (f : A -> B) (l : list A) (a b : A) :
  NoDup (map f l) -> In a l -> In b l -> f a = f b -> a = b.
Proof.
  induction l as [| x l IH]; simpl; intros Hnd Ha Hb Heq; [contradiction |].
  inversion Hnd as [| ? ? Hnotin Hnd']; subst.
  destruct Ha as [-> | Ha], Hb as [-> | Hb].
  - reflexivity.
  - exfalso. apply Hnotin. rewrite Heq. now apply in_map.
  - exfalso. apply Hnotin. rewrite <- Heq. now apply in_map.
  - now apply IH.
Qed.

Section SessionCacheFacts.

Import SessionService.

Lemma select_where_In (rows : list SessionCache) (sid folder : string)
  (row : SessionCache) :
  In row (select_where rows sid folder)
  <-> In row rows /\ session_id row = sid /\ project_folder row = folder.
Proof.
  unfold select_where. rewrite filter_In, andb_true_iff, !String.eqb_eq.
  tauto.
Qed.

Lemma select_where_absent (rows : list SessionCache) (sid folder : string) :
  ~ In sid (map session_id rows) -> select_where rows sid folder = [].
Proof.
  intros Hnot. apply filter_none. intros row Hin.
  destruct (String.eqb_spec (session_id row) sid) as [Heq | Hne];
    [| reflexivity].
  exfalso. apply Hnot. rewrite <- Heq. now apply in_map.
Qed.

Lemma select_where_unique (rows : list SessionCache) (sid folder : string) :
  NoDup (map session_id rows) ->
  select_where rows sid folder = []
  \/ exists row, select_where rows sid folder = [row].
Proof.
  induction rows as [| r rows IH]; simpl; intros Hnd; [now left |].
  inversion Hnd as [| ? ? Hnotin Hnd']; subst.
  destruct (String.eqb_spec (session_id r) sid) as [Heq | Hne]; simpl.
  - rewrite <- Heq in *.
    fold (select_where rows (session_id r) folder).
    rewrite (select_where_absent rows (session_id r) folder Hnotin).
    destruct (String.eqb _ folder); [right; now exists r | now left].
  - apply IH, Hnd'.
Qed.

Lemma refreshed_ids (utcnow modified : datetime) (hash : string)
  (s : SessionSummary) (row : SessionCache) :
  session_id (refreshed_session utcnow modified hash s row) = session_id row
  /\ project_folder (refreshed_session utcnow modified hash s row)
     = project_folder row.
Proof. unfold refreshed_session. now destruct (_ && _)%bool. Qed.

Lemma select_where_refreshed (utcnow modified : datetime) (hash : string)
  (s : SessionSummary) (rows : list SessionCache) (sid folder : string) :
  select_where (map (refreshed_session utcnow modified hash s) rows) sid folder
  = map (refreshed_session utcnow modified hash s) (select_where rows sid folder).
Proof.
  unfold select_where. induction rows as [| r rows IH]; simpl;
    [reflexivity |].
  destruct (refreshed_ids utcnow modified hash s r) as [-> ->].
  destruct (_ && _)%bool; simpl; now rewrite IH.
Qed.

Variable md5_hexdigest : string -> string.
Variable str_float : Q -> string.
Variable projects_dir : string.
Variable fromisoformat : string -> result datetime.

(** Reading back the row [c] that a save has just written. *)
Lemma read_back (rows : list SessionCache) (fs : filesystem)
  (utcnow utcnow' : datetime) (sid folder : string) (c : SessionCache)
  (f : file) :
  select_where rows sid folder = [c] ->
  cached_at c = utcnow ->
  same_kind utcnow' utcnow = true ->
  instant utcnow' - instant utcnow <= minutes 5 ->
  fs (session_path projects_dir folder sid) = Some f ->
  file_hash c = stat_hash md5_hexdigest str_float f ->
  get_cached_summary md5_hexdigest str_float projects_dir (Some rows) fs
    utcnow' sid folder
  = Ok (Some {| ss_id := session_id c;
                ss_project_folder := project_folder c;
                ss_project_name := project_name c;
                ss_summary := summary c;
                ss_modified_at := isoformat (modified_at c);
                ss_size_bytes := size_bytes c;
                ss_total_messages := total_messages c;
                ss_total_tool_calls := total_tool_calls c |}).
Proof.
  intros Hsel Hat Hkind Hfresh Hfile Hhash.
  unfold get_cached_summary, scalar_one_or_none. rewrite Hsel. cbn [bind].
  rewrite Hat. unfold sub. rewrite Hkind. cbn [bind].
  change (minutes CACHE_TTL_MINUTES) with (minutes 5).
  destruct (Z.gtb_spec (instant utcnow' - instant utcnow) (minutes 5));
    [lia |].
  rewrite Hfile, (get_file_hash_found md5_hexdigest str_float fs _ f Hfile).
  cbn [bind]. rewrite Hhash, String.eqb_refl. reflexivity.
Qed.

(** X25. On a table with distinct session ids in which the session is
    not stored under another folder, [save_to_cache] commits and keeps the
    ids distinct, and [get_cached_summary], asked within five minutes with
    the file unchanged, answers the saved summary: every field but the
    project name, which for a session already in the table stays the one
    stored before, and for a new session is the one saved. *)
Theorem session_cache_round_trip (rows : list SessionCache)
  (fs : filesystem) (utcnow utcnow' : datetime) (s : SessionSummary)
  (f : file) (m : datetime) :
  let path := session_path projects_dir (ss_project_folder s) (ss_id s) in
  NoDup (map session_id rows) ->
  (forall row, In row rows -> session_id row = ss_id s ->
               project_folder row = ss_project_folder s) ->
  fs path = Some f ->
  fromisoformat (ss_modified_at s) = Ok m ->
  isoformat m = ss_modified_at s ->
  same_kind utcnow' utcnow = true ->
  instant utcnow' - instant utcnow <= minutes 5 ->
  exists rows' name,
    save_to_cache md5_hexdigest str_float fromisoformat (Some rows) fs
      utcnow s path = Ok (Committed rows')
    /\ NoDup (map session_id rows')
    /\ get_cached_summary md5_hexdigest str_float projects_dir (Some rows')
         fs utcnow' (ss_id s) (ss_project_folder s)
       = Ok (Some {| ss_id := ss_id s;
                     ss_project_folder := ss_project_folder s;
                     ss_project_name := name;
                     ss_summary := ss_summary s;
                     ss_modified_at := ss_modified_at s;
                     ss_size_bytes := ss_size_bytes s;
                     ss_total_messages := ss_total_messages s;
                     ss_total_tool_calls := ss_total_tool_calls s |})
    /\ (forall row, In row rows -> session_id row = ss_id s ->
                    name = project_name row)
    /\ (~ In (ss_id s) (map session_id rows) -> name = ss_project_name s).
Proof.
  intros path Hnd Hfolder Hfile Hm Hiso Hkind Hfresh.
  unfold save_to_cache.
  rewrite (get_file_hash_found md5_hexdigest str_float fs path f Hfile).
  cbn [bind].
  destruct (select_where_unique rows (ss_id s) (ss_project_folder s) Hnd)
    as [Hnil | (row & Hrow)].
  - assert (Hnot : ~ In (ss_id s) (map session_id rows)).
    { intros Hin. apply in_map_iff in Hin as (row & Hid & Hin).
      assert (Hsel : In row (select_where rows (ss_id s)
                               (ss_project_folder s))).
      { apply select_where_In. auto. }
      rewrite Hnil in Hsel. contradiction. }
    rewrite Hnil. cbn [scalar_one_or_none bind]. rewrite Hm. cbn [bind].
    replace (existsb _ rows) with false.
    2:{ symmetry. apply not_true_is_false. intros Hex.
        apply existsb_exists in Hex as (row & Hin & Hid).
        apply String.eqb_eq in Hid. apply Hnot. rewrite <- Hid.
        now apply in_map. }
    eexists. exists (ss_project_name s). split; [reflexivity |]. split.
    { rewrite map_app. cbn [map session_id].
      apply NoDup_app; [exact Hnd | repeat constructor; simpl; tauto |].
      intros k Hin [<- | []]. contradiction. }
    split.
    { erewrite (read_back _ fs utcnow utcnow' _ _ _ f);
        [| unfold select_where; rewrite filter_app;
           fold (select_where rows (ss_id s) (ss_project_folder s));
           rewrite Hnil; cbn [filter session_id project_folder app];
           rewrite !String.eqb_refl; reflexivity
         | reflexivity | exact Hkind | exact Hfresh | exact Hfile
         | reflexivity].
      cbn [session_id project_folder project_name summary modified_at
           size_bytes total_messages total_tool_calls].
      now rewrite Hiso. }
    split; [| reflexivity].
    intros row Hin Hid. exfalso. apply Hnot. rewrite <- Hid.
    now apply in_map.
  - assert (Hin : In row (select_where rows (ss_id s) (ss_project_folder s)))
      by (rewrite Hrow; now left).
    apply select_where_In in Hin as (Hin & Hid & Hfold).
    rewrite Hrow. cbn [scalar_one_or_none bind]. rewrite Hm. cbn [bind].
    exists (map (refreshed_session utcnow m (stat_hash md5_hexdigest str_float f) s)
              rows).
    exists (project_name row). split; [reflexivity |]. split.
    { rewrite map_map.
      rewrite (map_ext _ session_id); [exact Hnd |].
      intros r. apply refreshed_ids. }
    split.
    { erewrite (read_back _ fs utcnow utcnow' _ _
                  (refreshed_session utcnow m (stat_hash md5_hexdigest str_float f)
                     s row) f);
        [| rewrite (select_where_refreshed utcnow m _ s rows), Hrow;
           reflexivity
         | unfold refreshed_session; rewrite Hid, Hfold, !String.eqb_refl;
           reflexivity
         | exact Hkind | exact Hfresh | exact Hfile
         | unfold refreshed_session; rewrite Hid, Hfold, !String.eqb_refl;
           reflexivity].
      unfold refreshed_session. rewrite Hid, Hfold, !String.eqb_refl.
      cbn [andb session_id project_folder project_name summary modified_at
           size_bytes total_messages total_tool_calls].
      now rewrite Hiso. }
    split.
    + intros row' Hin' Hid'. f_equal.
      apply (NoDup_map_eq session_id rows); congruence || assumption.
    + intros Hnot. exfalso. apply Hnot. rewrite <- Hid. now apply in_map.
Qed.

(** X26. A session id that the table already holds under another project
    folder cannot be saved: the lookup by id and folder finds nothing, the
    insert breaks the uniqueness of [session_id] and the commit fails. *)
Theorem session_id_of_other_folder_rejected (rows : list SessionCache)
  (fs : filesystem) (utcnow : datetime) (s : SessionSummary)
  (path : string) (f : file) (m : datetime) (row : SessionCache) :
  NoDup (map session_id rows) ->
  In row rows ->
  session_id row = ss_id s ->
  project_folder row <> ss_project_folder s ->
  fs path = Some f ->
  fromisoformat (ss_modified_at s) = Ok m ->
  save_to_cache md5_hexdigest str_float fromisoformat (Some rows) fs
    utcnow s path = Ok IntegrityError.
Proof.
  intros Hnd Hin Hid Hfolder Hfile Hm. unfold save_to_cache.
  rewrite (get_file_hash_found md5_hexdigest str_float fs path f Hfile).
  cbn [bind].
  assert (Hnil : select_where rows (ss_id s) (ss_project_folder s) = []).
  { destruct (select_where_unique rows (ss_id s) (ss_project_folder s) Hnd)
      as [Hnil | (row' & Hrow')]; [exact Hnil |].
    assert (Hin' : In row' (select_where rows (ss_id s)
                              (ss_project_folder s)))
      by (rewrite Hrow'; now left).
    apply select_where_In in Hin' as (Hin' & Hid' & Hfolder').
    assert (row' = row)
      by (apply (NoDup_map_eq session_id rows); congruence || assumption).
    subst row'. contradiction. }
  rewrite Hnil. cbn [scalar_one_or_none bind]. rewrite Hm. cbn [bind].
  replace (existsb _ rows) with true; [reflexivity |].
  symmetry. apply existsb_exists. exists row. split; [exact Hin |].
  now apply String.eqb_eq.
Qed.

End SessionCacheFacts.

Lemma session_cache_round_trip_witness :
  exists rows',
    SessionService.save_to_cache sample_digest sample_str_float
      fromisoformat_basic (Some [sample_row]) sample_fs
      (naive (wall (utc 2025 1 15 10 30))) sample_summary
      "/home/dev/.claude/projects/-home-dev-app/s1.jsonl"
    = Ok (SessionService.Committed rows')
    /\ SessionService.get_cached_summary sample_digest sample_str_float
         "/home/dev/.claude/projects" (Some rows') sample_fs
         (naive (wall (utc 2025 1 15 10 33))) "s1" "-home-dev-app"
       = Ok (Some
               {| SessionService.ss_id := "s1"%string;
                  SessionService.ss_project_folder := "-home-dev-app"%string;
                  SessionService.ss_project_name := "app"%string;
                  SessionService.ss_summary :=
                    "Fix the login form again"%string;
                  SessionService.ss_modified_at :=
                    "2025-01-15T09:59:00"%string;
                  SessionService.ss_size_bytes := 120;
                  SessionService.ss_total_messages := 6;
                  SessionService.ss_total_tool_calls := 2 |}).
Proof.
  destruct (session_cache_round_trip sample_digest sample_str_float
              "/home/dev/.claude/projects" fromisoformat_basic
              [sample_row] sample_fs
              (naive (wall (utc 2025 1 15 10 30)))
              (naive (wall (utc 2025 1 15 10 33))) sample_summary
              {| SessionService.f_stat :=
                   {| SessionService.st_size := 120;
                      SessionService.st_mtime := 1736935140 |};
                 SessionService.f_content := "{}"%string |}
              (naive (wall (utc 2025 1 15 9 59))))
    as (rows' & name & Hsave & _ & Hget & Hname & _).
  - repeat constructor. simpl. tauto.
  - intros row [<- | []] _. reflexivity.
  - vm_compute. reflexivity.
  - vm_compute. reflexivity.
  - vm_compute. reflexivity.
  - reflexivity.
  - vm_compute. discriminate.
  - exists rows'. split; [exact Hsave |].
    rewrite (Hname sample_row (or_introl eq_refl) eq_refl) in Hget.
    exact Hget.
Defined.

Lemma session_id_of_other_folder_rejected_witness :
  SessionService.save_to_cache sample_digest sample_str_float
    fromisoformat_basic (Some [sample_row]) sample_fs
    (naive (wall (utc 2025 1 15 10 30)))
    {| SessionService.ss_id := "s1"%string;
       SessionService.ss_project_folder := "-home-dev-copy"%string;
       SessionService.ss_project_name := "dev/copy"%string;
       SessionService.ss_summary := "Fix the login form"%string;
       SessionService.ss_modified_at := "2025-01-15T09:59:00"%string;
       SessionService.ss_size_bytes := 120;
       SessionService.ss_total_messages := 4;
       SessionService.ss_total_tool_calls := 1 |}
    "/home/dev/.claude/projects/-home-dev-app/s1.jsonl"
  = Ok SessionService.IntegrityError.
Proof.
  eapply (session_id_of_other_folder_rejected sample_digest sample_str_float
            fromisoformat_basic [sample_row] sample_fs _ _ _ _ _
            sample_row).
  - repeat constructor. simpl. tauto.
  - now left.
  - reflexivity.
  - discriminate.
  - vm_compute. reflexivity.
  - vm_compute. reflexivity.
Defined.

(* ===================================================================== *)
(** ** Transcripts: summary text, conversations and pages *)
(* ===================================================================== *)

Lemma length_append (s1 s2 : string) :
  String.length (s1 ++ s2) = (String.length s1 + String.length s2)%nat.
Proof. induction s1 as [| c s1 IH]; simpl; [reflexivity | now rewrite IH]. Qed.

Lemma length_substring_0 (n : nat) (s : string) :
  (n <= String.length s)%nat -> String.length (substring 0 n s) = n.
Proof.
  revert s. induction n as [| n IH]; intros s Hn.
  - destruct s; reflexivity.
  - destruct s as [| c s]; simpl in *; [lia |]. rewrite IH; lia.
Qed.

Lemma firstn_add {A} (a b : nat) (l : list A) :
  firstn (a + b) l = firstn a l ++ firstn b (skipn a l).
Proof.
  revert l. induction a as [| a IH]; intros l; simpl; [reflexivity |].
  destruct l as [| x l]; simpl; [now rewrite firstn_nil | now rewrite IH].
Qed.

Lemma length_filter_le {A} (p : A -> bool) (l : list A) :
  (List.length (filter p l) <= List.length l)%nat.
Proof.
  induction l as [| x l IH]; simpl; [lia |]. destruct (p x); simpl; lia.
Qed.

Lemma length_filter_mono {A} (p q : A -> bool) (l : list A) :
  (forall x, In x l -> p x = true -> q x = true) ->
  (List.length (filter p l) <= List.length (filter q l))%nat.
Proof.
  induction l as [| x l IH]; intros H; simpl; [lia |].
  assert (IH' := IH (fun y Hy => H y (or_intror Hy))).
  destruct (p x) eqn:Hp.
  - rewrite (H x (or_introl eq_refl) Hp). simpl. lia.
  - destruct (q x); simpl; lia.
Qed.

Ltac count_up :=
  repeat (rewrite ?length_app, ?flat_map_app, ?app_nil_r; simpl); lia.

Section TranscriptFacts.

Import SessionService.

Lemma ellipsis_length (limit : Z) (n : nat) (s : string) :
  Z.of_nat n <= limit ->
  let t := ellipsis limit n s in
  (String.length s <= String.length t + (String.length s - n))%nat
  /\ Z.of_nat (String.length t) <= Z.max limit (Z.of_nat n + 3)
  /\ (s <> EmptyString -> t <> EmptyString).
Proof.
  intros Hn t. subst t. unfold ellipsis.
  destruct (Z.gtb_spec (Z.of_nat (String.length s)) limit) as [Hlong | Hshort].
  - rewrite length_append, length_substring_0 by lia. simpl.
    repeat split; try lia.
    intros _ H. apply (f_equal String.length) in H.
    rewrite length_append in H. simpl in H. lia.
  - repeat split; try lia. auto.
Qed.


Variable strip : string -> string.




Variable SessionMessage : Type.
Variable _build_session_message : entry -> SessionMessage.

Local Abbreviation step := (group_entry strip _build_session_message).

Lemma group_entry_invariant (g : grouping SessionMessage) (obj : entry) :
  Forall well_formed (close_convo g) ->
  List.length (close_convo (step g obj))
  = (List.length (close_convo g)
     + if opens_conversation obj then 1 else 0)%nat
  /\ Forall well_formed (close_convo (step g obj))
  /\ (message_count (close_convo (step g obj))
      <= message_count (close_convo g)
         + if is_message obj then 1 else 0)%nat.
Proof.
  intros Hwf. unfold group_entry, opens_conversation, is_message,
    message_count.
  destruct (has_type obj "user") eqn:Huser; cbn [andb orb].
  - destruct (e_isMeta obj); cbn [negb].
    + destruct (has_type obj "assistant").
      * destruct (current_convo g) as [c |] eqn:Hc.
        -- unfold close_convo in *. cbn [current_convo conversations].
           rewrite Hc in *.
           apply Forall_app in Hwf as [Hcs Hc'].
           apply Forall_cons_iff in Hc' as [(Hm & Hu & Hi) _].
           split; [count_up |]. split; [| count_up].
           apply Forall_app. split; [exact Hcs |].
           constructor; [| constructor]. repeat split; auto.
           cbn [messages]. intros H. now apply app_eq_nil in H as [_ H].
        -- split; [lia |]. split; [exact Hwf | lia].
      * split; [lia |]. split; [exact Hwf | lia].
    + remember (close_convo g) as cs eqn:Hcs.
      unfold close_convo. cbn [current_convo conversations].
      split; [count_up |]. split; [| count_up].
      apply Forall_app. split; [exact Hwf |].
      constructor; [| constructor]. repeat split.
      * discriminate.
      * cbn [user_text].
        match goal with
        | |- context [ellipsis 100 100 ?s] =>
            destruct (ellipsis_length 100 100 s ltac:(lia)) as (_ & Hmax & _)
        end.
        lia.
  - destruct (has_type obj "assistant").
    + destruct (current_convo g) as [c |] eqn:Hc.
      * unfold close_convo in *. cbn [current_convo conversations].
        rewrite Hc in *.
        apply Forall_app in Hwf as [Hcs Hc'].
        apply Forall_cons_iff in Hc' as [(Hm & Hu & Hi) _].
        split; [count_up |]. split; [| count_up].
        apply Forall_app. split; [exact Hcs |].
        constructor; [| constructor]. repeat split; auto.
        cbn [messages]. intros H. now apply app_eq_nil in H as [_ H].
      * split; [lia |]. split; [exact Hwf | lia].
    + split; [lia |]. split; [exact Hwf | lia].
Qed.

Lemma fold_group_entry_invariant (entries : list entry) :
  forall g,
    Forall well_formed (close_convo g) ->
    List.length (close_convo (fold_left step entries g))
    = (List.length (close_convo g)
       + List.length (filter opens_conversation entries))%nat
    /\ Forall well_formed (close_convo (fold_left step entries g))
    /\ (message_count (close_convo (fold_left step entries g))
        <= message_count (close_convo g)
           + List.length (filter is_message entries))%nat.
Proof.
  induction entries as [| obj rest IH]; intros g Hwf; simpl.
  - split; [lia |]. split; [exact Hwf | lia].
  - destruct (group_entry_invariant g obj Hwf) as (H1 & H2 & H3).
    destruct (IH (step g obj) H2) as (I1 & I2 & I3).
    split; [| split; [exact I2 |]].
    + rewrite I1, H1. destruct (opens_conversation obj); simpl; lia.
    + destruct (is_message obj); simpl; lia.
Qed.

(** X28. [parse_session_to_conversations] makes exactly one conversation
    for each user entry that is not meta; every conversation holds at least
    one message, shows at most 103 characters of the prompt and is no
    continuation; and the conversations hold no more messages than the
    entries that [count_messages] counts. *)
Theorem conversations_follow_prompts (entries : list entry) :
  let convs :=
    parse_session_to_conversations strip _build_session_message entries in
  List.length convs = List.length (filter opens_conversation entries)
  /\ Forall (fun c => messages c <> []
                      /\ (String.length (user_text c) <= 103)%nat
                      /\ is_continuation c = false) convs
  /\ Z.of_nat (List.length (flat_map messages convs))
     <= count_messages entries.
Proof.
  intros convs. subst convs. unfold parse_session_to_conversations.
  destruct (fold_group_entry_invariant entries (mkGrouping [] None))
    as (H1 & H2 & H3); [constructor |].
  split; [exact H1 |]. split; [exact H2 |].
  unfold count_messages. unfold message_count in H3. simpl in H3.
  unfold is_message in H3. lia.
Qed.

Lemma slice_page {A} (l : list A) (start : nat) :
  slice l (Z.of_nat start) (Z.of_nat start + PROMPTS_PER_PAGE)
  = firstn 5 (skipn start l).
Proof.
  unfold slice, clamp_index, PROMPTS_PER_PAGE.
  destruct (Z.ltb_spec (Z.of_nat start) 0); [lia |].
  destruct (Z.ltb_spec (Z.of_nat start + 5) 0); [lia |].
  destruct (Nat.le_gt_cases (List.length l) start) as [Hout | Hin].
  - rewrite !Z.min_l by lia. rewrite Z.sub_diag.
    rewrite (skipn_all2 l (n := start)) by lia. reflexivity.
  - rewrite (Z.min_r _ (Z.of_nat start)) by lia. rewrite Nat2Z.id.
    destruct (Z.le_gt_cases (Z.of_nat start + 5) (Z.of_nat (List.length l))).
    + rewrite Z.min_r by lia. f_equal. lia.
    + rewrite Z.min_l by lia.
      rewrite !firstn_all2; try reflexivity; rewrite length_skipn; lia.
Qed.

Lemma pages_concat {A} (l : list A) (n : nat) :
  flat_map (fun i => firstn 5 (skipn (5 * i) l)) (seq 0 n)
  = firstn (5 * n) l.
Proof.
  induction n as [| n IH]; [reflexivity |].
  rewrite seq_S, flat_map_app, IH. simpl flat_map. rewrite app_nil_r.
  replace (5 * S n)%nat with (5 * n + 5)%nat by lia.
  now rewrite firstn_add.
Qed.

(** X29. The pages of [get_session_detail] cut the conversations into
    consecutive runs of five: page [p] for [p >= 1] holds the five
    conversations from position [5 (p - 1)] on (fewer at the end), the
    pages 1 to [total_pages] put together are all conversations in order,
    and a page beyond [total_pages] is empty. *)
Theorem pages_partition_conversations
  (convs : list (SessionConversation SessionMessage)) :
  (forall page,
      1 <= page ->
      paginated_conversations convs page
      = firstn 5 (skipn (5 * Z.to_nat (page - 1)) convs))
  /\ flat_map (fun i => paginated_conversations convs (Z.of_nat i))
       (seq 1 (Z.to_nat (total_pages convs)))
     = convs
  /\ (forall page,
         total_pages convs < page -> paginated_conversations convs page = []).
Proof.
  assert (Hpage : forall page,
             1 <= page ->
             paginated_conversations convs page
             = firstn 5 (skipn (5 * Z.to_nat (page - 1)) convs)).
  { intros page Hp. unfold paginated_conversations.
    replace ((page - 1) * PROMPTS_PER_PAGE)
      with (Z.of_nat (5 * Z.to_nat (page - 1)))
      by (unfold PROMPTS_PER_PAGE; lia).
    apply slice_page. }
  assert (Htotal : 5 * total_pages convs >= Z.of_nat (List.length convs)
                   /\ 0 <= total_pages convs).
  { unfold total_pages, PROMPTS_PER_PAGE.
    pose proof (Z.div_mod (Z.of_nat (List.length convs) + 5 - 1) 5
                  ltac:(lia)) as Hdm.
    pose proof (Z.mod_pos_bound (Z.of_nat (List.length convs) + 5 - 1) 5
                  ltac:(lia)) as Hmod.
    assert (0 <= (Z.of_nat (List.length convs) + 5 - 1) / 5)
      by (apply Z.div_pos; lia).
    lia. }
  split; [exact Hpage |]. split.
  - rewrite <- seq_shift, flat_map_concat_map, map_map,
      <- flat_map_concat_map.
    rewrite (flat_map_ext _ (fun i => firstn 5 (skipn (5 * i) convs))).
    + rewrite pages_concat. apply firstn_all2. lia.
    + intros i. rewrite Hpage by lia. do 3 f_equal. lia.
  - intros page Hp. rewrite Hpage by lia.
    rewrite skipn_all2; [apply firstn_nil | lia].
Qed.

End TranscriptFacts.

Lemma pages_partition_conversations_witness :
  let convs :=
    SessionService.parse_session_to_conversations (fun s => s)
      (fun obj => tt) sample_transcript in
  SessionService.paginated_conversations convs 1 = convs
  /\ SessionService.paginated_conversations convs 2 = [].
Proof.
  intros convs.
  destruct (pages_partition_conversations unit convs) as (Hpage & _ & Hout).
  split.
  - rewrite (Hpage 1) by lia. vm_compute. reflexivity.
  - apply Hout. vm_compute. reflexivity.
Defined.

(* ===================================================================== *)
(** ** The dashboard *)
(* ===================================================================== *)

Lemma filterM_ok_filter {A} (q : A -> result bool) (xs ys : list A) :
  filterM q xs = Ok ys ->
  ys = filter (fun x => match q x with Ok b => b | Raise _ => false end) xs
  /\ Forall (fun x => exists b, q x = Ok b) xs.
Proof.
  revert ys. induction xs as [| x xs IH]; intros ys; simpl.
  - intros H. injection H as <-. split; constructor.
  - destruct (q x) as [b |] eqn:Hq; [| discriminate]. cbn [bind].
    destruct (filterM q xs) as [zs |]; [| discriminate]. cbn [bind].
    intros H. injection H as <-. destruct (IH zs eq_refl) as [-> Hall].
    split; [reflexivity |]. constructor; [now exists b | exact Hall].
Qed.

Section DashboardFacts.

Import SessionService.

Lemma sessions_of_cons (name : string) (s : SessionSummary)
  (rest : list SessionSummary) :
  sessions_of name (s :: rest)
  = (if String.eqb (ss_project_name s) name then 1 else 0)
    + sessions_of name rest.
Proof.
  unfold sessions_of. cbn [filter].
  destruct (String.eqb _ _); cbn [List.length]; lia.
Qed.

Lemma sessions_of_nonneg (name : string) (sessions : list SessionSummary) :
  0 <= sessions_of name sessions.
Proof. unfold sessions_of. lia. Qed.

Lemma project_counts_get (sessions : list SessionSummary) :
  forall (d : dict Z) (name : string),
    get (fold_left
           (fun counts s =>
              update 0 (fun n => n + 1) counts (ss_project_name s))
           sessions d) name
    = if sessions_of name sessions =? 0 then get d name
      else Some (match get d name with Some k => k | None => 0 end
                 + sessions_of name sessions).
Proof.
  induction sessions as [| s rest IH]; intros d name.
  - reflexivity.
  - cbn [fold_left]. rewrite IH, get_update, sessions_of_cons.
    pose proof (sessions_of_nonneg name rest) as Hpos.
    destruct (String.eqb_spec (ss_project_name s) name) as [-> | Hne].
    + destruct (Z.eqb_spec (sessions_of name rest) 0) as [Hz | Hnz];
        destruct (Z.eqb_spec (1 + sessions_of name rest) 0); try lia;
        f_equal; lia.
    + cbn [Z.add]. reflexivity.
Qed.

Lemma max_by_count_spec (rest : list (string * Z)) :
  forall best,
    In (max_by_count best rest) (best :: rest)
    /\ Forall (fun item => snd item <= snd (max_by_count best rest))
         (best :: rest).
Proof.
  induction rest as [| item rest IH]; intros best; simpl.
  - split; [now left |]. constructor; [lia | constructor].
  - destruct (IH (if snd item >? snd best then item else best))
      as [Hin Hall].
    apply Forall_cons_iff in Hall as [Hbest Hrest].
    destruct (Z.gtb_spec (snd item) (snd best)) as [Hgt | Hle].
    + split.
      * destruct Hin as [<- | Hin]; [right; now left | right; now right].
      * constructor; [lia |]. constructor; [exact Hbest | exact Hrest].
    + split.
      * destruct Hin as [<- | Hin]; [now left | right; now right].
      * constructor; [exact Hbest |]. constructor; [lia | exact Hrest].
Qed.

Lemma project_counts_keys (sessions : list SessionSummary) :
  keys (project_counts sessions)
  = first_seen (map ss_project_name sessions).
Proof.
  unfold project_counts.
  apply (keys_fold_left_nil 0 (fun _ n => n + 1) ss_project_name).
Qed.

Variable fromisoformat : string -> result datetime.

Lemma count_since_mono (sessions : list SessionSummary)
  (bound : datetime) (span today week : Z) :
  0 <= span ->
  count_since fromisoformat sessions bound = Ok today ->
  count_since fromisoformat sessions (add bound (- span)) = Ok week ->
  0 <= today <= week /\ week <= Z.of_nat (List.length sessions).
Proof.
  intros Hspan. unfold count_since.
  destruct (filterM _ sessions) as [kept |] eqn:H1; [| discriminate].
  destruct (filterM _ sessions) as [kept' |] eqn:H2 in |- *;
    [| discriminate].
  cbn [bind]. intros Ht Hw. injection Ht as <-. injection Hw as <-.
  apply filterM_ok_filter in H1 as [-> _].
  apply filterM_ok_filter in H2 as [-> _].
  split; [split; [lia |] |].
  - apply Nat2Z.inj_le, length_filter_mono. intros s _.
    destruct (fromisoformat (ss_modified_at s)) as [m |]; cbn [bind];
      [| discriminate].
    unfold ge. rewrite same_kind_add.
    destruct (same_kind m bound); [| discriminate].
    rewrite instant_add. intros H. apply Z.geb_le in H. apply Z.geb_le. lia.
  - apply Nat2Z.inj_le, length_filter_le.
Qed.

(** X30. In an answer of [get_dashboard_stats] the sessions of today are
    among the sessions of the week, which are among the listed sessions;
    the most active project is absent exactly when no session is listed,
    and otherwise it is a project with at least one session and with no
    fewer sessions than any other project. *)
Theorem dashboard_stats_consistent (sessions : list SessionSummary)
  (total : Z) (now : datetime) (st : SessionStats) :
  get_dashboard_stats fromisoformat sessions total now = Ok st ->
  (0 <= sessions_today st <= sessions_this_week st
   /\ sessions_this_week st <= Z.of_nat (List.length sessions))
  /\ (most_active_project st = None <-> sessions = [])
  /\ (forall p,
         most_active_project st = Some p ->
         0 < sessions_of p sessions
         /\ forall q, sessions_of q sessions <= sessions_of p sessions).
Proof.
  unfold get_dashboard_stats.
  destruct (count_since fromisoformat sessions (start_of_day now))
    as [today |] eqn:Ht; [| discriminate]. cbn [bind].
  destruct (count_since fromisoformat sessions
              (add (start_of_day now) (- days 7))) as [week |] eqn:Hw;
    [| discriminate]. cbn [bind].
  intros H. injection H as <-.
  cbn [sessions_today sessions_this_week most_active_project].
  split; [| split].
  - apply (count_since_mono sessions (start_of_day now) (days 7));
      [unfold days, US_PER_DAY, US_PER_HOUR, US_PER_MINUTE, US_PER_SECOND;
       lia | exact Ht | exact Hw].
  - pose proof (project_counts_keys sessions) as Hkeys.
    destruct (project_counts sessions) as [| item rest].
    + split; [intros _ | reflexivity].
      destruct sessions as [| s l]; [reflexivity | discriminate].
    + split; [discriminate |]. intros ->. discriminate.
  - intros p Hp.
    pose proof (project_counts_keys sessions) as Hkeys.
    pose proof (project_counts_get sessions [] ) as Hget.
    fold (project_counts sessions) in Hget. cbn [get] in Hget.
    destruct (project_counts sessions) as [| item rest] eqn:Hcounts;
      [discriminate |].
    injection Hp as <-.
    destruct (max_by_count_spec rest item) as [Hin Hall].
    set (best := max_by_count item rest) in *.
    assert (Hbest : get (item :: rest) (fst best) = Some (snd best)).
    { apply get_In; [rewrite Hkeys; apply first_seen_NoDup |].
      now destruct best. }
    rewrite Hget in Hbest.
    pose proof (sessions_of_nonneg (fst best) sessions) as Hpos.
    destruct (Z.eqb_spec (sessions_of (fst best) sessions) 0);
      [discriminate |].
    injection Hbest as Hbest. split; [lia |].
    intros q. pose proof (sessions_of_nonneg q sessions) as Hq.
    specialize (Hget q).
    destruct (Z.eqb_spec (sessions_of q sessions) 0); [lia |].
    apply In_get in Hget. rewrite Forall_forall in Hall.
    specialize (Hall _ Hget). cbn [snd] in Hall. lia.
Qed.

End DashboardFacts.

Lemma dashboard_stats_consistent_witness :
  exists st,
    SessionService.get_dashboard_stats fromisoformat_basic sample_listing 3
      (naive (wall (utc 2025 1 15 10 0))) = Ok st
    /\ SessionService.sessions_today st = 2
    /\ SessionService.sessions_this_week st = 3
    /\ SessionService.most_active_project st = Some "dev/app"%string.
Proof.
  destruct (SessionService.get_dashboard_stats fromisoformat_basic
              sample_listing 3 (naive (wall (utc 2025 1 15 10 0))))
    as [st |] eqn:Hst; [| vm_compute in Hst; discriminate].
  destruct (dashboard_stats_consistent fromisoformat_basic sample_listing 3
              (naive (wall (utc 2025 1 15 10 0))) st Hst) as (_ & _ & _).
  exists st. split; [reflexivity |].
  vm_compute in Hst. injection Hst as <-. repeat split.
Defined.
